(** * Electro Tech price automation: extraction, aggregation, resilience

    A shallow embedding of the decision logic of
    [price_intelligence.py], [production_utils.py] and [run_all.py],
    with the properties of the specification stated and settled on it.

    Conventions of the embedding:
    - text is ASCII ([string]); Python [str] methods and the [re] module are
      modelled on ASCII characters only, and a property that turns on
      which characters are digits says that its text is ASCII;
    - a Python [float] price is the rational it denotes ([Q]); the code only
      parses, compares and copies prices, it never does arithmetic on them;
      [float()] of a numeral is taken exact, and a rational beyond the
      doubles stands for the infinity Python makes of it, on which
      [int()] raises;
    - the SQLite tables are lists of records in rowid order; a calendar
      date is an integer (the examples use its YYYYMMDD stamp);
    - clock readings, random draws and the outcomes of external
      collaborators are explicit inputs. *)

From Stdlib Require Import Bool Arith ZArith QArith Qminmax Lia List Ascii String.
From Stdlib Require Import Sorting.Sorted Sorting.Permutation.
Import ListNotations.

Local Open Scope string_scope.

(* ================================================================== *)
(** ** Python [str] primitives on ASCII text *)
(* ================================================================== *)

Module PyStr.

Definition is_digit (c : ascii) : bool :=
  let n := nat_of_ascii c in (48 <=? n)%nat && (n <=? 57)%nat.

Definition is_upper (c : ascii) : bool :=
  let n := nat_of_ascii c in (65 <=? n)%nat && (n <=? 90)%nat.

Definition is_lower (c : ascii) : bool :=
  let n := nat_of_ascii c in (97 <=? n)%nat && (n <=? 122)%nat.

Definition is_alpha (c : ascii) : bool := is_upper c || is_lower c.

(** [str.isspace] on code points below 128: TAB..CR, FS..US and SPACE. *)
Definition is_space (c : ascii) : bool :=
  let n := nat_of_ascii c in
  ((9 <=? n)%nat && (n <=? 13)%nat) || ((28 <=? n)%nat && (n <=? 32)%nat).

Definition lower_char (c : ascii) : ascii :=
  if is_upper c then ascii_of_nat (nat_of_ascii c + 32) else c.

Definition upper_char (c : ascii) : ascii :=
  if is_lower c then ascii_of_nat (nat_of_ascii c - 32) else c.

(** [s.lower()] *)
Fixpoint lower (s : string) : string :=
  match s with
  | EmptyString => EmptyString
  | String c s' => String (lower_char c) (lower s')
  end.

(** [s.upper()] *)
Fixpoint upper (s : string) : string :=
  match s with
  | EmptyString => EmptyString
  | String c s' => String (upper_char c) (upper s')
  end.

(** [s.title()]: a letter that follows a letter is lower-cased, any other
    letter is upper-cased. *)
Fixpoint title_from (prev_cased : bool) (s : string) : string :=
  match s with
  | EmptyString => EmptyString
  | String c s' =>
      String (if prev_cased then lower_char c else upper_char c)
             (title_from (is_alpha c) s')
  end.

Definition title (s : string) : string := title_from false s.

(** [s.replace(a, b)] for single characters. *)
Fixpoint replace_char (a b : ascii) (s : string) : string :=
  match s with
  | EmptyString => EmptyString
  | String c s' =>
      String (if Ascii.eqb c a then b else c) (replace_char a b s')
  end.

(** [sub in s] *)
Fixpoint contains (sub s : string) : bool :=
  String.prefix sub s ||
  match s with
  | EmptyString => false
  | String _ s' => contains sub s'
  end.

(** [s[:n]] *)
Definition take (n : nat) (s : string) : string := String.substring 0 n s.

(** [''.join(c for c in s if p(c))] *)
Fixpoint filter_chars (p : ascii -> bool) (s : string) : string :=
  match s with
  | EmptyString => EmptyString
  | String c s' =>
      if p c then String c (filter_chars p s') else filter_chars p s'
  end.

(** [s.split(sep)] for a single-character separator. *)
Fixpoint split_on (sep : ascii) (s : string) : list string :=
  match s with
  | EmptyString => [EmptyString]
  | String c s' =>
      if Ascii.eqb c sep then EmptyString :: split_on sep s'
      else match split_on sep s' with
           | [] => [String c EmptyString]
           | w :: ws => String c w :: ws
           end
  end.

End PyStr.

(* ================================================================== *)
(** ** The fragment of Python's [re] used by the price patterns

    A backtracking matcher with Python's priorities: alternatives are tried
    left to right, quantifiers are greedy, the first successful path wins.
    One capturing group is supported, which is all the patterns use. *)
(* ================================================================== *)

Module Re.

Inductive regex : Type :=
| Lit (c : ascii)                (* a literal, compared ignoring case *)
| Cls (p : ascii -> bool)        (* a character class *)
| Cat (r1 r2 : regex)            (* r1 r2 *)
| Alt (r1 r2 : regex)            (* r1 | r2 *)
| Opt (r : regex)                (* r?  *)
| Star (r : regex)               (* r*  *)
| Rep (n : nat) (r : regex)      (* r{n} *)
| Grp (r : regex).               (* ( r ), group 1 *)

Definition Plus (r : regex) : regex := Cat r (Star r).

(** A literal word, character by character. *)
Fixpoint word (s : string) : regex :=
  match s with
  | EmptyString => Rep 0 (Cls (fun _ => false))
  | String c EmptyString => Lit c
  | String c s' => Cat (Lit c) (word s')
  end.

(** The state of a match attempt: the unread input and group 1. *)
Record mstate : Type := MState { rest : string; grp1 : option string }.

Definition orelse {A} (x : option A) (y : option A) : option A :=
  match x with Some _ => x | None => y end.

(** [run r st k]: match [r] at the head of [rest st], then continue with
    [k]; [None] makes the matcher backtrack into the previous choice. *)
Fixpoint run (r : regex) (st : mstate) (k : mstate -> option mstate)
  {struct r} : option mstate :=
  match r with
  | Lit c =>
      match rest st with
      | String x s' =>
          if Ascii.eqb (PyStr.lower_char x) (PyStr.lower_char c)
          then k (MState s' (grp1 st)) else None
      | EmptyString => None
      end
  | Cls p =>
      match rest st with
      | String x s' => if p x then k (MState s' (grp1 st)) else None
      | EmptyString => None
      end
  | Cat r1 r2 => run r1 st (fun st1 => run r2 st1 k)
  | Alt r1 r2 => orelse (run r1 st k) (run r2 st k)
  | Opt r1 => orelse (run r1 st k) (k st)
  | Star r1 =>
      (fix loop (fuel : nat) (st0 : mstate) {struct fuel} : option mstate :=
         match fuel with
         | O => k st0
         | S fuel' =>
             orelse
               (run r1 st0
                    (fun st1 =>
                       if (String.length (rest st1) <? String.length (rest st0))%nat
                       then loop fuel' st1 else None))
               (k st0)
         end) (String.length (rest st)) st
  | Rep n r1 =>
      (fix rep (m : nat) (st0 : mstate) {struct m} : option mstate :=
         match m with
         | O => k st0
         | S m' => run r1 st0 (fun st1 => rep m' st1)
         end) n st
  | Grp r1 =>
      run r1 st
          (fun st1 =>
             let consumed :=
               (String.length (rest st) - String.length (rest st1))%nat in
             k (MState (rest st1) (Some (PyStr.take consumed (rest st)))))
  end.

(** [pattern.match(s)] at the head of [s]: group 1 and the unread input. *)
Definition match_here (r : regex) (s : string) : option (string * string) :=
  match run r (MState s None) (fun st => Some st) with
  | Some st =>
      Some (match grp1 st with Some g => g | None => EmptyString end, rest st)
  | None => None
  end.

(** [re.findall(pattern, s)] for a pattern with one group: the group of
    every match, scanning left to right, each search resuming where the
    previous match ended (one character further after an empty match). *)
Fixpoint findall_from (fuel : nat) (r : regex) (s : string) : list string :=
  match fuel with
  | O => []
  | S fuel' =>
      match match_here r s with
      | Some (g, s') =>
          if (String.length s' <? String.length s)%nat
          then g :: findall_from fuel' r s'
          else g :: match s with
                    | EmptyString => []
                    | String _ t => findall_from fuel' r t
                    end
      | None =>
          match s with
          | EmptyString => []
          | String _ t => findall_from fuel' r t
          end
      end
  end.

Definition findall (r : regex) (s : string) : list string :=
  findall_from (S (String.length s)) r s.

(** [re.search(pattern, s).group(1)], [None] when nothing matches. *)
Fixpoint search_from (fuel : nat) (r : regex) (s : string) : option string :=
  match fuel with
  | O => None
  | S fuel' =>
      match match_here r s with
      | Some (g, _) => Some g
      | None =>
          match s with
          | EmptyString => None
          | String _ t => search_from fuel' r t
          end
      end
  end.

Definition search (r : regex) (s : string) : option string :=
  search_from (S (String.length s)) r s.

(** The classes [\d] and [\s]. *)
Definition digit : regex := Cls PyStr.is_digit.
Definition space : regex := Cls PyStr.is_space.

End Re.

(* ================================================================== *)
(** ** [price_intelligence.py]: [PriceExtractor] *)
(* ================================================================== *)

Module PriceExtractor.

Import Re.

(** [float(s)] for a string of digits and dots, as [_clean_price] builds
    it: at most one dot and at least one digit, otherwise [ValueError]
    ([None]).  The value is the decimal the string denotes. *)
Fixpoint digits_value (acc : Z) (s : string) : Z :=
  match s with
  | EmptyString => acc
  | String c s' =>
      if PyStr.is_digit c
      then digits_value (10 * acc + Z.of_nat (nat_of_ascii c - 48)) s'
      else digits_value acc s'
  end.

Fixpoint count_char (a : ascii) (s : string) : nat :=
  match s with
  | EmptyString => O
  | String c s' => (if Ascii.eqb c a then 1 else 0) + count_char a s'
  end.

(** The number of characters after the first dot. *)
Fixpoint frac_len (s : string) : nat :=
  match s with
  | EmptyString => O
  | String c s' => if Ascii.eqb c "." then String.length s' else frac_len s'
  end.

(** The decimal a string of digits with at most one dot denotes. *)
Definition decimal_value (s : string) : Q :=
  Qred (digits_value 0 s # Z.to_pos (10 ^ Z.of_nat (frac_len s))).

Definition py_float (s : string) : option Q :=
  let dots := count_char "." s in
  if (1 <? dots)%nat then None
  else if (String.length s <=? dots)%nat then None
  else Some (decimal_value s).

(** [PRICE_PATTERNS] *)
Definition numeral : regex :=                    (* \d+(?:,\d{3})* *)
  Cat (Plus digit) (Star (Cat (Lit ",") (Rep 3 digit))).

Definition numeral_dec : regex :=                (* \d+(?:,\d{3})*(?:\.\d{2})? *)
  Cat numeral (Opt (Cat (Lit ".") (Rep 2 digit))).

Definition currency : regex :=                   (* (?:rs\.?|rupees?|pkr) *)
  Alt (Cat (word "rs") (Opt (Lit ".")))
      (Alt (Cat (word "rupee") (Opt (Lit "s"))) (word "pkr")).

Definition PRICE_PATTERNS : list regex :=
  [ Cat currency (Cat (Star space) (Grp numeral_dec));
    Cat (Grp numeral_dec) (Cat (Star space) currency);
    Cat (word "price")
        (Cat (Plus (Cls (fun c => Ascii.eqb c ":" || PyStr.is_space c)))
             (Grp numeral));
    Cat (Grp numeral) (Cat (Star space) (word "per")) ].

(** [CATEGORIES], in the dict's insertion order. *)
Definition CATEGORIES : list (string * list string) :=
  [ ("inverter", ["inverter"; "ups"; "power backup"]);
    ("solar_panel", ["solar panel"; "solar"; "panel"; "photovoltaic"; "pv"]);
    ("battery", ["battery"; "batteries"; "tubular"; "lithium"; "gel"]) ].

Definition INVERTER_MODELS : list string :=
  ["growatt"; "goodwe"; "fronius"; "sma"; "huawei"; "solis"].
Definition PANEL_MODELS : list string :=
  ["longi"; "jinko"; "ja solar"; "risen"; "trina"].
Definition BATTERY_MODELS : list string :=
  ["tesla"; "pylontech"; "byd"; "tubular"; "lithium"].

(** [_clean_price]: keep digits and dots, parse, [0.0] on [ValueError]. *)
Definition _clean_price (price_str : string) : Q :=
  let cleaned :=
    PyStr.filter_chars (fun c => PyStr.is_digit c || Ascii.eqb c ".") price_str in
  match py_float cleaned with
  | Some v => v
  | None => 0
  end.

(** [_detect_category] *)
Fixpoint _detect_category_in (cats : list (string * list string))
  (text : string) : option string :=
  match cats with
  | [] => None
  | (category, keywords) :: cats' =>
      if existsb (fun keyword => PyStr.contains keyword text) keywords
      then Some (PyStr.title (PyStr.replace_char "_" " " category))
      else _detect_category_in cats' text
  end.

Definition _detect_category (text : string) : option string :=
  _detect_category_in CATEGORIES text.

(** The wattage pattern of [_detect_model]: (\d+)\s*(?:kw|w|watt) *)
Definition wattage_pattern : regex :=
  Cat (Grp (Plus digit))
      (Cat (Star space) (Alt (word "kw") (Alt (word "w") (word "watt")))).

(** [_detect_model] *)
Definition _detect_model (text category : string) : string :=
  let cat_lower := PyStr.lower category in
  let models :=
    if PyStr.contains "inverter" cat_lower then INVERTER_MODELS
    else if PyStr.contains "panel" cat_lower then PANEL_MODELS
    else if PyStr.contains "battery" cat_lower then BATTERY_MODELS
    else [] in
  match find (fun model => PyStr.contains model text) models with
  | Some model => PyStr.title model
  | None =>
      match Re.search wattage_pattern text with
      | Some watts => watts ++ "W"
      | None => "Generic"
      end
  end.

(** One entry of the list [extract_from_text] returns. *)
Record candidate : Type := Candidate {
  category : string;
  model : string;
  price : Q;
  unit : string;
  raw_text : string
}.

(** [extract_from_text] *)
Definition extract_from_text (text : string) : list candidate :=
  let text_lower := PyStr.lower text in
  let prices :=
    flat_map (fun pattern => map _clean_price (Re.findall pattern text_lower))
             PRICE_PATTERNS in
  match prices with
  | [] => []
  | _ :: _ =>
      match _detect_category text_lower with
      | None => []
      | Some category =>
          let model := _detect_model text_lower category in
          map (fun price =>
                 Candidate category model price "per piece" (PyStr.take 200 text))
              prices
      end
  end.

End PriceExtractor.

(* ================================================================== *)
(** ** [price_intelligence.py]: [DatabaseManager]

    The two tables the core reads and writes, as lists in rowid order.
    [_initialize_db] declares [daily_prices.vendor_id] as a foreign key but
    the connection never issues [PRAGMA foreign_keys = ON], so SQLite does
    not enforce it: an [INSERT] is a plain append. *)
(* ================================================================== *)

Module DatabaseManager.

(** A row of [vendors] (the columns the core reads). *)
Record vendor : Type := Vendor {
  v_vendor_id : string;
  v_vendor_name : string;
  v_mobile : string;
  v_whatsapp_number : option string;
  v_vendor_type : string;
  v_status : string
}.

(** A row of [daily_prices]; [price_id] is the position in the table. *)
Record price_row : Type := PriceRow {
  dp_date : Z;
  dp_vendor_id : string;
  dp_product_category : string;
  dp_product_model : string;
  dp_product_company : string;
  dp_price : Q;
  dp_unit : string;
  dp_source : string
}.

Record db : Type := Db {
  vendors : list vendor;
  daily_prices : list price_row
}.

(** A row of the result of [get_minimum_prices_today]. *)
Record quote : Type := Quote {
  product_category : string;
  product_model : string;
  product_company : string;
  min_price : Q;
  unit : string;
  vendor_id : string;
  vendor_name : string;
  mobile : string;
  vendor_type : string
}.

(** [get_vendor_by_whatsapp]: the first active vendor with that number. *)
Definition get_vendor_by_whatsapp (d : db) (whatsapp_number : string)
  : option vendor :=
  find (fun v =>
          match v_whatsapp_number v with
          | Some n => String.eqb n whatsapp_number
          | None => false
          end && String.eqb (v_status v) "active")
       (vendors d).

(** [insert_price]: one [INSERT], stamped with today's date.  The Python
    defaults are [company = ""], [unit = "per piece"], [source = "whatsapp"]. *)
Definition insert_price (today : Z) (d : db)
  (vendor_id category model : string) (price : Q)
  (company unit source : string) : db :=
  Db (vendors d)
     (daily_prices d ++
      [PriceRow today vendor_id category model company price unit source]).

(** The rows the query ranges over:
    [FROM daily_prices dp JOIN vendors v ON dp.vendor_id = v.vendor_id
     WHERE dp.date = ?], price rows in rowid order. *)
Definition joined_rows (today : Z) (d : db) : list (price_row * vendor) :=
  flat_map
    (fun dp =>
       map (fun v => (dp, v))
           (filter (fun v => String.eqb (dp_vendor_id dp) (v_vendor_id v))
                   (vendors d)))
    (filter (fun dp => Z.eqb (dp_date dp) today) (daily_prices d)).

(** The [GROUP BY] key. *)
Definition group_key (j : price_row * vendor) : string * string * string :=
  (dp_product_category (fst j), dp_product_model (fst j),
   dp_product_company (fst j)).

Definition key_eqb (k1 k2 : string * string * string) : bool :=
  match k1, k2 with
  | (c1, m1, p1), (c2, m2, p2) =>
      String.eqb c1 c2 && String.eqb m1 m2 && String.eqb p1 p2
  end.

Definition price_of (j : price_row * vendor) : Q := dp_price (fst j).

(** [MIN(dp.price)] with bare columns: SQLite takes the other columns of
    a group from a row that holds the minimum.  Every group keeps such a
    row; a later row replaces it only when strictly cheaper, so among equal
    prices the first row of the scan stays (SQLite leaves the choice among
    equal minima open; it is fixed by the scan, which this model takes in
    rowid order). *)
Fixpoint upsert (j : price_row * vendor) (groups : list (price_row * vendor))
  : list (price_row * vendor) :=
  match groups with
  | [] => [j]
  | g :: gs =>
      if key_eqb (group_key g) (group_key j)
      then (if Qle_bool (price_of g) (price_of j) then g else j) :: gs
      else g :: upsert j gs
  end.

Definition group_min (js : list (price_row * vendor))
  : list (price_row * vendor) :=
  fold_left (fun groups j => upsert j groups) js [].

(** [ORDER BY dp.product_category, min_price]: categories in byte order
    (the BINARY collation), then prices ascending; [order_by] sorts by
    insertion, which fixes the order of groups that compare equal. *)
Definition order_leb (a b : price_row * vendor) : bool :=
  match String.compare (dp_product_category (fst a))
                       (dp_product_category (fst b)) with
  | Lt => true
  | Gt => false
  | Eq => Qle_bool (price_of a) (price_of b)
  end.

Fixpoint insert_sorted (a : price_row * vendor)
  (l : list (price_row * vendor)) : list (price_row * vendor) :=
  match l with
  | [] => [a]
  | b :: l' => if order_leb a b then a :: l else b :: insert_sorted a l'
  end.

Definition order_by (l : list (price_row * vendor))
  : list (price_row * vendor) :=
  fold_right insert_sorted [] l.

(** The select list. *)
Definition to_quote (j : price_row * vendor) : quote :=
  let (dp, v) := j in
  Quote (dp_product_category dp) (dp_product_model dp)
        (dp_product_company dp) (dp_price dp) (dp_unit dp)
        (v_vendor_id v) (v_vendor_name v) (v_mobile v) (v_vendor_type v).

(** [get_minimum_prices_today]; the query reads the store and leaves it
    as it was. *)
Definition get_minimum_prices_today (today : Z) (d : db) : list quote * db :=
  (map to_quote (order_by (group_min (joined_rows today d))), d).

Definition quote_key (q : quote) : string * string * string :=
  (product_category q, product_model q, product_company q).

End DatabaseManager.

(* ================================================================== *)
(** ** [price_intelligence.py]: [AutomationEngine.process_whatsapp_messages] *)
(* ================================================================== *)

Module AutomationEngine.

Import DatabaseManager.

(** The body of the loop for one [*.txt] file, given the stem of its name
    ([YYYYMMDD_HHMM_+92xxxxxxxxxx]) and its content: the store afterwards
    and the number of prices inserted.  A stem with fewer than three
    parts and a sender that is not an active vendor are skipped. *)
Definition process_file (today : Z) (d : db) (stem content : string)
  : db * nat :=
  match nth_error (PyStr.split_on "_" stem) 2 with
  | None => (d, O)
  | Some whatsapp_number =>
      match get_vendor_by_whatsapp d whatsapp_number with
      | None => (d, O)
      | Some vendor =>
          let price_data := PriceExtractor.extract_from_text content in
          (fold_left
             (fun d' item =>
                insert_price today d' (v_vendor_id vendor)
                  (PriceExtractor.category item) (PriceExtractor.model item)
                  (PriceExtractor.price item) ""
                  (PriceExtractor.unit item) "whatsapp_text")
             price_data d,
           List.length price_data)
      end
  end.

(** [process_whatsapp_messages] over the files of the text directory. *)
Definition process_whatsapp_messages (today : Z) (d : db)
  (files : list (string * string)) : db * nat :=
  fold_left
    (fun acc file =>
       let '(d', processed_count) := acc in
       let '(d'', n) := process_file today d' (fst file) (snd file) in
       (d'', (processed_count + n)%nat))
    files (d, O).

End AutomationEngine.

(* ================================================================== *)
(** ** [production_utils.py]: [RetryConfig] and [retry_with_backoff]

    The wrapped function acts on a world [W] and either returns or raises;
    [time.sleep] acts on the world too.  The draw of
    [random.uniform(0.8, 1.2)] made after failed attempt [i] is the input
    [uniform i].  Delays are rationals. *)
(* ================================================================== *)

Module Retry.

Record RetryConfig : Type := MkRetryConfig {
  max_attempts : Z;
  initial_delay : Q;
  max_delay : Q;
  backoff_multiplier : Q;
  jitter : bool
}.

(** [RetryConfig()] *)
Definition default_config : RetryConfig := MkRetryConfig 3 1 60 2 true.

(** How a call of the wrapper ends. *)
Inductive outcome (A E : Type) : Type :=
| Returned (a : A)          (* the wrapped function returned *)
| Raised (e : E)            (* [raise last_exception] *)
| RaisedTypeError           (* [raise None]: the loop body never ran *)
| RaisedValueError          (* [time.sleep] refused a negative delay *)
| RaisedOverflowError.      (* [time.sleep] could not convert the delay *)

Arguments Returned {A E} a.
Arguments Raised {A E} e.
Arguments RaisedTypeError {A E}.
Arguments RaisedValueError {A E}.
Arguments RaisedOverflowError {A E}.

Definition Qlt_bool (x y : Q) : bool := negb (Qle_bool y x).

(** [time.sleep(d)] first converts [d] to a signed 64-bit count of
    nanoseconds, which fails with OverflowError beyond 2^63 ns (about
    9223372036.85 s) on either side, and then refuses a negative delay
    with ValueError.  Within two microseconds of the limit the result of
    the C conversion depends on the platform; [SLEEP_MAX], the whole
    seconds below the limit, is the bound the properties use for a delay
    that is certainly accepted. *)
Definition SLEEP_LIMIT : Q := 9223372036854775808 # 1000000000.
Definition SLEEP_MAX : Q := 9223372036.

Inductive sleep_result : Type :=
| Slept
| SleepValueError
| SleepOverflowError.

Definition time_sleep (d : Q) : sleep_result :=
  if Qlt_bool SLEEP_LIMIT d || Qlt_bool d (- SLEEP_LIMIT)
  then SleepOverflowError
  else if Qlt_bool d 0 then SleepValueError
  else Slept.

Section Wrapper.

Context {W A E : Type}.
Variable config : RetryConfig.
Variable uniform : Z -> Q.
Variable sleep : Q -> W -> W.
Variable func : W -> (A + E) * W.

(** The [for attempt in range(1, max_attempts + 1)] loop with
    [remaining] iterations to go, then [raise last_exception]. *)
Fixpoint attempts (remaining : nat) (attempt : Z) (delay : Q)
  (last_exception : option E) (w : W) {struct remaining}
  : outcome A E * W :=
  match remaining with
  | O =>
      (match last_exception with
       | Some e => Raised e
       | None => RaisedTypeError
       end, w)
  | S remaining' =>
      match func w with
      | (inl result, w1) => (Returned result, w1)
      | (inr e, w1) =>
          if (attempt <? max_attempts config)%Z then
            let jitter_factor :=
              if jitter config then uniform attempt else 1 in
            let actual_delay :=
              Qmin (delay * jitter_factor) (max_delay config) in
            match time_sleep actual_delay with
            | SleepOverflowError => (RaisedOverflowError, w1)
            | SleepValueError => (RaisedValueError, w1)
            | Slept =>
                attempts remaining' (attempt + 1)%Z
                         (delay * backoff_multiplier config) (Some e)
                         (sleep actual_delay w1)
            end
          else attempts remaining' (attempt + 1)%Z delay (Some e) w1
      end
  end.

(** The decorated function. *)
Definition wrapper (w : W) : outcome A E * W :=
  attempts (Z.to_nat (max_attempts config)) 1%Z (initial_delay config)
           None w.

End Wrapper.

(** [retry_with_backoff(config)(func)] is the wrapper. *)
Definition retry_with_backoff {W A E : Type} (config : RetryConfig)
  (uniform : Z -> Q) (sleep : Q -> W -> W) (func : W -> (A + E) * W)
  : W -> outcome A E * W :=
  wrapper config uniform sleep func.

(** A world that only counts invocations and records sleeps, and an
    operation that follows a script indexed by the invocation number. *)
Record probe : Type := Probe { invocations : nat; slept : list Q }.

Definition probe_sleep (d : Q) (w : probe) : probe :=
  Probe (invocations w) (slept w ++ [d]).

Definition scripted {A E : Type} (script : nat -> A + E) (w : probe)
  : (A + E) * probe :=
  (script (invocations w), Probe (S (invocations w)) (slept w)).

End Retry.

(* ================================================================== *)
(** ** [production_utils.py]: [CircuitBreaker]

    Clock readings are seconds as rationals.  [now_check] is the reading
    of [_should_attempt_reset], [now_fail] the one of [_on_failure]. *)
(* ================================================================== *)

Module CircuitBreaker.

Inductive CircuitBreakerState : Type := CLOSED | OPEN | HALF_OPEN.

Record breaker : Type := Breaker {
  failure_threshold : Z;
  recovery_timeout : Z;
  failure_count : Z;
  last_failure_time : option Q;
  state : CircuitBreakerState
}.

(** [CircuitBreaker(failure_threshold, recovery_timeout)] *)
Definition __init__ (failure_threshold recovery_timeout : Z) : breaker :=
  Breaker failure_threshold recovery_timeout 0 None CLOSED.

Definition is_open (s : CircuitBreakerState) : bool :=
  match s with OPEN => true | _ => false end.

Definition _on_success (cb : breaker) : breaker :=
  Breaker (failure_threshold cb) (recovery_timeout cb) 0
          (last_failure_time cb)
          (match state cb with HALF_OPEN => CLOSED | s => s end).

Definition _on_failure (cb : breaker) (now : Q) : breaker :=
  let count := (failure_count cb + 1)%Z in
  Breaker (failure_threshold cb) (recovery_timeout cb) count (Some now)
          (if (failure_threshold cb <=? count)%Z then OPEN else state cb).

Definition _should_attempt_reset (cb : breaker) (now : Q) : bool :=
  match last_failure_time cb with
  | None => false
  | Some t => Qle_bool (inject_Z (recovery_timeout cb)) (now - t)
  end.

(** How [call] ends. *)
Inductive result (A E : Type) : Type :=
| Ok (a : A)                (* the result of the wrapped function *)
| Rejected                  (* "Circuit breaker is OPEN. Service unavailable." *)
| Failed (e : E)            (* the exception of the function, re-raised *)
| FailedOpen (e : E).       (* "Service circuit breaker is open: ..." *)

Arguments Ok {A E} a.
Arguments Rejected {A E}.
Arguments Failed {A E} e.
Arguments FailedOpen {A E} e.

Section Call.

Context {W A E : Type}.
(** [isinstance(e, self.expected_exception)] *)
Variable expected_exception : E -> bool.

Definition call (cb : breaker) (now_check now_fail : Q)
  (func : W -> (A + E) * W) (w : W) : result A E * breaker * W :=
  let entry :=
    if is_open (state cb) then
      if _should_attempt_reset cb now_check
      then Some (Breaker (failure_threshold cb) (recovery_timeout cb)
                         (failure_count cb) (last_failure_time cb) HALF_OPEN)
      else None
    else Some cb in
  match entry with
  | None => (Rejected, cb, w)
  | Some cb1 =>
      match func w with
      | (inl r, w1) => (Ok r, _on_success cb1, w1)
      | (inr e, w1) =>
          if expected_exception e then
            let cb2 := _on_failure cb1 now_fail in
            if is_open (state cb2) then (FailedOpen e, cb2, w1)
            else (Failed e, cb2, w1)
          else (Failed e, cb1, w1)
      end
  end.

End Call.

End CircuitBreaker.

(* ================================================================== *)
(** ** [run_all.py]: [ProductionOrchestrator] and [main]

    The collaborators (vendor query, message collector, extraction engine,
    report writer, report sender) are an [environment]: what the n-th
    invocation of each stage body meets.  The [world] records which stage
    bodies ran, the report files of the output directory, the sleeps of
    the retry wrappers and the status of the execution context.
    [KeyboardInterrupt] is outside the model. *)
(* ================================================================== *)

Module Orchestrator.

Import Retry.

Inductive stage : Type := GetVendors | Collect | Extract | Report | Deliver.

Definition stage_eqb (a b : stage) : bool :=
  match a, b with
  | GetVendors, GetVendors | Collect, Collect | Extract, Extract
  | Report, Report | Deliver, Deliver => true
  | _, _ => false
  end.

(** [daily_summary_<date>.txt] and [detailed_report_<date>.txt] *)
Inductive file : Type := Summary (date : Z) | Detailed (date : Z).

Definition file_eqb (a b : file) : bool :=
  match a, b with
  | Summary x, Summary y | Detailed x, Detailed y => Z.eqb x y
  | _, _ => false
  end.

Definition is_summary (f : file) : bool :=
  match f with Summary _ => true | Detailed _ => false end.

Inductive exn : Type :=
| StageError (s : stage)        (* a collaborator raised *)
| FileNotFoundError (f : file)
| RuntimeError.                 (* "Report send operation returned False" *)

(** What a call of [engine.generate_daily_report()] does to the output
    directory: it writes the summary, then the detailed report. *)
Inductive report_run : Type :=
| WritesBoth                    (* returns both paths *)
| WritesNothing                 (* raises before the first write *)
| WritesSummaryOnly.            (* raises between the two writes *)

Record environment : Type := Env {
  today : Z;
  uniform : Z -> Q;
  constructs : bool;            (* [ProductionOrchestrator()] returns *)
  vendors_load : bool;          (* [get_vendor_numbers] returns *)
  collect : nat -> bool;        (* [collect_daily_messages] returns *)
  extract : nat -> bool;        (* [process_whatsapp_messages] returns *)
  report : nat -> report_run;
  deliver : nat -> bool         (* [send_daily_report] returns True *)
}.

Record world : Type := World {
  invoked : list stage;
  output_dir : list file;
  slept : list Q;
  status : string               (* [execution_context.status] *)
}.

Definition initial_world (files : list file) : world :=
  World [] files [] "RUNNING".

Definition runs (s : stage) (w : world) : nat :=
  List.length (filter (stage_eqb s) (invoked w)).

Definition enter (s : stage) (w : world) : world :=
  World (invoked w ++ [s]) (output_dir w) (slept w) (status w).

Definition write (f : file) (w : world) : world :=
  World (invoked w) (output_dir w ++ [f]) (slept w) (status w).

Definition exists_ (f : file) (w : world) : bool :=
  existsb (file_eqb f) (output_dir w).

Definition sleep (d : Q) (w : world) : world :=
  World (invoked w) (output_dir w) (slept w ++ [d]) (status w).

Section Stages.

Variable env : environment.

Definition get_vendor_numbers (w : world) : (unit + exn) * world :=
  let w1 := enter GetVendors w in
  if vendors_load env then (inl tt, w1) else (inr (StageError GetVendors), w1).

(** The bodies of the four decorated methods. *)
Definition step1_body (w : world) : (bool + exn) * world :=
  let n := runs Collect w in
  let w1 := enter Collect w in
  if collect env n then (inl true, w1) else (inr (StageError Collect), w1).

Definition step2_body (w : world) : (bool + exn) * world :=
  let n := runs Extract w in
  let w1 := enter Extract w in
  if extract env n then (inl true, w1) else (inr (StageError Extract), w1).

(** [step3_generate_reports] catches what the engine raises and returns
    [(False, None, None)]. *)
Definition step3_body (w : world)
  : (bool * option file * option file + exn) * world :=
  let n := runs Report w in
  let w1 := enter Report w in
  match report env n with
  | WritesBoth =>
      (inl (true, Some (Summary (today env)), Some (Detailed (today env))),
       write (Detailed (today env)) (write (Summary (today env)) w1))
  | WritesSummaryOnly =>
      (inl (false, None, None), write (Summary (today env)) w1)
  | WritesNothing => (inl (false, None, None), w1)
  end.

Definition step4_body (summary_path detailed_path : file) (w : world)
  : (bool + exn) * world :=
  let n := runs Deliver w in
  let w1 := enter Deliver w in
  if negb (exists_ summary_path w1)
  then (inr (FileNotFoundError summary_path), w1)
  else if negb (exists_ detailed_path w1)
  then (inr (FileNotFoundError detailed_path), w1)
  else if deliver env n then (inl true, w1) else (inr RuntimeError, w1).

(** The decorators. *)
Definition retry_3_5 : RetryConfig := MkRetryConfig 3 5 60 2 true.
Definition retry_2_3 : RetryConfig := MkRetryConfig 2 3 60 2 true.

Definition step1_collect_messages :=
  retry_with_backoff retry_3_5 (uniform env) sleep step1_body.
Definition step2_process_data :=
  retry_with_backoff retry_2_3 (uniform env) sleep step2_body.
Definition step3_generate_reports :=
  retry_with_backoff retry_2_3 (uniform env) sleep step3_body.
Definition step4_send_to_ceo (summary_path detailed_path : file) :=
  retry_with_backoff retry_3_5 (uniform env) sleep
    (step4_body summary_path detailed_path).

(** The [try] block of [run]: [workflow_success] and the world when the
    block is left, normally or through the outer [except]. *)
Definition workflow (w : world) : bool * world :=
  match get_vendor_numbers w with
  | (inr _, w0) => (false, w0)
  | (inl _, w0) =>
      let w1 := snd (step1_collect_messages w0) in
      match step2_process_data w1 with
      | (Returned process_success, w2) =>
          match step3_generate_reports w2 with
          | (Returned (report_success, summary_path, detailed_path), w3) =>
              let w4 :=
                match summary_path, detailed_path with
                | Some s, Some d => snd (step4_send_to_ceo s d w3)
                | _, _ => w3
                end in
              (process_success && report_success, w4)
          | (_, w3) => (false, w3)
          end
      | (_, w2) => (false, w2)
      end
  end.

(** [_generate_final_report]: [mark_complete]. *)
Definition _generate_final_report (success : bool) (w : world) : world :=
  World (invoked w) (output_dir w) (slept w)
        (if success then "SUCCESS" else "FAILURE").

Definition run (w : world) : bool * world :=
  let (workflow_success, w1) := workflow w in
  (workflow_success, _generate_final_report workflow_success w1).

(** [main]: the exit code. *)
Definition main (w : world) : Z * world :=
  if constructs env then
    let (success, w1) := run w in
    (if success then 0%Z
     else if existsb is_summary (output_dir w1) then 1%Z else 2%Z, w1)
  else (2%Z, w).

End Stages.

(** The meaning of the exit codes, from the docstring of [main]. *)
Definition exit_meaning (code : Z) : string :=
  if Z.eqb code 0 then "SUCCESS"
  else if Z.eqb code 1 then "PARTIAL"
  else if Z.eqb code 2 then "CRITICAL FAILURE"
  else "INTERRUPTED".

End Orchestrator.

(* ================================================================== *)
(** ** Python numbers: [int(x)] and the format [{n:,}] *)
(* ================================================================== *)

Module PyNum.

(** [int(x)] on a finite float: truncation toward zero. *)
Definition py_int (x : Q) : Z := Z.quot (Qnum x) (Z.pos (Qden x)).

(** An int that [float] holds exactly: in [int - float] Python converts
    the int to a float, which rounds beyond 2^53. *)
Definition exact_as_float (n : Z) : Prop := (Z.abs n <= 2 ^ 53)%Z.

(** The finite doubles end below 2^1024, and [float] rounds a numeral at
    or beyond 2^1024 - 2^970 to infinity.  The embedding keeps the
    rational of such a numeral ([PriceExtractor.py_float] is exact) and
    [is_inf] tells that the Python value is [inf] or [-inf]. *)
Definition FLOAT_INF : Q := inject_Z (2 ^ 1024 - 2 ^ 970).

Definition is_inf (x : Q) : bool :=
  Qle_bool FLOAT_INF x || Qle_bool x (- FLOAT_INF).

(** [int(x)] on a float: OverflowError ([None]) on an infinity. *)
Definition int_of_float (x : Q) : option Z :=
  if is_inf x then None else Some (py_int x).

(** The decimal digits of a natural number, least significant first. *)
Fixpoint digits_rev (fuel : nat) (n : N) : list ascii :=
  match fuel with
  | O => []
  | S fuel' =>
      ascii_of_N (48 + N.modulo n 10) ::
      (if N.ltb n 10 then [] else digits_rev fuel' (N.div n 10))
  end.

(** A comma after every third digit, counted from the right. *)
Fixpoint group3 (ds : list ascii) : list ascii :=
  match ds with
  | a :: b :: c :: (_ :: _) as rest => a :: b :: c :: "," %char :: group3 rest
  | _ => ds
  end.

(** [f"{n:,}"] *)
Definition format_thousands (n : Z) : string :=
  let body :=
    string_of_list_ascii
      (rev (group3 (digits_rev (S (N.to_nat (N.log2 (Z.abs_N n))))
                               (Z.abs_N n)))) in
  if (n <? 0)%Z then String "-" body else body.

End PyNum.

(* ================================================================== *)
(** ** [production_utils.py]: [CircuitBreaker._time_until_retry] *)
(* ================================================================== *)

Module CircuitBreakerClock.

Import CircuitBreaker.

(** [_time_until_retry]; the subtraction is exact here and rounded to
    a float in the code, which keeps the order of the values when
    [recovery_timeout] is [PyNum.exact_as_float]. *)
Definition _time_until_retry (cb : breaker) (now : Q) : Z :=
  match last_failure_time cb with
  | None => recovery_timeout cb
  | Some t =>
      Z.max 0 (PyNum.py_int (inject_Z (recovery_timeout cb) - (now - t)))
  end.

End CircuitBreakerClock.

(* ================================================================== *)
(** ** [price_intelligence.py]: [DatabaseManager.get_vendor_by_name_fuzzy] *)
(* ================================================================== *)

Module DatabaseManagerLookup.

Import DatabaseManager.

(** [get_vendor_by_name_fuzzy]: the first active vendor, in rowid order,
    whose lower-cased name contains the lower-cased query or is contained
    in it. *)
Definition get_vendor_by_name_fuzzy (d : db) (name : string)
  : option vendor :=
  let name_lower := PyStr.lower name in
  find (fun row =>
          let vendor_name := PyStr.lower (v_vendor_name row) in
          PyStr.contains name_lower vendor_name ||
          PyStr.contains vendor_name name_lower)
       (filter (fun row => String.eqb (v_status row) "active") (vendors d)).

End DatabaseManagerLookup.

(* ================================================================== *)
(** ** [price_intelligence.py]: [ReportGenerator.generate_whatsapp_summary]

    The text is the UTF-8 encoding of the Python string; the formatted
    date of the day is an input. *)
(* ================================================================== *)

Module ReportGenerator.

Import DatabaseManager.

(** The decorations of the message: U+1F506, U+1F4C5, U+274C, U+1F4CE and
    the en dash U+2013. *)
Definition utf8 (bytes : list nat) : string :=
  string_of_list_ascii (map ascii_of_nat bytes).

Definition SUN : string := utf8 [240; 159; 148; 134]%nat.
Definition CALENDAR : string := utf8 [240; 159; 147; 133]%nat.
Definition CROSS : string := utf8 [226; 157; 140]%nat.
Definition CLIP : string := utf8 [240; 159; 147; 142]%nat.
Definition DASH : string := utf8 [226; 128; 147]%nat.
Definition NL : string := String (ascii_of_nat 10) EmptyString.

(** [by_category[cat].append(item)], creating the entry when [cat] is
    new; a dict keeps its keys in insertion order. *)
Fixpoint by_category_add (item : quote)
  (by_category : list (string * list quote)) : list (string * list quote) :=
  match by_category with
  | [] => [(product_category item, [item])]
  | (cat, items) :: rest =>
      if String.eqb cat (product_category item)
      then (cat, (items ++ [item])%list) :: rest
      else (cat, items) :: by_category_add item rest
  end.

(** The loop "Group by category". *)
Definition group_by_category (min_prices : list quote)
  : list (string * list quote) :=
  fold_left (fun by_category item => by_category_add item by_category)
            min_prices [].

(** What leaves [generate_whatsapp_summary] as an exception:
    [int(item['min_price'])] on an infinite price. *)
Inductive error : Type := OverflowError.

(** The three lines of a category. *)
Definition category_text (category : string) (item : quote) (price : Z)
  : string :=
  let model_str :=
    if String.eqb (product_company item) EmptyString
    then product_model item
    else (product_company item ++ " " ++ product_model item)%string in
  (category ++ ":" ++ NL ++
   "Rs " ++ PyNum.format_thousands price ++ " " ++ DASH ++ " " ++
   vendor_name item ++ NL ++
   "(" ++ model_str ++ ")" ++ NL ++ NL)%string.

(** The body of the loop "Format each category": the lines of the
    first item of the category, added to the summary. *)
Definition category_block (summary : string) (entry : string * list quote)
  : string + error :=
  match snd entry with
  | [] => inl summary
  | item :: _ =>
      match PyNum.int_of_float (min_price item) with
      | None => inr OverflowError
      | Some price =>
          inl (summary ++ category_text (fst entry) item price)%string
      end
  end.

(** The loop over [by_category.items()]; an exception ends it. *)
Fixpoint category_blocks (summary : string)
  (by_category : list (string * list quote)) : string + error :=
  match by_category with
  | [] => inl summary
  | entry :: rest =>
      match category_block summary entry with
      | inl summary' => category_blocks summary' rest
      | inr e => inr e
      end
  end.

Definition header (today : string) : string :=
  (SUN ++ " Electro Tech " ++ DASH ++ " Daily Market Report" ++ NL ++
   CALENDAR ++ " " ++ today ++ NL ++ NL)%string.

(** [generate_whatsapp_summary] *)
Definition generate_whatsapp_summary (today : string)
  (min_prices : list quote) : string + error :=
  match min_prices with
  | [] =>
      inl (header today ++ CROSS ++ " No price data received today." ++ NL)%string
  | _ :: _ =>
      match category_blocks (header today) (group_by_category min_prices) with
      | inl summary =>
          inl (summary ++ CLIP ++ " Detailed PDF attached" ++ NL)%string
      | inr e => inr e
      end
  end.

End ReportGenerator.

(* ================================================================== *)
(** ** [production_utils.py]: [DataValidator]

    Phone numbers and texts are strings of code points below 128. *)
(* ================================================================== *)

Module DataValidator.

(** The class [[^\d+]] negated: what [re.sub(r"[^\d+]", "", phone)]
    keeps. *)
Definition phone_char (c : ascii) : bool :=
  PyStr.is_digit c || Ascii.eqb c "+".

(** [re.sub(r"[^\d+]", "", phone)] *)
Definition clean (phone : string) : string :=
  PyStr.filter_chars phone_char phone.

(** [[-\s]] *)
Definition separator : Re.regex :=
  Re.Cls (fun c => Ascii.eqb c "-" || PyStr.is_space c).

(** [PHONE_PATTERN = r"^\+?92[-\s]?3\d{2}[-\s]?\d{7}$"], without its
    anchors. *)
Definition PHONE_PATTERN : Re.regex :=
  Re.Cat (Re.Opt (Re.Lit "+"))
 (Re.Cat (Re.Lit "9")
 (Re.Cat (Re.Lit "2")
 (Re.Cat (Re.Opt separator)
 (Re.Cat (Re.Lit "3")
 (Re.Cat (Re.Rep 2 Re.digit)
 (Re.Cat (Re.Opt separator)
         (Re.Rep 7 Re.digit))))))).

(** [$]: the end of the string, or the line feed that ends it. *)
Definition at_end (st : Re.mstate) : option Re.mstate :=
  match Re.rest st with
  | EmptyString => Some st
  | String c EmptyString =>
      if Ascii.eqb c (ascii_of_nat 10) then Some st else None
  | _ => None
  end.

(** [bool(re.match(pattern, s))] for a pattern that ends in [$]; the
    leading [^] adds nothing to [re.match]. *)
Definition re_match_to_end (pattern : Re.regex) (s : string) : bool :=
  match Re.run pattern (Re.MState s None) at_end with
  | Some _ => true
  | None => false
  end.

(** [validate_phone_number] *)
Definition validate_phone_number (phone : string) : bool :=
  if String.eqb phone EmptyString then false
  else re_match_to_end PHONE_PATTERN (clean phone).

(** [s[1:]] *)
Definition tail (s : string) : string :=
  match s with
  | EmptyString => EmptyString
  | String _ s' => s'
  end.

(** [normalize_phone_number]; [None] is Python's [None]. *)
Definition normalize_phone_number (phone : string) : option string :=
  if String.eqb phone EmptyString then None
  else
    let cleaned := clean phone in
    Some (if String.prefix "+" cleaned then cleaned
          else if String.prefix "0" cleaned then ("+92" ++ tail cleaned)%string
          else if String.prefix "92" cleaned then ("+" ++ cleaned)%string
          else ("+92" ++ cleaned)%string).

(** [text[:n]], also for a negative [n], which counts from the end. *)
Definition slice_to (n : Z) (s : string) : string :=
  if (0 <=? n)%Z then PyStr.take (Z.to_nat n) s
  else PyStr.take (String.length s - Z.to_nat (- n)) s.

(** [s.lstrip()] *)
Fixpoint lstrip (s : string) : string :=
  match s with
  | EmptyString => EmptyString
  | String c s' => if PyStr.is_space c then lstrip s' else s
  end.

(** [s.rstrip()] *)
Fixpoint rstrip (s : string) : string :=
  match s with
  | EmptyString => EmptyString
  | String c s' =>
      match rstrip s' with
      | EmptyString => if PyStr.is_space c then EmptyString
                       else String c EmptyString
      | t => String c t
      end
  end.

(** [s.strip()] *)
Definition strip (s : string) : string := rstrip (lstrip s).

(** [sanitize_text]; [text.replace("\x00", "")] keeps every other
    character. *)
Definition sanitize_text (text : string) (max_length : Z) : string :=
  if String.eqb text EmptyString then EmptyString
  else
    let text := PyStr.filter_chars
                  (fun c => negb (Ascii.eqb c (ascii_of_nat 0))) text in
    let text := slice_to max_length text in
    strip text.

End DataValidator.

(* ================================================================== *)
(** ** [production_utils.py]: [HealthCheck]

    What a check function does when it is called is an input; the clock
    reading of a run is an input too. *)
(* ================================================================== *)

Module HealthCheck.

(** The result of calling a check function: a true value, a false value
    or an exception with its message. *)
Inductive check_run : Type :=
| Truthy
| Falsy
| Raises (error : string).

(** The entry of a check; [last_result] and [last_run] are written once
    as [None] and never read. *)
Record check_data : Type := CheckData {
  func : check_run;
  critical : bool
}.

(** [d[key] = value] on a dict, which keeps its keys in insertion
    order. *)
Fixpoint dict_set {V : Type} (key : string) (value : V)
  (d : list (string * V)) : list (string * V) :=
  match d with
  | [] => [(key, value)]
  | (k, v) :: rest =>
      if String.eqb k key then (k, value) :: rest
      else (k, v) :: dict_set key value rest
  end.

Record health : Type := Health {
  checks : list (string * check_data);
  last_check_time : option Q
}.

Definition __init__ : health := Health [] None.

Definition register_check (name : string) (check_func : check_run)
  (is_critical : bool) (self : health) : health :=
  Health (dict_set name (CheckData check_func is_critical) (checks self))
         (last_check_time self).

Inductive check_status : Type := PASS | FAIL | ERROR.

Record check_result : Type := CheckResult {
  status : check_status;
  error : option string;
  result_critical : bool
}.

Record results : Type := Results {
  timestamp : Q;
  results_checks : list (string * check_result);
  overall_status : string
}.

(** One iteration of the loop of [run_all_checks]. *)
Definition run_check (res : results) (item : string * check_data)
  : results :=
  let (check_name, data) := item in
  match func data with
  | Truthy =>
      Results (timestamp res)
        (dict_set check_name (CheckResult PASS None (critical data))
                  (results_checks res))
        (overall_status res)
  | Falsy =>
      Results (timestamp res)
        (dict_set check_name (CheckResult FAIL None (critical data))
                  (results_checks res))
        (if critical data then "CRITICAL" else overall_status res)
  | Raises e =>
      Results (timestamp res)
        (dict_set check_name (CheckResult ERROR (Some e) (critical data))
                  (results_checks res))
        (if critical data then "CRITICAL" else overall_status res)
  end.

Definition run_all_checks (now : Q) (self : health) : results * health :=
  (fold_left run_check (checks self) (Results now [] "HEALTHY"),
   Health (checks self) (Some now)).

Definition is_healthy (now : Q) (self : health) : bool * health :=
  let (res, self') := run_all_checks now self in
  (negb (String.eqb (overall_status res) "CRITICAL"), self').

End HealthCheck.

(* ================================================================== *)
(** * Vocabulary of the properties and sample inputs *)
(* ================================================================== *)

Local Open Scope list_scope.

(** ** For extraction *)

Module ExtractionSpec.

Import PriceExtractor.

(** The test message of [price_intelligence.py --test] and of the
    specification. *)
Definition growatt_message : string :=
  "Inverter Growatt 5KW Price: Rs 65,000 per piece".

Definition growatt_candidate : candidate :=
  Candidate "Inverter" "Growatt" 65000 "per piece" growatt_message.

(** Every match of every pattern, cleaned, in pattern order. *)
Definition all_prices (text : string) : list Q :=
  flat_map
    (fun pattern => map _clean_price (Re.findall pattern (PyStr.lower text)))
    PRICE_PATTERNS.

End ExtractionSpec.

(** ** For writes to the store *)

Module StoreWriteSpec.

Import DatabaseManager.

(** [vendor_id] names a row of [vendors]. *)
Definition known_vendor (d : db) (vendor_id : string) : Prop :=
  exists v, In v (vendors d) /\ v_vendor_id v = vendor_id.

(** [vendor_id] names a row of [vendors] whose status is 'active'. *)
Definition active_vendor (d : db) (vendor_id : string) : bool :=
  existsb (fun v => String.eqb (v_vendor_id v) vendor_id &&
                    String.eqb (v_status v) "active")
          (vendors d).

(** What the pipeline guarantees of a row it appends. *)
Definition pipeline_row (today : Z) (d : db) (r : price_row) : Prop :=
  dp_date r = today /\ 0 <= dp_price r /\
  active_vendor d (dp_vendor_id r) = true.

(** A store with one vendor that has been deactivated. *)
Definition retired_db : db :=
  Db [Vendor "VND009" "Old Traders" "0300-0000000" (Some "+923000000000")
             "Trader" "inactive"] [].

(** A store with one active vendor. *)
Definition sample_db : db :=
  Db [Vendor "VND001" "ABC Solar Traders" "0300-1234567"
             (Some "+923001234567") "Importer" "active"] [].

End StoreWriteSpec.

(** ** For the minimum-price query *)

Module StoreReadSpec.

Import DatabaseManager.

(** A pair of the join: a price row of the day with a [vendors] row of
    the same vendor_id. *)
Definition in_scope (today : Z) (d : db) (j : price_row * vendor) : Prop :=
  In (fst j) (daily_prices d) /\ dp_date (fst j) = today /\
  In (snd j) (vendors d) /\ v_vendor_id (snd j) = dp_vendor_id (fst j).

(** The order of the result: category, then price. *)
Definition quote_le (a b : quote) : Prop :=
  match String.compare (product_category a) (product_category b) with
  | Lt => True
  | Gt => False
  | Eq => min_price a <= min_price b
  end.

Definition row_key (r : price_row) : string * string * string :=
  (dp_product_category r, dp_product_model r, dp_product_company r).

(** The groups after a scan of [seen]: one entry per key, each entry a
    scanned row that no scanned row of its key undercuts. *)
Record groups_of (seen : price_row * vendor -> Prop)
  (gs : list (price_row * vendor)) : Prop := GroupsOf {
  groups_nodup : NoDup (map group_key gs);
  groups_minimal :
    forall g, In g gs ->
      seen g /\
      forall j, seen j -> group_key j = group_key g ->
                price_of g <= price_of j;
  groups_cover :
    forall j, seen j -> In (group_key j) (map group_key gs)
}.

Definition result (today : Z) (d : db) : list quote :=
  fst (get_minimum_prices_today today d).

(** A store in which the cheapest row of a group names a vendor that has
    no [vendors] row. *)
Definition ghost_row : price_row :=
  PriceRow 20261103 "GHOST" "Inverter" "Growatt" "" 100 "per piece"
           "whatsapp_text".

Definition ghost_db : db :=
  Db [Vendor "VND001" "ABC Solar Traders" "0300-1234567"
             (Some "+923001234567") "Importer" "active"]
     [ghost_row;
      PriceRow 20261103 "VND001" "Inverter" "Growatt" "" 200 "per piece"
               "whatsapp_text"].

(** A store in which the cheapest row of a group comes from a vendor whose
    status is 'inactive'. *)
Definition inactive_db : db :=
  Db [Vendor "VND001" "ABC Solar Traders" "0300-1234567"
             (Some "+923001234567") "Importer" "active";
      Vendor "VND009" "Old Traders" "0300-0000000"
             (Some "+923000000000") "Trader" "inactive"]
     [PriceRow 20261103 "VND001" "Inverter" "Growatt" "" 200 "per piece"
               "whatsapp_text";
      PriceRow 20261103 "VND009" "Inverter" "Growatt" "" 150 "per piece"
               "whatsapp_text"].

End StoreReadSpec.

(** ** For retry with backoff *)

Module RetrySpec.

Import Retry.

(** The factor applied to the delay after failed attempt [i]. *)
Definition jitter_factor (config : RetryConfig) (uniform : Z -> Q) (i : Z)
  : Q :=
  if jitter config then uniform i else 1.

(** [random.uniform(0.8, 1.2)] stays in its interval. *)
Definition in_jitter_range (uniform : Z -> Q) : Prop :=
  forall i, 8 # 10 <= uniform i /\ uniform i <= 12 # 10.

(** A configuration whose first delay is cut by [max_delay]:
    [RetryConfig(max_attempts=3, initial_delay=100)]. *)
Definition capped_config : RetryConfig := MkRetryConfig 3 100 60 2 true.

(** An operation that raises twice and then returns 7. *)
Definition twice_failing (n : nat) : nat + string :=
  match n with
  | O => inr "first"
  | S O => inr "second"
  | _ => inl 7%nat
  end.

End RetrySpec.

(** ** For the circuit breaker *)

Module BreakerSpec.

Import CircuitBreaker.

(** An operation on a counter of its own invocations. *)
Definition counted_failure (n : nat) : (nat + string) * nat :=
  (inr "down", S n).

Definition counted_success (n : nat) : (nat + string) * nat :=
  (inl n, S n).

End BreakerSpec.

(** ** For the orchestrator *)

Module OrchestratorSpec.

Import Retry Orchestrator.

(** Environments for the failure scenarios; the day is 2026-11-03 and the
    jitter draws are 1. *)
Definition collect_down : environment :=
  Env 20261103 (fun _ => 1) true true (fun _ => false) (fun _ => true)
      (fun _ => WritesBoth) (fun _ => true).

Definition extract_down : environment :=
  Env 20261103 (fun _ => 1) true true (fun _ => true) (fun _ => false)
      (fun _ => WritesBoth) (fun _ => true).

Definition report_down : environment :=
  Env 20261103 (fun _ => 1) true true (fun _ => true) (fun _ => true)
      (fun _ => WritesNothing) (fun _ => true).

(** The report files of the day before. *)
Definition yesterday : list file := [Summary 20261102; Detailed 20261102].

(** Nothing is removed from the log or from the output directory. *)
Definition grows (w w' : world) : Prop :=
  incl (invoked w) (invoked w') /\ incl (output_dir w) (output_dir w').

(** Only the stages before the report ran, and no file was written. *)
Definition early_only (w w' : world) : Prop :=
  output_dir w' = output_dir w /\
  forall s, In s (invoked w') ->
            In s (invoked w) \/ s = GetVendors \/ s = Collect \/ s = Extract.

End OrchestratorSpec.

(** ** For the retry loop in general *)

Module RetryLoopSpec.

Import Retry.

(** Delays that [time.sleep] accepts: none of the three is negative and
    [max_delay], which caps every sleep, is within its range. *)
Definition accepted_delays (config : RetryConfig) : Prop :=
  0 <= initial_delay config /\ 0 <= backoff_multiplier config /\
  0 <= max_delay config /\ max_delay config <= SLEEP_MAX.

(** A sleep the configuration allows. *)
Definition allowed_sleep (config : RetryConfig) (d : Q) : Prop :=
  0 <= d /\ d <= max_delay config.

(** An operation that always raises. *)
Definition always_failing (n : nat) : nat + string := inr "down".

(** [RetryConfig(max_attempts=0)] and [RetryConfig(initial_delay=-1)]. *)
Definition zero_attempts : RetryConfig := MkRetryConfig 0 1 60 2 true.
Definition negative_delay : RetryConfig := MkRetryConfig 3 (-1) 60 2 true.

End RetryLoopSpec.

(** ** For sequences of calls through a breaker *)

Module BreakerRunSpec.

Import CircuitBreaker.

Section Drive.

Context {W A E : Type}.
Variable expected_exception : E -> bool.

(** One call: the two clock readings and the operation. *)
Definition request : Type := Q * Q * (W -> (A + E) * W).

(** The breaker and the world after a sequence of calls. *)
Fixpoint drive (cb : breaker) (calls : list request) (w : W) : breaker * W :=
  match calls with
  | [] => (cb, w)
  | (now_check, now_fail, op) :: rest =>
      let '(_, cb1, w1) :=
        call expected_exception cb now_check now_fail op w in
      drive cb1 rest w1
  end.

(** A request whose operation raises an expected exception in any world. *)
Definition fails (rq : request) : Prop :=
  forall w, exists e w1, snd rq w = (inr e, w1) /\ expected_exception e = true.

End Drive.

(** What every reachable breaker satisfies. *)
Definition consistent (threshold timeout : Z) (cb : breaker) : Prop :=
  failure_threshold cb = threshold /\ recovery_timeout cb = timeout /\
  (0 <= failure_count cb)%Z /\
  (state cb <> CLOSED ->
   (threshold <= failure_count cb)%Z /\ last_failure_time cb <> None).

(** A request on a counter that always fails, at second [t]. *)
Definition down_at (t : Q) : @request nat nat string :=
  (t, t, fun n => (inr "down", S n)).

(** A breaker of threshold 2 that opened at second 1. *)
Definition tripped : breaker := Breaker 2 60 2 (Some 1) OPEN.

End BreakerRunSpec.

(** ** For inserts followed by the query *)

Module StoreInsertSpec.

Import DatabaseManager.

(** The active rows of [vendors], in rowid order. *)
Definition active_vendors (d : db) : list vendor :=
  filter (fun row => String.eqb (v_status row) "active") (vendors d).

(** A store with a quote of 200 by VND001 and a second vendor. *)
Definition two_vendor_db : db :=
  Db [Vendor "VND001" "ABC Solar Traders" "0300-1234567"
             (Some "+923001234567") "Importer" "active";
      Vendor "VND002" "XYZ Energy Hub" "0321-9876543"
             (Some "+923219876543") "Trader" "active"]
     [PriceRow 20261103 "VND001" "Inverter" "Growatt" "" 200 "per piece"
               "whatsapp_text"].

End StoreInsertSpec.

(** ** The domain of the text model *)

Module TextSpec.

(** A text of the embedding's domain: every character is ASCII.  Outside
    it Python's digit and space classes, [float] and [lower] know more
    characters than the embedding. *)
Definition is_ascii (c : ascii) : bool := (nat_of_ascii c <? 128)%nat.

Fixpoint ascii_text (s : string) : bool :=
  match s with
  | EmptyString => true
  | String c s' => is_ascii c && ascii_text s'
  end.

End TextSpec.

(** ** For texts without numerals *)

Module ExtractionEdgeSpec.

Import Re.

(** No character of the string is a digit. *)
Fixpoint no_digits (s : string) : bool :=
  match s with
  | EmptyString => true
  | String c s' => negb (PyStr.is_digit c) && no_digits s'
  end.

(** Every match of the pattern consumes at least one digit. *)
Inductive demands_digit : regex -> Prop :=
| DemandsCls (p : ascii -> bool) :
    (forall c, p c = true -> PyStr.is_digit c = true) ->
    demands_digit (Cls p)
| DemandsCatL (r1 r2 : regex) : demands_digit r1 -> demands_digit (Cat r1 r2)
| DemandsCatR (r1 r2 : regex) : demands_digit r2 -> demands_digit (Cat r1 r2)
| DemandsAlt (r1 r2 : regex) :
    demands_digit r1 -> demands_digit r2 -> demands_digit (Alt r1 r2)
| DemandsRep (n : nat) (r : regex) :
    demands_digit r -> demands_digit (Rep (S n) r)
| DemandsGrp (r : regex) : demands_digit r -> demands_digit (Grp r).

(** The characters [_clean_price] keeps. *)
Definition kept (c : ascii) : bool := PyStr.is_digit c || Ascii.eqb c ".".

End ExtractionEdgeSpec.

(** ** For the daily summary *)

Module ReportSpec.

Import DatabaseManager ReportGenerator.

(** The item the summary shows for a category: the first of its list. *)
Definition shown (min_prices : list quote) : list (string * quote) :=
  flat_map (fun entry =>
              match snd entry with
              | [] => []
              | item :: _ => [(fst entry, item)]
              end)
           (group_by_category min_prices).

(** The list kept under a category, empty when the category is absent. *)
Fixpoint lookup (cat : string) (bc : list (string * list quote))
  : list quote :=
  match bc with
  | [] => []
  | (c, items) :: rest => if String.eqb c cat then items else lookup cat rest
  end.

(** The text when no price is known. *)
Definition no_data (today : string) : string :=
  (header today ++ CROSS ++ " No price data received today." ++ NL)%string.

(** The quotes of a category, in the order of the list. *)
Definition of_category (cat : string) (l : list quote) : list quote :=
  filter (fun q => String.eqb cat (product_category q)) l.

(** The lines of a shown item whose price is finite. *)
Definition block_text (p : string * quote) : string :=
  category_text (fst p) (snd p) (PyNum.py_int (min_price (snd p))).

(** The summary with the blocks of the shown items. *)
Definition summary_text (today : string) (min_prices : list quote)
  : string :=
  (header today ++
   String.concat EmptyString (map block_text (shown min_prices)) ++
   CLIP ++ " Detailed PDF attached" ++ NL)%string.

(** Every stored price is a finite float. *)
Definition finite_prices (d : db) : bool :=
  forallb (fun r => negb (PyNum.is_inf (dp_price r))) (daily_prices d).

(** Every price of the message is a finite float. *)
Definition finite_candidates (content : string) : bool :=
  forallb (fun c => negb (PyNum.is_inf (PriceExtractor.price c)))
          (PriceExtractor.extract_from_text content).

(** A store with a price that no double holds: [float] of a 1 followed
    by 309 zeros is [inf]. *)
Definition overflowing_db : db :=
  Db [Vendor "VND001" "ABC Solar Traders" "0300-1234567"
             (Some "+923001234567") "Importer" "active"]
     [PriceRow 20261103 "VND001" "Battery" "Standard" ""
               (inject_Z (10 ^ 309)) "per piece" "whatsapp_text"].

End ReportSpec.

(** ** For the validator *)

Module ValidatorSpec.

Import DataValidator.

(** Every character of the string satisfies [p]. *)
Fixpoint all_chars (p : ascii -> bool) (s : string) : bool :=
  match s with
  | EmptyString => true
  | String c s' => p c && all_chars p s'
  end.

(** A subscriber number: nine digits. *)
Definition subscriber (d : string) : Prop :=
  String.length d = 9%nat /\ all_chars PyStr.is_digit d = true.

(** The pattern after the optional plus sign, 
    [PHONE_PATTERN] is [\+?] followed by it. *)
Definition national : Re.regex :=
  Re.Cat (Re.Lit "9")
 (Re.Cat (Re.Lit "2")
 (Re.Cat (Re.Opt separator)
 (Re.Cat (Re.Lit "3")
 (Re.Cat (Re.Rep 2 Re.digit)
 (Re.Cat (Re.Opt separator)
         (Re.Rep 7 Re.digit)))))).

Definition NUL : ascii := ascii_of_nat 0.

(** The first and the last character, when there is one. *)
Definition first_char (s : string) : option ascii :=
  match s with
  | EmptyString => None
  | String c _ => Some c
  end.

Fixpoint last_char (s : string) : option ascii :=
  match s with
  | EmptyString => None
  | String c EmptyString => Some c
  | String _ s' => last_char s'
  end.

Definition not_space (c : option ascii) : Prop :=
  match c with
  | None => True
  | Some c => PyStr.is_space c = false
  end.

End ValidatorSpec.

(** ** For the health checks *)

Module HealthSpec.

Import HealthCheck.

(** A call of [register_check]: name, check function, critical flag. *)
Definition registration : Type := (string * check_run * bool)%type.

Definition name_of (r : registration) : string := fst (fst r).

(** The monitor after the registrations, in order. *)
Definition registered (regs : list registration) : health :=
  fold_left (fun self r => register_check (fst (fst r)) (snd (fst r)) (snd r)
                                          self)
            regs __init__.

(** The registration that counts for its name: the last one. *)
Definition in_force (regs : list registration) (r : registration) : Prop :=
  exists before after,
    regs = before ++ r :: after /\ ~ In (name_of r) (map name_of after).

(** The names in the order in which they were first registered. *)
Fixpoint first_names (seen names : list string) : list string :=
  match names with
  | [] => []
  | n :: rest =>
      if existsb (String.eqb n) seen then first_names seen rest
      else n :: first_names (seen ++ [n]) rest
  end.

Definition registration_order (regs : list registration) : list string :=
  first_names [] (map name_of regs).

(** The entry the run reports for a check. *)
Definition reported (data : check_data) : check_result :=
  match func data with
  | Truthy => CheckResult PASS None (critical data)
  | Falsy => CheckResult FAIL None (critical data)
  | Raises e => CheckResult ERROR (Some e) (critical data)
  end.

Definition passes (f : check_run) : bool :=
  match f with Truthy => true | _ => false end.

End HealthSpec.

(** ** For the pipeline as a whole *)

Module PipelineSpec.

Import Retry Orchestrator.

(** The environment with another report sender. *)
Definition with_deliver (env : environment) (sender : nat -> bool)
  : environment :=
  Env (today env) (uniform env) (constructs env) (vendors_load env)
      (collect env) (extract env) (report env) sender.

(** A sleep of a retry wrapper of the pipeline: between 0 and 60
    seconds. *)
Definition short_sleep (d : Q) : Prop := 0 <= d /\ d <= 60.

(** The stages of a run, in the order of the pipeline, each with the
    number of times its body ran. *)
Definition trace (collects extracts reports deliveries : nat)
  : list stage :=
  [GetVendors] ++ repeat Collect collects ++ repeat Extract extracts ++
  repeat Report reports ++ repeat Deliver deliveries.

(** What the report sender cannot touch. *)
Definition same_outcome (w w' : world) : Prop :=
  output_dir w' = output_dir w /\ status w' = status w.

End PipelineSpec.

(* ================================================================== *)
(** * Properties *)
(* ================================================================== *)

(** ** Extraction *)

Module ExtractionProps.

Import PriceExtractor.
Import ExtractionSpec.

Lemma digits_value_nonneg (s : string) :
  forall acc, (0 <= acc)%Z -> (0 <= digits_value acc s)%Z.
Proof.
  induction s as [|c s IH]; intros acc Hacc; cbn [digits_value].
  - exact Hacc.
  - destruct (PyStr.is_digit c); apply IH; [|exact Hacc].
    pose proof (Nat2Z.is_nonneg (nat_of_ascii c - 48)).
    lia.
Qed.

Lemma decimal_value_nonneg (s : string) : 0 <= decimal_value s.
Proof.
  unfold decimal_value.
  eapply Qle_trans; [|apply Qle_lteq; right; symmetry; apply Qred_correct].
  unfold Qle; cbn [Qnum Qden].
  pose proof (digits_value_nonneg s 0 (Z.le_refl 0)).
  lia.
Qed.

Lemma py_float_nonneg (s : string) (v : Q) :
  py_float s = Some v -> 0 <= v.
Proof.
  unfold py_float.
  destruct (1 <? count_char "." s)%nat; [discriminate|].
  destruct (String.length s <=? count_char "." s)%nat; [discriminate|].
  intros H.
  assert (Hv : v = decimal_value s) by congruence.
  rewrite Hv.
  apply decimal_value_nonneg.
Qed.

Lemma _clean_price_nonneg (price_str : string) : 0 <= _clean_price price_str.
Proof.
  unfold _clean_price.
  destruct (py_float _) as [v|] eqn:Hv.
  - exact (py_float_nonneg _ _ Hv).
  - apply Qle_refl.
Qed.

Lemma all_prices_nonneg (text : string) (q : Q) :
  In q (all_prices text) -> 0 <= q.
Proof.
  unfold all_prices.
  intros Hin.
  apply in_flat_map in Hin.
  destruct Hin as (pattern & _ & Hin).
  apply in_map_iff in Hin.
  destruct Hin as (m & <- & _).
  apply _clean_price_nonneg.
Qed.

Lemma extract_from_text_unfold (text : string) :
  extract_from_text text =
  match _detect_category (PyStr.lower text) with
  | None => []
  | Some category =>
      map (fun price =>
             Candidate category (_detect_model (PyStr.lower text) category)
                       price "per piece" (PyStr.take 200 text))
          (all_prices text)
  end.
Proof.
  unfold extract_from_text.
  fold (all_prices text).
  destruct (all_prices text) as [|q qs]; [|reflexivity].
  destruct (_detect_category _); reflexivity.
Qed.

Lemma extract_from_text_nonneg (text : string) (c : candidate) :
  In c (extract_from_text text) -> 0 <= price c.
Proof.
  rewrite extract_from_text_unfold.
  destruct (_detect_category _) as [category|]; [|intros []].
  intros Hin.
  apply in_map_iff in Hin.
  destruct Hin as (q & <- & Hq).
  simpl.
  exact (all_prices_nonneg _ _ Hq).
Qed.

(** C2, as stated, fails on the specification's own example: the message
    does not yield exactly one candidate. *)
Lemma C2_growatt_message_not_single :
  ~ (exists c, extract_from_text growatt_message = [c]).
Proof.
  intros [c Hc].
  apply (f_equal (@List.length candidate)) in Hc.
  vm_compute in Hc.
  discriminate Hc.
Qed.

(** C2, amended: [extract_from_text] emits one candidate per match of each
    price pattern, in pattern order and without removing duplicates, all
    with the detected category and model and the unit "per piece" (and
    nothing when no category is detected); on the example message the
    first and the fourth pattern both match "65,000", so exactly two
    candidates come out, each (Inverter, Growatt, 65000, per piece). *)
Theorem C2_one_candidate_per_pattern_match :
  (forall text,
      extract_from_text text =
      match _detect_category (PyStr.lower text) with
      | None => []
      | Some category =>
          map (fun price =>
                 Candidate category
                           (_detect_model (PyStr.lower text) category)
                           price "per piece" (PyStr.take 200 text))
              (all_prices text)
      end) /\
  (forall text,
      List.length (extract_from_text text) = O \/
      List.length (extract_from_text text) =
      list_sum (map (fun pattern =>
                       List.length (Re.findall pattern (PyStr.lower text)))
                    PRICE_PATTERNS)) /\
  map (fun pattern => Re.findall pattern (PyStr.lower growatt_message))
      PRICE_PATTERNS = [["65,000"]; []; []; ["65,000"]] /\
  extract_from_text growatt_message = [growatt_candidate; growatt_candidate].
Proof.
  split; [exact extract_from_text_unfold|].
  split; [|split; vm_compute; reflexivity].
  intros text.
  rewrite extract_from_text_unfold.
  destruct (_detect_category _) as [category|]; [right|left; reflexivity].
  rewrite length_map. unfold all_prices.
  generalize PRICE_PATTERNS as patterns.
  induction patterns as [|pattern patterns IH]; [reflexivity|].
  cbn [flat_map map list_sum].
  now rewrite length_app, length_map, IH.
Qed.

End ExtractionProps.

(** ** The store: writes *)

Module StoreWriteProps.

Import DatabaseManager AutomationEngine.
Import StoreWriteSpec.

Lemma get_vendor_by_whatsapp_active (d : db) (number : string) (v : vendor) :
  get_vendor_by_whatsapp d number = Some v ->
  active_vendor d (v_vendor_id v) = true.
Proof.
  unfold get_vendor_by_whatsapp, active_vendor.
  intros Hfind.
  apply find_some in Hfind.
  destruct Hfind as [Hin Hp].
  apply andb_true_iff in Hp.
  destruct Hp as [_ Hstatus].
  apply existsb_exists.
  exists v.
  split; [exact Hin|].
  rewrite String.eqb_refl, Hstatus.
  reflexivity.
Qed.

Lemma insert_items_appends (today : Z) (vendor_id : string)
  (items : list PriceExtractor.candidate) :
  forall d,
    let d' :=
      fold_left
        (fun d0 item =>
           insert_price today d0 vendor_id
             (PriceExtractor.category item) (PriceExtractor.model item)
             (PriceExtractor.price item) ""
             (PriceExtractor.unit item) "whatsapp_text")
        items d in
    vendors d' = vendors d /\
    daily_prices d' =
    daily_prices d ++
    map (fun item =>
           PriceRow today vendor_id
             (PriceExtractor.category item) (PriceExtractor.model item) ""
             (PriceExtractor.price item) (PriceExtractor.unit item)
             "whatsapp_text")
        items.
Proof.
  induction items as [|item items IH]; intros d; cbn [fold_left map].
  - split; [reflexivity|]. now rewrite app_nil_r.
  - destruct (IH (insert_price today d vendor_id
                    (PriceExtractor.category item) (PriceExtractor.model item)
                    (PriceExtractor.price item) ""
                    (PriceExtractor.unit item) "whatsapp_text"))
      as [Hv Hp].
    split.
    + rewrite Hv. reflexivity.
    + rewrite Hp. cbn [insert_price daily_prices].
      now rewrite <- app_assoc.
Qed.

Lemma process_file_appends (today : Z) (d : db) (stem content : string) :
  exists new,
    vendors (fst (process_file today d stem content)) = vendors d /\
    daily_prices (fst (process_file today d stem content)) =
    daily_prices d ++ new /\
    Forall (pipeline_row today d) new.
Proof.
  unfold process_file.
  destruct (nth_error _ 2) as [number|].
  2:{ exists []. cbn. rewrite app_nil_r. repeat split; constructor. }
  destruct (get_vendor_by_whatsapp d number) as [v|] eqn:Hv.
  2:{ exists []. cbn. rewrite app_nil_r. repeat split; constructor. }
  cbn [fst].
  destruct (insert_items_appends today (v_vendor_id v)
              (PriceExtractor.extract_from_text content) d) as [Hvs Hps].
  eexists.
  split; [exact Hvs|].
  split; [exact Hps|].
  apply Forall_forall.
  intros r Hr.
  apply in_map_iff in Hr.
  destruct Hr as (item & <- & Hitem).
  repeat split; cbn.
  - exact (ExtractionProps.extract_from_text_nonneg _ _ Hitem).
  - exact (get_vendor_by_whatsapp_active _ _ _ Hv).
Qed.

Lemma active_vendor_same_vendors (d d' : db) (vendor_id : string) :
  vendors d' = vendors d ->
  active_vendor d' vendor_id = active_vendor d vendor_id.
Proof.
  unfold active_vendor. intros ->. reflexivity.
Qed.

Lemma process_whatsapp_messages_appends (today : Z)
  (files : list (string * string)) :
  forall d n,
  exists new,
    vendors (fst (fold_left
      (fun acc file =>
         let '(d', processed_count) := acc in
         let '(d'', k) := process_file today d' (fst file) (snd file) in
         (d'', (processed_count + k)%nat)) files (d, n))) = vendors d /\
    daily_prices (fst (fold_left
      (fun acc file =>
         let '(d', processed_count) := acc in
         let '(d'', k) := process_file today d' (fst file) (snd file) in
         (d'', (processed_count + k)%nat)) files (d, n))) =
    daily_prices d ++ new /\
    Forall (pipeline_row today d) new.
Proof.
  induction files as [|file files IH]; intros d n; cbn [fold_left].
  - exists []. cbn. rewrite app_nil_r. repeat split; constructor.
  - destruct (process_file_appends today d (fst file) (snd file))
      as (new1 & Hv1 & Hp1 & Hall1).
    destruct (process_file today d (fst file) (snd file)) as [d1 k] eqn:Hpf.
    cbn [fst] in Hv1, Hp1.
    destruct (IH d1 (n + k)%nat) as (new2 & Hv2 & Hp2 & Hall2).
    exists (new1 ++ new2).
    split; [now rewrite Hv2|].
    split; [rewrite Hp2, Hp1; now rewrite app_assoc|].
    apply Forall_app.
    split; [exact Hall1|].
    eapply Forall_impl; [|exact Hall2].
    intros r (Hd & Hq & Ha).
    repeat split; try assumption.
    now rewrite <- (active_vendor_same_vendors d d1 _ Hv1).
Qed.

(** C7, as stated, fails: the vendor of [retired_db] exists but is not
    active, and [insert_price] still appends a row for it. *)
Lemma C7_inactive_vendor_row_appended :
  active_vendor retired_db "VND009" = false /\
  daily_prices
    (insert_price 20261103 retired_db "VND009" "Inverter" "Growatt" 65000
                  "" "per piece" "whatsapp")
  <> daily_prices retired_db.
Proof.
  split; [reflexivity|].
  cbn. discriminate.
Qed.

(** C7, amended: [insert_price] makes no vendor check of its own; for the
    vendor_id of any [vendors] row, active or not, it appends exactly one
    price row stamped with the current date and leaves every other row as
    it was.  The check for an existing active vendor is the caller's: every
    row [process_file] appends carries the id of an active vendor. *)
Theorem C7_insert_price_appends_one_row
  (today : Z) (d : db) (vendor_id category model : string) (price : Q)
  (company unit source : string)
  (Hknown : known_vendor d vendor_id) :
  (daily_prices
     (insert_price today d vendor_id category model price company unit source)
   = daily_prices d ++
     [PriceRow today vendor_id category model company price unit source] /\
   vendors
     (insert_price today d vendor_id category model price company unit source)
   = vendors d) /\
  (forall stem content,
      exists new,
        daily_prices (fst (process_file today d stem content)) =
        daily_prices d ++ new /\
        Forall (fun r => active_vendor d (dp_vendor_id r) = true) new).
Proof.
  split.
  - split; reflexivity.
  - intros stem content.
    destruct (process_file_appends today d stem content)
      as (new & _ & Hp & Hall).
    exists new.
    split; [exact Hp|].
    eapply Forall_impl; [|exact Hall].
    intros r (_ & _ & Ha). exact Ha.
Qed.

(** An instance: the deactivated vendor of [retired_db]. *)
Lemma C7_insert_price_appends_one_row_witness :
  known_vendor retired_db "VND009" /\
  daily_prices
    (insert_price 20261103 retired_db "VND009" "Inverter" "Growatt" 65000
                  "" "per piece" "whatsapp")
  = [PriceRow 20261103 "VND009" "Inverter" "Growatt" "" 65000
              "per piece" "whatsapp"].
Proof.
  assert (Hknown : known_vendor retired_db "VND009").
  { eexists. split; [left; reflexivity|reflexivity]. }
  split; [exact Hknown|].
  exact (proj1 (proj1 (C7_insert_price_appends_one_row
                         20261103 retired_db "VND009" "Inverter" "Growatt"
                         65000 "" "per piece" "whatsapp" Hknown))).
Defined.

(** C9, as stated, fails: the message "Inverter Rs 0" from an active
    vendor stores a row whose price is 0. *)
Lemma C9_zero_price_stored :
  daily_prices
    (fst (process_whatsapp_messages 20261103 sample_db
            [("20261103_0800_+923001234567", "Inverter Rs 0")]))
  = [PriceRow 20261103 "VND001" "Inverter" "Generic" "" 0 "per piece"
              "whatsapp_text"] /\
  ~ (0 < 0).
Proof.
  split.
  - vm_compute. reflexivity.
  - apply Qlt_irrefl.
Qed.

(** C9, amended: every price row the pipeline appends has a price that is
    zero or more; the existing rows are left as they were. *)
Theorem C9_stored_prices_nonnegative
  (today : Z) (d : db) (files : list (string * string)) :
  exists new,
    daily_prices (fst (process_whatsapp_messages today d files)) =
    daily_prices d ++ new /\
    Forall (fun r => 0 <= dp_price r) new.
Proof.
  unfold process_whatsapp_messages.
  destruct (process_whatsapp_messages_appends today files d O)
    as (new & _ & Hp & Hall).
  exists new.
  split; [exact Hp|].
  eapply Forall_impl; [|exact Hall].
  intros r (_ & Hq & _). exact Hq.
Qed.

End StoreWriteProps.

(** ** The store: the minimum-price query *)

Module StoreReadProps.

Import DatabaseManager.
Import StoreReadSpec.

(** *** Keys *)

Lemma key_eqb_eq (k1 k2 : string * string * string) :
  key_eqb k1 k2 = true <-> k1 = k2.
Proof.
  destruct k1 as [[c1 m1] p1], k2 as [[c2 m2] p2].
  unfold key_eqb.
  rewrite !andb_true_iff, !String.eqb_eq.
  split.
  - intros [[H1 H2] H3]. subst. reflexivity.
  - intros H. inversion H. auto.
Qed.

Lemma key_eqb_neq (k1 k2 : string * string * string) :
  key_eqb k1 k2 = false <-> k1 <> k2.
Proof.
  rewrite <- key_eqb_eq.
  destruct (key_eqb k1 k2); split; congruence.
Qed.

Lemma quote_key_to_quote (j : price_row * vendor) :
  quote_key (to_quote j) = group_key j.
Proof. destruct j as [dp v]. reflexivity. Qed.

Lemma min_price_to_quote (j : price_row * vendor) :
  min_price (to_quote j) = price_of j.
Proof. destruct j as [dp v]. reflexivity. Qed.

(** *** The join *)

Lemma joined_rows_spec (today : Z) (d : db) (j : price_row * vendor) :
  In j (joined_rows today d) <-> in_scope today d j.
Proof.
  unfold joined_rows, in_scope.
  rewrite in_flat_map.
  split.
  - intros (dp & Hdp & Hj).
    apply filter_In in Hdp. destruct Hdp as [Hdp Hdate].
    apply in_map_iff in Hj. destruct Hj as (v & <- & Hv).
    apply filter_In in Hv. destruct Hv as [Hv Hid].
    apply Z.eqb_eq in Hdate. apply String.eqb_eq in Hid.
    cbn. auto.
  - destruct j as [dp v]. cbn.
    intros (Hdp & Hdate & Hv & Hid).
    exists dp. split.
    + apply filter_In. split; [exact Hdp|]. now apply Z.eqb_eq.
    + apply in_map. apply filter_In. split; [exact Hv|].
      apply String.eqb_eq. now symmetry.
Qed.

(** A price row without a [vendors] row, or of another day, adds nothing
    to the join. *)
Lemma joined_rows_skip (today : Z) (vs : list vendor)
  (l1 l2 : list price_row) (r : price_row) :
  (dp_date r <> today \/
   forall v, In v vs -> v_vendor_id v <> dp_vendor_id r) ->
  joined_rows today (Db vs (l1 ++ r :: l2)) =
  joined_rows today (Db vs (l1 ++ l2)).
Proof.
  intros Hskip.
  unfold joined_rows. cbn [vendors daily_prices].
  rewrite !filter_app, !flat_map_app.
  f_equal.
  cbn [filter].
  destruct (Z.eqb_spec (dp_date r) today) as [Hdate|Hdate]; [|reflexivity].
  destruct Hskip as [Hne|Hnone]; [contradiction|].
  cbn [flat_map].
  replace (filter (fun v => String.eqb (dp_vendor_id r) (v_vendor_id v)) vs)
    with (@nil vendor); [reflexivity|].
  symmetry.
  clear - Hnone.
  induction vs as [|v vs IH]; [reflexivity|].
  cbn [filter].
  destruct (String.eqb_spec (dp_vendor_id r) (v_vendor_id v)) as [Heq|Hneq].
  - exfalso. apply (Hnone v); [left; reflexivity|]. now symmetry.
  - apply IH. intros v' Hv'. apply Hnone. now right.
Qed.

(** *** Grouping *)

Lemma upsert_keys (j : price_row * vendor) (gs : list (price_row * vendor)) :
  map group_key (upsert j gs) =
  if existsb (fun g => key_eqb (group_key g) (group_key j)) gs
  then map group_key gs
  else map group_key gs ++ [group_key j].
Proof.
  induction gs as [|g gs IH]; [reflexivity|].
  cbn [upsert existsb].
  destruct (key_eqb (group_key g) (group_key j)) eqn:Hk; cbn [orb].
  - apply key_eqb_eq in Hk.
    destruct (Qle_bool (price_of g) (price_of j)); cbn [map]; congruence.
  - cbn [map]. rewrite IH.
    destruct (existsb _ gs); reflexivity.
Qed.

Lemma upsert_keys_in (j : price_row * vendor)
  (gs : list (price_row * vendor)) (k : string * string * string) :
  In k (map group_key (upsert j gs)) <->
  k = group_key j \/ In k (map group_key gs).
Proof.
  rewrite upsert_keys.
  destruct (existsb _ gs) eqn:Hex.
  - apply existsb_exists in Hex.
    destruct Hex as (g & Hg & Hk). apply key_eqb_eq in Hk.
    split; [auto|].
    intros [->|H]; [|exact H].
    rewrite <- Hk. now apply in_map.
  - rewrite in_app_iff. cbn. intuition congruence.
Qed.

Lemma upsert_keys_NoDup (j : price_row * vendor)
  (gs : list (price_row * vendor)) :
  NoDup (map group_key gs) -> NoDup (map group_key (upsert j gs)).
Proof.
  intros Hnd.
  rewrite upsert_keys.
  destruct (existsb _ gs) eqn:Hex; [exact Hnd|].
  apply NoDup_app; [exact Hnd|repeat constructor; intros []|].
  intros k Hk [<-|[]].
  apply in_map_iff in Hk. destruct Hk as (g & Hkey & Hg).
  assert (Hfalse : existsb (fun g => key_eqb (group_key g) (group_key j)) gs
                   = true).
  { apply existsb_exists. exists g. split; [exact Hg|].
    now apply key_eqb_eq. }
  congruence.
Qed.

(** Where a member of the updated groups comes from. *)
Lemma upsert_member (j : price_row * vendor)
  (gs : list (price_row * vendor)) :
  NoDup (map group_key gs) ->
  forall g', In g' (upsert j gs) ->
    (In g' gs /\
     (group_key g' = group_key j -> price_of g' <= price_of j)) \/
    (g' = j /\
     forall g, In g gs -> group_key g = group_key j ->
               price_of j <= price_of g).
Proof.
  induction gs as [|g gs IH]; intros Hnd g' Hin.
  - destruct Hin as [<-|[]]. right. split; [reflexivity|]. intros _ [].
  - cbn [map] in Hnd. apply NoDup_cons_iff in Hnd. destruct Hnd as [Hg Hnd].
    cbn [upsert] in Hin.
    destruct (key_eqb (group_key g) (group_key j)) eqn:Hk.
    + apply key_eqb_eq in Hk.
      assert (Hothers : forall g0, In g0 gs -> group_key g0 <> group_key j).
      { intros g0 Hg0 Heq. apply Hg. rewrite Hk, <- Heq. now apply in_map. }
      destruct (Qle_bool (price_of g) (price_of j)) eqn:Hle.
      * apply Qle_bool_iff in Hle.
        destruct Hin as [<-|Hin].
        -- left. split; [now left|]. intros _. exact Hle.
        -- left. split; [now right|].
           intros Heq. now destruct (Hothers g' Hin).
      * assert (Hlt : price_of j <= price_of g).
        { apply Qlt_le_weak. apply Qnot_le_lt. intros Hc.
          apply Qle_bool_iff in Hc. congruence. }
        destruct Hin as [<-|Hin].
        -- right. split; [reflexivity|].
           intros g0 [<-|Hg0] Heq; [exact Hlt|].
           now destruct (Hothers g0 Hg0).
        -- left. split; [now right|].
           intros Heq. now destruct (Hothers g' Hin).
    + apply key_eqb_neq in Hk.
      destruct Hin as [<-|Hin].
      * left. split; [now left|]. intros Heq. contradiction.
      * destruct (IH Hnd g' Hin) as [[Hin' Hle]| [-> Hmin]].
        -- left. split; [now right|exact Hle].
        -- right. split; [reflexivity|].
           intros g0 [<-|Hg0] Heq; [contradiction|].
           now apply Hmin.
Qed.

Lemma groups_of_upsert (seen : price_row * vendor -> Prop)
  (gs : list (price_row * vendor)) (j : price_row * vendor) :
  groups_of seen gs ->
  groups_of (fun x => seen x \/ x = j) (upsert j gs).
Proof.
  intros [Hnd Hmin Hcov].
  split.
  - now apply upsert_keys_NoDup.
  - intros g' Hin.
    destruct (upsert_member j gs Hnd g' Hin) as [[Hg Hle]| [-> Hle]].
    + destruct (Hmin g' Hg) as [Hseen Hbest].
      split; [now left|].
      intros j' [Hj'| ->] Hkey; [now apply Hbest|].
      now apply Hle.
    + split; [now right|].
      intros j' [Hj'| ->] Hkey; [|apply Qle_refl].
      specialize (Hcov j' Hj').
      apply in_map_iff in Hcov. destruct Hcov as (g & Hgk & Hg).
      destruct (Hmin g Hg) as [_ Hbest].
      apply Qle_trans with (price_of g).
      * apply Hle; [exact Hg|congruence].
      * apply Hbest; [exact Hj'|congruence].
  - intros j' Hj'.
    apply upsert_keys_in.
    destruct Hj' as [Hj'| ->]; [right; now apply Hcov|now left].
Qed.

Lemma groups_of_ext (seen seen' : price_row * vendor -> Prop)
  (gs : list (price_row * vendor)) :
  (forall x, seen x <-> seen' x) -> groups_of seen gs -> groups_of seen' gs.
Proof.
  intros Hext [Hnd Hmin Hcov].
  split.
  - exact Hnd.
  - intros g Hg. destruct (Hmin g Hg) as [Hs Hb].
    split; [now apply Hext|].
    intros j Hj. apply Hb. now apply Hext.
  - intros j Hj. apply Hcov. now apply Hext.
Qed.

Lemma groups_of_fold (js : list (price_row * vendor)) :
  forall seen gs,
    groups_of seen gs ->
    groups_of (fun x => seen x \/ In x js)
              (fold_left (fun groups j => upsert j groups) js gs).
Proof.
  induction js as [|j js IH]; intros seen gs Hgs; cbn [fold_left].
  - eapply groups_of_ext; [|exact Hgs]. intros x. cbn. tauto.
  - eapply groups_of_ext; [|apply IH, groups_of_upsert, Hgs].
    intros x. cbn. intuition.
Qed.

Lemma groups_of_group_min (js : list (price_row * vendor)) :
  groups_of (fun x => In x js) (group_min js).
Proof.
  unfold group_min.
  eapply groups_of_ext;
    [|apply (groups_of_fold js (fun _ => False) [])].
  - intros x. tauto.
  - split; [constructor|intros g []|intros j []].
Qed.

(** *** Ordering *)

Lemma ascii_compare_refl (x : ascii) : Ascii.compare x x = Eq.
Proof. unfold Ascii.compare. apply N.compare_refl. Qed.

Lemma string_compare_lt_trans (a : string) :
  forall b c,
    String.compare a b = Lt -> String.compare b c = Lt ->
    String.compare a c = Lt.
Proof.
  induction a as [|x a IH]; intros [|y b] [|z c]; cbn [String.compare];
    try discriminate; try reflexivity.
  destruct (Ascii.compare x y) eqn:Hxy; try discriminate;
    destruct (Ascii.compare y z) eqn:Hyz; try discriminate.
  - apply Ascii.compare_eq_iff in Hxy, Hyz. subst.
    rewrite ascii_compare_refl. apply IH.
  - apply Ascii.compare_eq_iff in Hxy. subst. rewrite Hyz. reflexivity.
  - apply Ascii.compare_eq_iff in Hyz. subst. rewrite Hxy. reflexivity.
  - intros _ _.
    replace (Ascii.compare x z) with Lt; [reflexivity|].
    symmetry. unfold Ascii.compare in *.
    rewrite N.compare_lt_iff in *.
    eapply N.lt_trans; eassumption.
Qed.

Lemma quote_le_trans (a b c : quote) :
  quote_le a b -> quote_le b c -> quote_le a c.
Proof.
  unfold quote_le.
  destruct (String.compare (product_category a) (product_category b))
    eqn:Hab; [| |intros []].
  - apply String.compare_eq_iff in Hab. rewrite Hab.
    destruct (String.compare (product_category b) (product_category c));
      [|trivial|intros _ []].
    apply Qle_trans.
  - intros _.
    destruct (String.compare (product_category b) (product_category c))
      eqn:Hbc; [| |intros []]; intros _.
    + apply String.compare_eq_iff in Hbc. rewrite <- Hbc, Hab. exact I.
    + rewrite (string_compare_lt_trans _ _ _ Hab Hbc). exact I.
Qed.

Lemma order_leb_quote_le (a b : price_row * vendor) :
  order_leb a b = true <-> quote_le (to_quote a) (to_quote b).
Proof.
  destruct a as [dpa va], b as [dpb vb].
  unfold order_leb, quote_le, price_of. cbn.
  destruct (String.compare _ _).
  - apply Qle_bool_iff.
  - tauto.
  - split; [discriminate|intros []].
Qed.

Lemma order_leb_total (a b : price_row * vendor) :
  order_leb a b = false -> order_leb b a = true.
Proof.
  unfold order_leb.
  rewrite (String.compare_antisym (dp_product_category (fst b))).
  destruct (String.compare _ _); cbn; try congruence.
  intros Hab.
  apply Qle_bool_iff.
  destruct (Qlt_le_dec (price_of b) (price_of a)) as [Hlt|Hle].
  - now apply Qlt_le_weak.
  - apply Qle_bool_iff in Hle. congruence.
Qed.

Lemma insert_sorted_perm (a : price_row * vendor)
  (l : list (price_row * vendor)) :
  Permutation (insert_sorted a l) (a :: l).
Proof.
  induction l as [|b l IH]; cbn [insert_sorted]; [reflexivity|].
  destruct (order_leb a b); [reflexivity|].
  rewrite IH. apply perm_swap.
Qed.

Lemma order_by_perm (l : list (price_row * vendor)) :
  Permutation (order_by l) l.
Proof.
  induction l as [|a l IH]; cbn; [reflexivity|].
  rewrite insert_sorted_perm. now constructor.
Qed.

Lemma insert_sorted_sorted (a : price_row * vendor)
  (l : list (price_row * vendor)) :
  Sorted (fun x y => order_leb x y = true) l ->
  Sorted (fun x y => order_leb x y = true) (insert_sorted a l).
Proof.
  induction l as [|b l IH]; intros Hs; cbn [insert_sorted].
  - repeat constructor.
  - destruct (order_leb a b) eqn:Hab.
    + constructor; [exact Hs|]. now constructor.
    + apply Sorted_inv in Hs. destruct Hs as [Hs Hhd].
      constructor; [now apply IH|].
      destruct l as [|c l]; cbn [insert_sorted].
      * constructor. now apply order_leb_total.
      * destruct (order_leb a c).
        -- constructor. now apply order_leb_total.
        -- constructor. now apply HdRel_inv in Hhd.
Qed.

Lemma order_by_sorted (l : list (price_row * vendor)) :
  Sorted (fun x y => order_leb x y = true) (order_by l).
Proof.
  induction l as [|a l IH]; cbn; [constructor|].
  now apply insert_sorted_sorted.
Qed.

Lemma sorted_quotes (l : list (price_row * vendor)) :
  Sorted (fun x y => order_leb x y = true) l ->
  StronglySorted quote_le (map to_quote l).
Proof.
  intros Hs.
  apply Sorted_StronglySorted; [exact quote_le_trans|].
  induction Hs as [|a l Hs IH Hhd]; cbn [map]; constructor; [exact IH|].
  destruct Hhd as [|b l Hab]; cbn [map]; constructor.
  now apply order_leb_quote_le.
Qed.

(** *** The query *)

Lemma result_perm (today : Z) (d : db) :
  Permutation (result today d)
              (map to_quote (group_min (joined_rows today d))).
Proof.
  unfold result, get_minimum_prices_today. cbn [fst].
  apply Permutation_map, order_by_perm.
Qed.

Lemma result_member (today : Z) (d : db) (q : quote) :
  In q (result today d) <->
  exists g, In g (group_min (joined_rows today d)) /\ q = to_quote g.
Proof.
  split.
  - intros Hq.
    apply (Permutation_in _ (result_perm today d)) in Hq.
    apply in_map_iff in Hq. destruct Hq as (g & <- & Hg). eauto.
  - intros (g & Hg & ->).
    apply (Permutation_in _ (Permutation_sym (result_perm today d))).
    now apply in_map.
Qed.

Lemma result_keys (today : Z) (d : db) :
  Permutation (map quote_key (result today d))
              (map group_key (group_min (joined_rows today d))).
Proof.
  rewrite (Permutation_map quote_key (result_perm today d)).
  rewrite map_map.
  erewrite map_ext; [reflexivity|].
  intros j. apply quote_key_to_quote.
Qed.

(** C1, as stated, fails: in [ghost_db] the group (Inverter, Growatt, "")
    has a row of the day priced 100, and the quote of the group reports
    200. *)
Lemma C1_orphan_row_is_not_the_minimum :
  In ghost_row (daily_prices ghost_db) /\
  dp_date ghost_row = 20261103%Z /\
  dp_price ghost_row < 200 /\
  result 20261103 ghost_db =
  [Quote "Inverter" "Growatt" "" 200 "per piece" "VND001"
         "ABC Solar Traders" "0300-1234567" "Importer"] /\
  row_key ghost_row = ("Inverter", "Growatt", "").
Proof.
  split; [left; reflexivity|].
  split; [reflexivity|].
  split; [reflexivity|].
  split; vm_compute; reflexivity.
Qed.

(** The quotes are the minima of the groups of the join. *)
Lemma result_spec (today : Z) (d : db) :
  NoDup (map quote_key (result today d)) /\
  (forall k, In k (map quote_key (result today d)) <->
             exists j, in_scope today d j /\ group_key j = k) /\
  (forall q, In q (result today d) ->
     (exists j, in_scope today d j /\ q = to_quote j) /\
     (forall j, in_scope today d j -> group_key j = quote_key q ->
                min_price q <= price_of j)).
Proof.
  pose proof (groups_of_group_min (joined_rows today d)) as [Hnd Hmin Hcov].
  split; [|split].
  - eapply Permutation_NoDup; [|exact Hnd].
    apply Permutation_sym, result_keys.
  - intros k. split.
    + intros Hk.
      apply (Permutation_in _ (result_keys today d)) in Hk.
      apply in_map_iff in Hk. destruct Hk as (g & <- & Hg).
      exists g. split; [|reflexivity].
      apply joined_rows_spec. now apply Hmin.
    + intros (j & Hj & <-).
      apply (Permutation_in _ (Permutation_sym (result_keys today d))).
      apply Hcov. now apply joined_rows_spec.
  - intros q Hq.
    apply result_member in Hq. destruct Hq as (g & Hg & ->).
    destruct (Hmin g Hg) as [Hseen Hbest].
    split.
    + exists g. split; [now apply joined_rows_spec|reflexivity].
    + intros j Hj Hkey.
      rewrite min_price_to_quote.
      apply Hbest; [now apply joined_rows_spec|].
      now rewrite Hkey, quote_key_to_quote.
Qed.

(** C1, amended: over the price rows of the day whose vendor_id matches a
    [vendors] row, [get_minimum_prices_today] returns exactly one quote per
    distinct (category, model, company); its [min_price] is the price of
    one of these rows of the group, no row of the group is cheaper, the
    vendor columns are those of that row's vendor; the result is ordered
    by category, then by [min_price]; the query leaves the store as it was,
    so a repeated call returns the same list. *)
Theorem C1_minimum_per_group_of_joined_rows (today : Z) (d : db) :
  NoDup (map quote_key (result today d)) /\
  (forall k, In k (map quote_key (result today d)) <->
             exists j, in_scope today d j /\ group_key j = k) /\
  (forall q, In q (result today d) ->
     (exists j, in_scope today d j /\ q = to_quote j) /\
     (forall j, in_scope today d j -> group_key j = quote_key q ->
                min_price q <= price_of j)) /\
  StronglySorted quote_le (result today d) /\
  snd (get_minimum_prices_today today d) = d /\
  result today (snd (get_minimum_prices_today today d)) = result today d.
Proof.
  destruct (result_spec today d) as (Hnd & Hkeys & Hquotes).
  split; [exact Hnd|].
  split; [exact Hkeys|].
  split; [exact Hquotes|].
  split; [|split; reflexivity].
  unfold result, get_minimum_prices_today. cbn [fst].
  apply sorted_quotes, order_by_sorted.
Qed.

(** C10: the query ranges over the inner join.  A price row whose
    vendor_id has no [vendors] row, like a row of another day, can be
    removed without changing the result, and every quote names a vendor of
    the [vendors] table; a row of the day whose vendor has a [vendors] row
    takes part whatever the vendor's status, as in [inactive_db], where the
    inactive vendor holds the minimum. *)
Theorem C10_inner_join_ignores_status (today : Z) (vs : list vendor) :
  (forall l1 r l2,
      (dp_date r <> today \/
       forall v, In v vs -> v_vendor_id v <> dp_vendor_id r) ->
      result today (Db vs (l1 ++ r :: l2)) = result today (Db vs (l1 ++ l2))) /\
  (forall rows q,
      In q (result today (Db vs rows)) ->
      exists v r, In v vs /\ In r rows /\ dp_date r = today /\
                  v_vendor_id v = dp_vendor_id r /\
                  vendor_id q = v_vendor_id v /\ min_price q = dp_price r) /\
  (forall rows r v,
      In r rows -> dp_date r = today ->
      In v vs -> v_vendor_id v = dp_vendor_id r ->
      exists q, In q (result today (Db vs rows)) /\
                quote_key q = row_key r /\ min_price q <= dp_price r) /\
  result 20261103 inactive_db =
  [Quote "Inverter" "Growatt" "" 150 "per piece" "VND009" "Old Traders"
         "0300-0000000" "Trader"].
Proof.
  split; [|split; [|split]].
  - intros l1 r l2 Hskip.
    unfold result, get_minimum_prices_today. cbn [fst].
    now rewrite (joined_rows_skip today vs l1 l2 r Hskip).
  - intros rows q Hq.
    destruct (result_spec today (Db vs rows)) as (_ & _ & Hquotes).
    destruct (Hquotes q Hq) as [([dp v] & Hj & ->) _].
    destruct Hj as (Hdp & Hdate & Hv & Hid). cbn in *.
    exists v, dp. repeat split; assumption.
  - intros rows r v Hr Hdate Hv Hid.
    destruct (result_spec today (Db vs rows)) as (_ & Hkeys & Hquotes).
    assert (Hj : in_scope today (Db vs rows) (r, v)).
    { repeat split; assumption. }
    assert (Hk : In (group_key (r, v)) (map quote_key (result today (Db vs rows)))).
    { apply Hkeys. exists (r, v). split; [exact Hj|reflexivity]. }
    apply in_map_iff in Hk. destruct Hk as (q & Hqk & Hq).
    exists q. split; [exact Hq|]. split; [exact Hqk|].
    destruct (Hquotes q Hq) as [_ Hbest].
    apply (Hbest (r, v) Hj). now symmetry.
  - vm_compute. reflexivity.
Qed.

End StoreReadProps.

(** ** Retry with backoff *)

Module RetryProps.

Import Retry.
Import RetrySpec.

Lemma Qlt_bool_false (x y : Q) : y <= x -> Qlt_bool x y = false.
Proof.
  intros H. unfold Qlt_bool.
  apply Qle_bool_iff in H. now rewrite H.
Qed.

Lemma Qlt_bool_true (x y : Q) : x < y -> Qlt_bool x y = true.
Proof.
  intros H. unfold Qlt_bool.
  destruct (Qle_bool y x) eqn:Hle; [|reflexivity].
  apply Qle_bool_iff in Hle. exfalso. exact (Qlt_not_le _ _ H Hle).
Qed.

Lemma SLEEP_MAX_below_limit : SLEEP_MAX <= SLEEP_LIMIT.
Proof. unfold Qle. cbn. lia. Qed.

(** The three answers of [time.sleep]. *)
Lemma time_sleep_accepts (d : Q) :
  0 <= d -> d <= SLEEP_LIMIT -> time_sleep d = Slept.
Proof.
  intros H0 Hmax. unfold time_sleep.
  rewrite (Qlt_bool_false _ _ Hmax).
  rewrite (Qlt_bool_false d (- SLEEP_LIMIT)).
  - cbn [orb]. now rewrite (Qlt_bool_false _ _ H0).
  - apply Qle_trans with 0; [|exact H0]. unfold Qle. cbn. lia.
Qed.

Lemma time_sleep_negative (d : Q) :
  d < 0 -> - SLEEP_LIMIT <= d -> time_sleep d = SleepValueError.
Proof.
  intros H0 Hmin. unfold time_sleep.
  rewrite (Qlt_bool_false SLEEP_LIMIT d).
  - rewrite (Qlt_bool_false _ _ Hmin). cbn [orb].
    now rewrite (Qlt_bool_true _ _ H0).
  - apply Qle_trans with 0; [now apply Qlt_le_weak|].
    unfold Qle. cbn. lia.
Qed.

Lemma time_sleep_overflow (d : Q) :
  SLEEP_LIMIT < d \/ d < - SLEEP_LIMIT -> time_sleep d = SleepOverflowError.
Proof.
  intros [H|H]; unfold time_sleep; rewrite (Qlt_bool_true _ _ H);
    [reflexivity|now rewrite orb_true_r].
Qed.

(** A delay that is not accepted is negative or beyond the limit. *)
Lemma time_sleep_slept (d : Q) :
  time_sleep d = Slept -> 0 <= d /\ d <= SLEEP_LIMIT.
Proof.
  unfold time_sleep, Qlt_bool.
  destruct (Qle_bool d SLEEP_LIMIT) eqn:Hmax; cbn [negb orb];
    [|discriminate].
  destruct (Qle_bool (- SLEEP_LIMIT) d); cbn [negb]; [|discriminate].
  destruct (Qle_bool 0 d) eqn:H0; cbn [negb]; [|discriminate].
  intros _. split; now apply Qle_bool_iff.
Qed.

Lemma time_sleep_refused (d : Q) :
  d < 0 -> time_sleep d = SleepValueError \/ time_sleep d = SleepOverflowError.
Proof.
  intros H0. destruct (time_sleep d) eqn:Hd; auto.
  apply time_sleep_slept in Hd. destruct Hd as [Hd _].
  exfalso. exact (Qlt_not_le _ _ H0 Hd).
Qed.

Lemma jitter_factor_range (config : RetryConfig) (uniform : Z -> Q) (i : Z) :
  in_jitter_range uniform ->
  8 # 10 <= jitter_factor config uniform i /\
  jitter_factor config uniform i <= 12 # 10.
Proof.
  intros Hr. unfold jitter_factor.
  destruct (jitter config); [apply Hr|].
  split; unfold Qle; cbn; lia.
Qed.

Lemma scaled_lower (d f : Q) : 0 <= d -> 8 # 10 <= f -> d * (8 # 10) <= d * f.
Proof.
  intros Hd Hf.
  rewrite (Qmult_comm d (8 # 10)), (Qmult_comm d f).
  now apply Qmult_le_compat_r.
Qed.

Lemma scaled_upper (d f : Q) : 0 <= d -> f <= 12 # 10 -> d * f <= d * (12 # 10).
Proof.
  intros Hd Hf.
  rewrite (Qmult_comm d (12 # 10)), (Qmult_comm d f).
  now apply Qmult_le_compat_r.
Qed.

Lemma scaled_nonneg (d f : Q) : 0 <= d -> 8 # 10 <= f -> 0 <= d * f.
Proof.
  intros Hd Hf.
  apply Qmult_le_0_compat; [exact Hd|].
  apply Qle_trans with (8 # 10); [unfold Qle; cbn; lia|exact Hf].
Qed.

Section Steps.

Context {W A E : Type}.
Variable config : RetryConfig.
Variable uniform : Z -> Q.
Variable sleep : Q -> W -> W.
Variable func : W -> (A + E) * W.

(** The three ways one iteration of the loop goes. *)
Lemma attempts_return (n : nat) (i : Z) (delay : Q) (last : option E)
  (w w1 : W) (r : A) :
  func w = (inl r, w1) ->
  attempts config uniform sleep func (S n) i delay last w
  = (Returned r, w1).
Proof. intros Hf. cbn [attempts]. now rewrite Hf. Qed.

Lemma attempts_retry (n : nat) (i : Z) (delay : Q) (last : option E)
  (w w1 : W) (e : E) :
  func w = (inr e, w1) ->
  (i < max_attempts config)%Z ->
  0 <= Qmin (delay * jitter_factor config uniform i) (max_delay config) ->
  Qmin (delay * jitter_factor config uniform i) (max_delay config)
  <= SLEEP_LIMIT ->
  attempts config uniform sleep func (S n) i delay last w
  = attempts config uniform sleep func n (i + 1)%Z
             (delay * backoff_multiplier config) (Some e)
             (sleep (Qmin (delay * jitter_factor config uniform i)
                          (max_delay config)) w1).
Proof.
  intros Hf Hi Hd Hmax. cbn [attempts]. rewrite Hf.
  apply Z.ltb_lt in Hi. rewrite Hi.
  fold (jitter_factor config uniform i).
  now rewrite (time_sleep_accepts _ Hd Hmax).
Qed.

Lemma attempts_give_up (n : nat) (i : Z) (delay : Q) (last : option E)
  (w w1 : W) (e : E) :
  func w = (inr e, w1) ->
  (max_attempts config <= i)%Z ->
  attempts config uniform sleep func (S n) i delay last w
  = attempts config uniform sleep func n (i + 1)%Z delay (Some e) w1.
Proof.
  intros Hf Hi. cbn [attempts]. rewrite Hf.
  apply Z.ltb_ge in Hi. now rewrite Hi.
Qed.

(** A returned result is a result of the wrapped function. *)
Lemma attempts_returned (n : nat) :
  forall (i : Z) (delay : Q) (last : option E) (w w' : W) (r : A),
    attempts config uniform sleep func n i delay last w = (Returned r, w') ->
    exists w1, func w1 = (inl r, w').
Proof.
  induction n as [|n IH]; intros i delay last w w' r; cbn [attempts].
  - destruct last; discriminate.
  - destruct (func w) as [[r0|e] w1] eqn:Hf.
    + intros H. exists w. congruence.
    + destruct (i <? max_attempts config)%Z; [|apply IH].
      destruct (time_sleep _); [apply IH|discriminate|discriminate].
Qed.

(** What the wrapped function and [sleep] preserve, the wrapper
    preserves. *)
Lemma attempts_preserves (R : W -> W -> Prop)
  (Hrefl : forall w, R w w)
  (Htrans : forall w1 w2 w3, R w1 w2 -> R w2 w3 -> R w1 w3)
  (Hfunc : forall w, R w (snd (func w)))
  (Hsleep : forall d w, R w (sleep d w)) (n : nat) :
  forall (i : Z) (delay : Q) (last : option E) (w : W),
    R w (snd (attempts config uniform sleep func n i delay last w)).
Proof.
  induction n as [|n IH]; intros i delay last w; cbn [attempts].
  - apply Hrefl.
  - pose proof (Hfunc w) as Hw.
    destruct (func w) as [[r0|e] w1]; cbn [snd] in *; [exact Hw|].
    destruct (i <? max_attempts config)%Z.
    + destruct (time_sleep _); cbn [snd]; [|exact Hw|exact Hw].
      eapply Htrans; [exact Hw|].
      eapply Htrans; [apply Hsleep|apply IH].
    + eapply Htrans; [exact Hw|apply IH].
Qed.

End Steps.




End RetryProps.

(** ** Circuit breaker *)

Module BreakerProps.

Import CircuitBreaker.
Import BreakerSpec.

Lemma reset_refused (cb : breaker) (t now : Q) :
  last_failure_time cb = Some t ->
  now - t < inject_Z (recovery_timeout cb) ->
  _should_attempt_reset cb now = false.
Proof.
  intros Hlast Hlt.
  unfold _should_attempt_reset. rewrite Hlast.
  destruct (Qle_bool _ _) eqn:Hle; [|reflexivity].
  apply Qle_bool_iff in Hle.
  exfalso. exact (Qlt_not_le _ _ Hlt Hle).
Qed.

Lemma reset_allowed (cb : breaker) (t now : Q) :
  last_failure_time cb = Some t ->
  inject_Z (recovery_timeout cb) <= now - t ->
  _should_attempt_reset cb now = true.
Proof.
  intros Hlast Hle.
  unfold _should_attempt_reset. rewrite Hlast.
  now apply Qle_bool_iff.
Qed.

(** C3: with [failure_threshold = 2], two consecutive failed calls take a
    fresh breaker from CLOSED to OPEN; an OPEN breaker called before
    [recovery_timeout] seconds have passed since the last failure rejects
    the call and leaves the world untouched (the operation is not
    invoked); called once the timeout has passed, it runs the operation
    exactly once and ends CLOSED if the operation returns, and OPEN with
    the failure time refreshed if it raises.  The last two parts hold for
    every OPEN state the breaker reaches, whatever its failure count. *)
Theorem C3_breaker_threshold_two
  {W A E : Type} (expected_exception : E -> bool)
  (timeout : Z) (func : W -> (A + E) * W)
  (w0 w1 w2 : W) (e1 e2 : E) (c1 t1 c2 t2 : Q)
  (Hfail1 : func w0 = (inr e1, w1))
  (Hexp1 : expected_exception e1 = true)
  (Hfail2 : func w1 = (inr e2, w2))
  (Hexp2 : expected_exception e2 = true) :
  call expected_exception (__init__ 2 timeout) c1 t1 func w0
  = (Failed e1, Breaker 2 timeout 1 (Some t1) CLOSED, w1) /\
  call expected_exception (Breaker 2 timeout 1 (Some t1) CLOSED) c2 t2 func w1
  = (FailedOpen e2, Breaker 2 timeout 2 (Some t2) OPEN, w2) /\
  (forall (count : Z) (t : Q) (op : W -> (A + E) * W) (now now' : Q) (w : W),
      now - t < inject_Z timeout ->
      call expected_exception (Breaker 2 timeout count (Some t) OPEN)
           now now' op w
      = (Rejected, Breaker 2 timeout count (Some t) OPEN, w)) /\
  (forall (count : Z) (t : Q) (op : W -> (A + E) * W) (now now' : Q) (w : W),
      (2 <= count)%Z ->
      inject_Z timeout <= now - t ->
      call expected_exception (Breaker 2 timeout count (Some t) OPEN)
           now now' op w =
      match op w with
      | (inl r, w') => (Ok r, Breaker 2 timeout 0 (Some t) CLOSED, w')
      | (inr e, w') =>
          if expected_exception e
          then (FailedOpen e,
                Breaker 2 timeout (count + 1) (Some now') OPEN, w')
          else (Failed e, Breaker 2 timeout count (Some t) HALF_OPEN, w')
      end).
Proof.
  split; [|split; [|split]].
  - unfold call, __init__. cbn. rewrite Hfail1, Hexp1. reflexivity.
  - unfold call. cbn. rewrite Hfail2, Hexp2. reflexivity.
  - intros count t op now now' w Hearly.
    unfold call. cbn [is_open state].
    now rewrite (reset_refused (Breaker 2 timeout count (Some t) OPEN) t now
                   eq_refl Hearly).
  - intros count t op now now' w Hcount Hlate.
    unfold call. cbn [is_open state].
    rewrite (reset_allowed (Breaker 2 timeout count (Some t) OPEN) t now
               eq_refl Hlate).
    cbn [failure_threshold recovery_timeout failure_count last_failure_time].
    destruct (op w) as [[r|e] w']; [reflexivity|].
    destruct (expected_exception e); [|reflexivity].
    unfold _on_failure.
    cbn [failure_threshold recovery_timeout failure_count last_failure_time
         state].
    assert (Hle : (2 <=? count + 1)%Z = true) by (apply Z.leb_le; lia).
    rewrite Hle. reflexivity.
Qed.

(** An instance: a breaker with a timeout of 60 seconds around an
    operation that counts its invocations. *)
Lemma C3_breaker_threshold_two_witness :
  call (fun _ : string => true) (__init__ 2 60) 0 0 counted_failure 0%nat
  = (Failed "down", Breaker 2 60 1 (Some 0) CLOSED, 1%nat) /\
  call (fun _ : string => true) (Breaker 2 60 1 (Some 0) CLOSED) 1 1
       counted_failure 1%nat
  = (FailedOpen "down", Breaker 2 60 2 (Some 1) OPEN, 2%nat) /\
  call (fun _ : string => true) (Breaker 2 60 2 (Some 1) OPEN) 30 30
       counted_success 2%nat
  = (Rejected, Breaker 2 60 2 (Some 1) OPEN, 2%nat) /\
  call (fun _ : string => true) (Breaker 2 60 2 (Some 1) OPEN) 61 61
       counted_success 2%nat
  = (Ok 2%nat, Breaker 2 60 0 (Some 1) CLOSED, 3%nat) /\
  call (fun _ : string => true) (Breaker 2 60 2 (Some 1) OPEN) 61 62
       counted_failure 2%nat
  = (FailedOpen "down", Breaker 2 60 3 (Some 62) OPEN, 3%nat).
Proof.
  destruct (C3_breaker_threshold_two
              (fun _ : string => true) 60 counted_failure
              0%nat 1%nat 2%nat "down" "down" 0 0 1 1
              eq_refl eq_refl eq_refl eq_refl)
    as (Hfirst & Hsecond & Hearly & Hlate).
  split; [exact Hfirst|].
  split; [exact Hsecond|].
  split; [apply Hearly; reflexivity|].
  split.
  - apply (Hlate 2%Z 1 counted_success 61 61 2%nat); [lia|].
    unfold Qle; cbn; lia.
  - apply (Hlate 2%Z 1 counted_failure 61 62 2%nat); [lia|].
    unfold Qle; cbn; lia.
Defined.

End BreakerProps.

(** ** Orchestrator *)

Module OrchestratorProps.

Import Retry Orchestrator.
Import OrchestratorSpec.

Lemma grows_refl (w : world) : grows w w.
Proof. split; apply incl_refl. Qed.

Lemma grows_trans (w1 w2 w3 : world) :
  grows w1 w2 -> grows w2 w3 -> grows w1 w3.
Proof. intros [H1 H2] [H3 H4]. split; eapply incl_tran; eassumption. Qed.

Lemma grows_enter (s : stage) (w : world) : grows w (enter s w).
Proof. split; cbn; [apply incl_appl|]; apply incl_refl. Qed.

Lemma grows_write (f : file) (w : world) : grows w (write f w).
Proof. split; cbn; [|apply incl_appl]; apply incl_refl. Qed.

Lemma grows_sleep (d : Q) (w : world) : grows w (sleep d w).
Proof. split; cbn; apply incl_refl. Qed.

Lemma step1_body_grows (env : environment) (w : world) :
  grows w (snd (step1_body env w)).
Proof.
  unfold step1_body. destruct (collect env _); apply grows_enter.
Qed.

Lemma step2_body_grows (env : environment) (w : world) :
  grows w (snd (step2_body env w)).
Proof.
  unfold step2_body. destruct (extract env _); apply grows_enter.
Qed.

Lemma step3_body_grows (env : environment) (w : world) :
  grows w (snd (step3_body env w)).
Proof.
  unfold step3_body.
  destruct (report env _); cbn [snd];
    repeat (eapply grows_trans; [|apply grows_write]); apply grows_enter.
Qed.

Lemma step4_body_grows (env : environment) (s d : file) (w : world) :
  grows w (snd (step4_body env s d w)).
Proof.
  unfold step4_body.
  destruct (negb _); [apply grows_enter|].
  destruct (negb _); [apply grows_enter|].
  destruct (deliver env _); apply grows_enter.
Qed.

Lemma wrapper_grows {A : Type} (config : RetryConfig) (uniform : Z -> Q)
  (func : world -> (A + exn) * world) :
  (forall w, grows w (snd (func w))) ->
  forall w, grows w (snd (retry_with_backoff config uniform sleep func w)).
Proof.
  intros Hfunc w. unfold retry_with_backoff, wrapper.
  apply RetryProps.attempts_preserves.
  - exact grows_refl.
  - exact grows_trans.
  - exact Hfunc.
  - exact grows_sleep.
Qed.

Lemma runs_enter (s : stage) (w : world) :
  runs s (enter s w) = S (runs s w).
Proof.
  unfold runs, enter. cbn [invoked].
  rewrite filter_app, length_app. cbn [filter].
  destruct s; cbn; lia.
Qed.

(** The retry wrapper of [step3_generate_reports] sees its function
    return at the first attempt, whatever the report engine did. *)
Lemma step3_single_attempt (env : environment) (w : world) :
  exists r,
    step3_body env w = (inl r, snd (step3_body env w)) /\
    step3_generate_reports env w = (Returned r, snd (step3_body env w)).
Proof.
  unfold step3_generate_reports, retry_with_backoff, wrapper.
  cbn [retry_2_3 max_attempts].
  change (Z.to_nat 2) with 2%nat. cbn [attempts].
  destruct (step3_body env w) as [[r|e] w1] eqn:Hbody.
  - exists r. split; reflexivity.
  - exfalso. unfold step3_body in Hbody.
    destruct (report env _); discriminate.
Qed.

(** A successful [step3_generate_reports] leaves both reports of the day
    in the output directory. *)
Lemma step3_success (env : environment) (w w3 : world)
  (s d : option file) :
  step3_generate_reports env w = (Returned (true, s, d), w3) ->
  s = Some (Summary (today env)) /\ d = Some (Detailed (today env)) /\
  In Report (invoked w3) /\
  In (Summary (today env)) (output_dir w3) /\
  In (Detailed (today env)) (output_dir w3).
Proof.
  intros Hstep.
  destruct (step3_single_attempt env w) as (r & Hbody & Hwrap).
  rewrite Hwrap in Hstep.
  assert (Hr : r = (true, s, d)) by congruence.
  assert (Hw3 : snd (step3_body env w) = w3) by congruence.
  subst r w3.
  unfold step3_body in *.
  destruct (report env (runs Report w)); cbn [snd] in *; try discriminate.
  assert (Hs : s = Some (Summary (today env))) by congruence.
  assert (Hd : d = Some (Detailed (today env))) by congruence.
  split; [exact Hs|]. split; [exact Hd|].
  cbn [write enter invoked output_dir].
  split; [|split].
  - apply in_or_app. right. now left.
  - apply in_or_app. left. apply in_or_app. right. now left.
  - apply in_or_app. right. now left.
Qed.

Lemma step2_returned (env : environment) (w w2 : world) (b : bool) :
  step2_process_data env w = (Returned b, w2) -> In Extract (invoked w2).
Proof.
  unfold step2_process_data, retry_with_backoff, wrapper. intros Hstep.
  apply RetryProps.attempts_returned in Hstep.
  destruct Hstep as (w1 & Hbody).
  unfold step2_body in Hbody.
  destruct (extract env _); [|discriminate].
  assert (Hw2 : w2 = enter Extract w1) by congruence.
  subst w2. cbn. apply in_or_app. right. now left.
Qed.

(** When the [try] block of [run] ends in success, extraction and report
    generation ran and both reports of the day are on disk. *)
Lemma workflow_success (env : environment) (w : world) :
  fst (workflow env w) = true ->
  In Extract (invoked (snd (workflow env w))) /\
  In Report (invoked (snd (workflow env w))) /\
  In (Summary (today env)) (output_dir (snd (workflow env w))) /\
  In (Detailed (today env)) (output_dir (snd (workflow env w))).
Proof.
  unfold workflow, get_vendor_numbers.
  destruct (vendors_load env); [|discriminate].
  set (w1 := snd (step1_collect_messages env (enter GetVendors w))).
  destruct (step2_process_data env w1) as [[ps| | | |] w2] eqn:H2;
    try discriminate.
  destruct (step3_generate_reports env w2) as [[[[rs sp] dp]| | | |] w3] eqn:H3;
    try discriminate.
  cbn [fst snd].
  intros Hok. apply andb_true_iff in Hok. destruct Hok as [_ Hrs].
  subst rs.
  destruct (step3_success env w2 w3 sp dp H3) as (-> & -> & Hrep & Hs & Hd).
  pose proof (step2_returned env w1 w2 ps H2) as Hext.
  pose proof (wrapper_grows retry_2_3 (uniform env) (step3_body env)
                (step3_body_grows env) w2) as Hg3.
  fold (step3_generate_reports env) in Hg3. rewrite H3 in Hg3.
  cbn [snd] in Hg3.
  pose proof (wrapper_grows retry_3_5 (uniform env)
                (step4_body env (Summary (today env)) (Detailed (today env)))
                (step4_body_grows env _ _) w3) as [Hi4 Ho4].
  fold (step4_send_to_ceo env (Summary (today env)) (Detailed (today env)))
    in Hi4, Ho4.
  repeat split.
  - apply Hi4. now apply Hg3.
  - now apply Hi4.
  - now apply Ho4.
  - now apply Ho4.
Qed.

Lemma early_only_refl (w : world) : early_only w w.
Proof. split; [reflexivity|]. intros s Hs. now left. Qed.

Lemma early_only_trans (w1 w2 w3 : world) :
  early_only w1 w2 -> early_only w2 w3 -> early_only w1 w3.
Proof.
  intros [Ho1 Hi1] [Ho2 Hi2]. split; [congruence|].
  intros s Hs.
  destruct (Hi2 s Hs) as [Hs2|Hs2]; [now apply Hi1|now right].
Qed.

Lemma early_only_enter (s : stage) (w : world) :
  s = GetVendors \/ s = Collect \/ s = Extract -> early_only w (enter s w).
Proof.
  intros Hs. split; [reflexivity|].
  intros s' Hs'. cbn in Hs'.
  apply in_app_or in Hs'. destruct Hs' as [Hs'|[<-|[]]]; [now left|now right].
Qed.

Lemma early_only_step1 (env : environment) (w : world) :
  early_only w (snd (step1_collect_messages env w)).
Proof.
  unfold step1_collect_messages, retry_with_backoff, wrapper.
  apply RetryProps.attempts_preserves.
  - exact early_only_refl.
  - exact early_only_trans.
  - intros w'. unfold step1_body.
    destruct (collect env _); apply early_only_enter; auto.
  - intros d w'. split; [reflexivity|]. intros s Hs. now left.
Qed.

Lemma early_only_step2 (env : environment) (w : world) :
  early_only w (snd (step2_process_data env w)).
Proof.
  unfold step2_process_data, retry_with_backoff, wrapper.
  apply RetryProps.attempts_preserves.
  - exact early_only_refl.
  - exact early_only_trans.
  - intros w'. unfold step2_body.
    destruct (extract env _); apply early_only_enter; auto.
  - intros d w'. split; [reflexivity|]. intros s Hs. now left.
Qed.

(** Whenever [step2_process_data] does not return, the run stops there:
    no later stage runs, the status is FAILURE, and the exit code is
    decided by the summaries the output directory already held. *)
Lemma extract_failure_outcome (env : environment) (files : list file) :
  constructs env = true ->
  vendors_load env = true ->
  (forall r,
      fst (step2_process_data env
             (snd (step1_collect_messages env
                     (enter GetVendors (initial_world files)))))
      <> Returned r) ->
  ~ In Report (invoked (snd (main env (initial_world files)))) /\
  ~ In Deliver (invoked (snd (main env (initial_world files)))) /\
  status (snd (main env (initial_world files))) = "FAILURE" /\
  fst (main env (initial_world files)) =
  (if existsb is_summary files then 1%Z else 2%Z).
Proof.
  intros Hconstructs Hload Hraise.
  unfold main. rewrite Hconstructs.
  unfold run, workflow, get_vendor_numbers. rewrite Hload.
  set (w0 := enter GetVendors (initial_world files)) in *.
  set (w1 := snd (step1_collect_messages env w0)) in *.
  assert (Hearly : early_only (initial_world files)
                              (snd (step2_process_data env w1))).
  { apply (early_only_trans _ w0); [apply early_only_enter; now left|].
    apply (early_only_trans _ w1); [apply early_only_step1|].
    apply early_only_step2. }
  destruct (step2_process_data env w1) as [o2 w2].
  cbn [fst snd] in Hraise, Hearly.
  destruct Hearly as [Hout Hinv]. cbn [initial_world output_dir invoked] in *.
  assert (Hlate : forall s, s = Report \/ s = Deliver -> ~ In s (invoked w2)).
  { intros s Hs Hin.
    destruct (Hinv s Hin) as [[]|Hearly].
    destruct Hs as [-> | ->], Hearly as [H|[H|H]]; discriminate H. }
  destruct o2 as [r| | | |]; [now destruct (Hraise r)| | | |];
    cbn [fst snd _generate_final_report invoked output_dir status];
    rewrite Hout; repeat split; auto.
Qed.

(** C5, on the code: when [step2_process_data] raises at both attempts,
    neither the Report nor the Deliver stage runs and the status is
    FAILURE; the exit code is 2 when the output directory is empty, but 1
    as soon as it holds a [daily_summary_*.txt] of an earlier day. *)
Theorem C5_extract_failure_exit_depends_on_old_summary :
  main extract_down (initial_world []) =
  (2%Z, World [GetVendors; Collect; Extract; Extract] [] [3] "FAILURE") /\
  main extract_down (initial_world yesterday) =
  (1%Z, World [GetVendors; Collect; Extract; Extract] yesterday [3]
              "FAILURE") /\
  exit_meaning 1 = "PARTIAL".
Proof.
  split; [vm_compute; reflexivity|].
  split; vm_compute; reflexivity.
Qed.

(** C6, as stated, fails: when the collection stage fails at all three
    attempts and the other stages succeed, the exit code is 0, not 1. *)
Lemma C6_collection_failure_exits_0 :
  (exists e, fst (step1_collect_messages collect_down
                    (enter GetVendors (initial_world []))) = Raised e) /\
  main collect_down (initial_world []) =
  (0%Z, World [GetVendors; Collect; Collect; Collect; Extract; Report; Deliver]
              [Summary 20261103; Detailed 20261103] [5; 10] "SUCCESS").
Proof.
  split.
  - exists (StageError Collect). vm_compute. reflexivity.
  - vm_compute. reflexivity.
Qed.

(** C6, amended: a run in which the collection stage failed while
    extraction, report generation and delivery succeeded exits with
    code 0; exit code 0 is produced only when extraction and report
    generation ran and both reports of the day are in the output
    directory; exit code 1 only when the output directory holds a summary
    report, and exit code 2 only when it holds none. *)
Theorem C6_exit_codes (env : environment) (files : list file)
  (Hconstructs : constructs env = true) :
  let w0 := enter GetVendors (initial_world files) in
  let w1 := snd (step1_collect_messages env w0) in
  let w2 := snd (step2_process_data env w1) in
  let w3 := snd (step3_generate_reports env w2) in
  let code := fst (main env (initial_world files)) in
  let final := snd (main env (initial_world files)) in
  (vendors_load env = true ->
   (exists e, fst (step1_collect_messages env w0) = Raised e) ->
   fst (step2_process_data env w1) = Returned true ->
   fst (step3_generate_reports env w2) =
   Returned (true, Some (Summary (today env)), Some (Detailed (today env))) ->
   fst (step4_send_to_ceo env (Summary (today env)) (Detailed (today env)) w3)
   = Returned true ->
   code = 0%Z) /\
  (code = 0%Z ->
   In Extract (invoked final) /\ In Report (invoked final) /\
   In (Summary (today env)) (output_dir final) /\
   In (Detailed (today env)) (output_dir final)) /\
  (code = 1%Z -> exists d, In (Summary d) (output_dir final)) /\
  (code = 2%Z -> forall d, ~ In (Summary d) (output_dir final)).
Proof.
  intros w0 w1 w2 w3 code final.
  subst code final.
  unfold main. rewrite Hconstructs. unfold run.
  split; [|split; [|split]].
  - intros Hload _ Hstep2 Hstep3 _.
    subst w0 w1 w2 w3.
    unfold workflow, get_vendor_numbers. rewrite Hload.
    destruct (step2_process_data env _) as [o2 w2].
    cbn [fst snd] in *. subst o2.
    destruct (step3_generate_reports env w2) as [o3 w3].
    cbn [fst snd] in *. subst o3.
    reflexivity.
  - pose proof (workflow_success env (initial_world files)) as Hsucc.
    destruct (workflow env (initial_world files)) as [ok wf].
    cbn [fst snd _generate_final_report output_dir invoked] in *.
    destruct ok; [intros _; now apply Hsucc|].
    destruct (existsb is_summary (output_dir wf)); intros Hx; discriminate Hx.
  - destruct (workflow env (initial_world files)) as [ok wf].
    cbn [fst snd _generate_final_report output_dir invoked].
    destruct ok; [intros Hx; discriminate Hx|].
    destruct (existsb is_summary (output_dir wf)) eqn:Hex; [|intros Hx; discriminate Hx].
    intros _.
    apply existsb_exists in Hex. destruct Hex as ([d|d] & Hin & Hsum);
      [|discriminate].
    now exists d.
  - destruct (workflow env (initial_world files)) as [ok wf].
    cbn [fst snd _generate_final_report output_dir invoked].
    destruct ok; [intros Hx; discriminate Hx|].
    destruct (existsb is_summary (output_dir wf)) eqn:Hex; [intros Hx; discriminate Hx|].
    intros _ d Hin.
    assert (Htrue : existsb is_summary (output_dir wf) = true).
    { apply existsb_exists. exists (Summary d). now split. }
    congruence.
Qed.

(** Instances: collection down, and extraction down with and without the
    reports of the day before. *)
Lemma C6_exit_codes_witness :
  fst (main collect_down (initial_world [])) = 0%Z /\
  (forall d,
      ~ In (Summary d) (output_dir (snd (main extract_down (initial_world []))))) /\
  (exists d,
      In (Summary d)
         (output_dir (snd (main extract_down (initial_world yesterday))))).
Proof.
  split; [|split].
  - refine (proj1 (C6_exit_codes collect_down [] eq_refl) _ _ _ _ _).
    + reflexivity.
    + exists (StageError Collect). vm_compute. reflexivity.
    + vm_compute. reflexivity.
    + vm_compute. reflexivity.
    + vm_compute. reflexivity.
  - refine (proj2 (proj2 (proj2 (C6_exit_codes extract_down [] eq_refl))) _).
    vm_compute. reflexivity.
  - refine (proj1 (proj2 (proj2 (C6_exit_codes extract_down yesterday
                                                eq_refl))) _).
    vm_compute. reflexivity.
Defined.

(** C8, on the code: [step3_generate_reports] returns
    [(False, None, None)] when the report engine fails, so its retry
    wrapper never sees a failure: the body runs once per call, whatever
    the engine did.  In a run whose report stage fails the Report body
    runs once, the Deliver body is not entered and the run fails. *)
Theorem C8_report_failure_is_not_retried (env : environment) (w : world) :
  (exists r,
      step3_generate_reports env w = (Returned r, snd (step3_body env w))) /\
  runs Report (snd (step3_generate_reports env w)) = S (runs Report w) /\
  step3_generate_reports report_down (initial_world []) =
  (Returned (false, None, None), World [Report] [] [] "RUNNING") /\
  main report_down (initial_world []) =
  (2%Z, World [GetVendors; Collect; Extract; Report] [] [] "FAILURE").
Proof.
  destruct (step3_single_attempt env w) as (r & Hbody & Hwrap).
  split; [now exists r|].
  split; [|split; vm_compute; reflexivity].
  rewrite Hwrap. cbn [snd].
  unfold step3_body.
  destruct (report env _); cbn [snd]; apply runs_enter.
Qed.

End OrchestratorProps.

(** ** The retry loop in general *)

Module RetryLoopProps.

Import Retry RetrySpec RetryLoopSpec.

Lemma jitter_factor_nonneg (config : RetryConfig) (uniform : Z -> Q) (i : Z) :
  in_jitter_range uniform -> 0 <= jitter_factor config uniform i.
Proof.
  intros Hr.
  destruct (RetryProps.jitter_factor_range config uniform i Hr) as [Hlo _].
  apply Qle_trans with (8 # 10); [unfold Qle; cbn; lia|exact Hlo].
Qed.

Lemma sleep_allowed (config : RetryConfig) (uniform : Z -> Q) (i : Z)
  (delay : Q) :
  in_jitter_range uniform -> 0 <= max_delay config -> 0 <= delay ->
  allowed_sleep config
    (Qmin (delay * jitter_factor config uniform i) (max_delay config)).
Proof.
  intros Hr Hmax Hd. split.
  - apply Q.min_glb; [|exact Hmax].
    apply Qmult_le_0_compat; [exact Hd|now apply jitter_factor_nonneg].
  - apply Q.le_min_r.
Qed.

Lemma sleep_within_limit (config : RetryConfig) (d : Q) :
  max_delay config <= SLEEP_MAX -> allowed_sleep config d -> d <= SLEEP_LIMIT.
Proof.
  intros Hmax [_ Hd].
  apply Qle_trans with (max_delay config); [exact Hd|].
  apply Qle_trans with SLEEP_MAX;
    [exact Hmax|exact RetryProps.SLEEP_MAX_below_limit].
Qed.

Lemma probe_sleep_eq (d : Q) (c : nat) (sl : list Q) :
  probe_sleep d (Probe c sl) = Probe c (sl ++ [d]).
Proof. reflexivity. Qed.

Section Scripted.

Context {A E : Type}.
Variable config : RetryConfig.
Variable uniform : Z -> Q.
Variable script : nat -> A + E.
Hypothesis Hdelays : accepted_delays config.
Hypothesis Hjitter : in_jitter_range uniform.

(** The loop on an operation that fails [j] more times and then returns. *)
Lemma attempts_until_success (j : nat) :
  forall (remaining : nat) (i : Z) (delay : Q) (last : option E)
         (c : nat) (sl : list Q) (a : A),
    0 <= delay ->
    (i + Z.of_nat remaining = max_attempts config + 1)%Z ->
    (j < remaining)%nat ->
    (forall m, (m < j)%nat -> exists e, script (c + m) = inr e) ->
    script (c + j) = inl a ->
    exists new,
      attempts config uniform probe_sleep (scripted script) remaining i delay
               last (Probe c sl)
      = (Returned a, Probe (c + j + 1) (sl ++ new)) /\
      List.length new = j /\ Forall (allowed_sleep config) new.
Proof.
  destruct Hdelays as (_ & Hbm & Hmax & Hlim).
  induction j as [|j IH]; intros remaining i delay last c sl a Hd Hi Hj Hfail Hok.
  - destruct remaining as [|r]; [lia|].
    exists []. split; [|split; [reflexivity|constructor]].
    rewrite (RetryProps.attempts_return config uniform probe_sleep
               (scripted script) r i delay last (Probe c sl) (Probe (S c) sl) a).
    + rewrite app_nil_r. do 2 f_equal. lia.
    + unfold scripted. cbn. rewrite Nat.add_0_r in Hok. now rewrite Hok.
  - destruct remaining as [|r]; [lia|].
    destruct (Hfail 0%nat ltac:(lia)) as [e He].
    rewrite Nat.add_0_r in He.
    pose proof (sleep_allowed config uniform i delay Hjitter Hmax Hd) as Hsl.
    rewrite (RetryProps.attempts_retry config uniform probe_sleep
               (scripted script) r i delay last (Probe c sl) (Probe (S c) sl) e);
      [|unfold scripted; cbn; now rewrite He|lia|apply Hsl|
       exact (sleep_within_limit config _ Hlim Hsl)].
    rewrite probe_sleep_eq.
    destruct (IH r (i + 1)%Z (delay * backoff_multiplier config) (Some e)
                 (S c) (sl ++ [Qmin (delay * jitter_factor config uniform i)
                                    (max_delay config)]) a)
      as (new & Hrun & Hlen & Hall).
    + now apply Qmult_le_0_compat.
    + lia.
    + lia.
    + intros m Hm. destruct (Hfail (S m) ltac:(lia)) as [e' He'].
      exists e'. rewrite <- He'. f_equal. lia.
    + rewrite <- Hok. f_equal. lia.
    + eexists. split; [|split].
      * rewrite Hrun. rewrite <- app_assoc. cbn [app].
        do 2 f_equal. lia.
      * cbn [List.length]. now rewrite Hlen.
      * constructor; assumption.
Qed.

(** The loop on an operation that fails at every remaining attempt. *)
Lemma attempts_until_exhausted (r : nat) :
  forall (i : Z) (delay : Q) (last : option E) (c : nat) (sl : list Q)
         (e_last : E),
    0 <= delay ->
    (i + Z.of_nat (S r) = max_attempts config + 1)%Z ->
    (forall m, (m < r)%nat -> exists e, script (c + m) = inr e) ->
    script (c + r) = inr e_last ->
    exists new,
      attempts config uniform probe_sleep (scripted script) (S r) i delay
               last (Probe c sl)
      = (Raised e_last, Probe (c + r + 1) (sl ++ new)) /\
      List.length new = r /\ Forall (allowed_sleep config) new.
Proof.
  destruct Hdelays as (_ & Hbm & Hmax & Hlim).
  induction r as [|r IH]; intros i delay last c sl e_last Hd Hi Hfail Hlast.
  - exists []. split; [|split; [reflexivity|constructor]].
    rewrite Nat.add_0_r in Hlast.
    rewrite (RetryProps.attempts_give_up config uniform probe_sleep
               (scripted script) 0 i delay last (Probe c sl) (Probe (S c) sl)
               e_last);
      [|unfold scripted; cbn; now rewrite Hlast|lia].
    cbn [attempts]. rewrite app_nil_r. do 2 f_equal. lia.
  - destruct (Hfail 0%nat ltac:(lia)) as [e He].
    rewrite Nat.add_0_r in He.
    pose proof (sleep_allowed config uniform i delay Hjitter Hmax Hd) as Hsl.
    rewrite (RetryProps.attempts_retry config uniform probe_sleep
               (scripted script) (S r) i delay last (Probe c sl)
               (Probe (S c) sl) e);
      [|unfold scripted; cbn; now rewrite He|lia|apply Hsl|
       exact (sleep_within_limit config _ Hlim Hsl)].
    rewrite probe_sleep_eq.
    destruct (IH (i + 1)%Z (delay * backoff_multiplier config) (Some e)
                 (S c) (sl ++ [Qmin (delay * jitter_factor config uniform i)
                                    (max_delay config)]) e_last)
      as (new & Hrun & Hlen & Hall).
    + now apply Qmult_le_0_compat.
    + lia.
    + intros m Hm. destruct (Hfail (S m) ltac:(lia)) as [e' He'].
      exists e'. rewrite <- He'. f_equal. lia.
    + rewrite <- Hlast. f_equal. lia.
    + eexists. split; [|split].
      * rewrite Hrun. rewrite <- app_assoc. cbn [app].
        do 2 f_equal. lia.
      * cbn [List.length]. now rewrite Hlen.
      * constructor; assumption.
Qed.

End Scripted.

(** More ways an iteration goes: [time.sleep] raises, and the error
    leaves the wrapper at once. *)
Lemma attempts_sleep_raises {W A E : Type} (config : RetryConfig)
  (uniform : Z -> Q) (sleep : Q -> W -> W) (func : W -> (A + E) * W)
  (n : nat) (i : Z) (delay : Q) (last : option E) (w w1 : W) (e : E) :
  func w = (inr e, w1) ->
  (i < max_attempts config)%Z ->
  attempts config uniform sleep func (S n) i delay last w
  = match time_sleep (Qmin (delay * jitter_factor config uniform i)
                           (max_delay config)) with
    | Slept =>
        attempts config uniform sleep func n (i + 1)%Z
                 (delay * backoff_multiplier config) (Some e)
                 (sleep (Qmin (delay * jitter_factor config uniform i)
                              (max_delay config)) w1)
    | SleepValueError => (RaisedValueError, w1)
    | SleepOverflowError => (RaisedOverflowError, w1)
    end.
Proof.
  intros Hf Hi. cbn [attempts]. rewrite Hf.
  apply Z.ltb_lt in Hi. rewrite Hi.
  fold (jitter_factor config uniform i).
  now destruct (time_sleep _).
Qed.

Lemma attempts_sleep_refused {W A E : Type} (config : RetryConfig)
  (uniform : Z -> Q) (sleep : Q -> W -> W) (func : W -> (A + E) * W)
  (n : nat) (i : Z) (delay : Q) (last : option E) (w w1 : W) (e : E) :
  func w = (inr e, w1) ->
  (i < max_attempts config)%Z ->
  Qmin (delay * jitter_factor config uniform i) (max_delay config) < 0 ->
  exists err,
    attempts config uniform sleep func (S n) i delay last w = (err, w1) /\
    (err = RaisedValueError \/ err = RaisedOverflowError) /\
    (- SLEEP_MAX <=
     Qmin (delay * jitter_factor config uniform i) (max_delay config) ->
     err = RaisedValueError).
Proof.
  intros Hf Hi Hd.
  rewrite (attempts_sleep_raises config uniform sleep func n i delay last
             w w1 e Hf Hi).
  destruct (RetryProps.time_sleep_refused _ Hd) as [Hs|Hs]; rewrite Hs.
  - exists RaisedValueError. auto.
  - exists RaisedOverflowError. split; [reflexivity|]. split; [now right|].
    intros Hrange. exfalso.
    rewrite RetryProps.time_sleep_negative in Hs; [discriminate|exact Hd|].
    apply Qle_trans with (- SLEEP_MAX); [|exact Hrange].
    unfold Qle. cbn. lia.
Qed.

(** The loop on any scripted operation: what it never exceeds. *)
Lemma attempts_bounds {A E : Type} (config : RetryConfig) (uniform : Z -> Q)
  (script : nat -> A + E) (remaining : nat) :
  forall (i : Z) (delay : Q) (last : option E) (c : nat) (sl : list Q),
    (i + Z.of_nat remaining = max_attempts config + 1)%Z ->
    exists new,
      slept (snd (attempts config uniform probe_sleep (scripted script)
                           remaining i delay last (Probe c sl))) = sl ++ new /\
      Forall (allowed_sleep config) new /\
      (List.length new <= pred remaining)%nat /\
      (invocations (snd (attempts config uniform probe_sleep (scripted script)
                                  remaining i delay last (Probe c sl)))
       <= c + remaining)%nat.
Proof.
  induction remaining as [|r IH]; intros i delay last c sl Hi.
  - exists []. cbn. rewrite app_nil_r.
    split; [reflexivity|split; [constructor|split; lia]].
  - destruct (script c) as [a|e] eqn:Hs.
    + rewrite (RetryProps.attempts_return config uniform probe_sleep
                 (scripted script) r i delay last (Probe c sl)
                 (Probe (S c) sl) a)
        by (unfold scripted; cbn; now rewrite Hs).
      exists []. cbn. rewrite app_nil_r.
      split; [reflexivity|split; [constructor|split; lia]].
    + assert (Hf : scripted script (Probe c sl) = (inr e, Probe (S c) sl))
        by (unfold scripted; cbn; now rewrite Hs).
      destruct (Z_lt_le_dec i (max_attempts config)) as [Hlt|Hge].
      * rewrite (attempts_sleep_raises config uniform probe_sleep
                   (scripted script) r i delay last _ _ e Hf Hlt).
        destruct (time_sleep _) eqn:Hsleep.
        2,3: exists []; cbn; rewrite app_nil_r;
             (split; [reflexivity|split; [constructor|split; lia]]).
        destruct (RetryProps.time_sleep_slept _ Hsleep) as [Hpos _].
        -- rewrite probe_sleep_eq.
           destruct (IH (i + 1)%Z (delay * backoff_multiplier config) (Some e)
                        (S c)
                        (sl ++ [Qmin (delay * jitter_factor config uniform i)
                                     (max_delay config)]))
             as (new & Hsl & Hall & Hlen & Hinv); [lia|].
           eexists. split; [rewrite Hsl, <- app_assoc; reflexivity|].
           split; [|split; [cbn [List.length app]; lia|lia]].
           constructor; [|exact Hall].
           split; [exact Hpos|apply Q.le_min_r].
      * rewrite (RetryProps.attempts_give_up config uniform probe_sleep
                   (scripted script) r i delay last _ _ e Hf Hge).
        destruct (IH (i + 1)%Z delay (Some e) (S c) sl)
          as (new & Hsl & Hall & Hlen & Hinv); [lia|].
        exists new.
        split; [exact Hsl|split; [exact Hall|split; lia]].
Qed.





(** X3: whatever the configuration, the jitter and the operation, the
    wrapper never invokes the operation more than [max_attempts] times,
    never sleeps more than [max_attempts - 1] times, and every sleep lies
    between 0 and [max_delay]. *)
Theorem retry_never_exceeds_its_budget
  {A E : Type} (config : RetryConfig) (uniform : Z -> Q)
  (script : nat -> A + E) :
  exists sleeps,
    slept (snd (wrapper config uniform probe_sleep (scripted script)
                        (Probe 0 []))) = sleeps /\
    Forall (allowed_sleep config) sleeps /\
    (List.length sleeps <= pred (Z.to_nat (max_attempts config)))%nat /\
    (invocations (snd (wrapper config uniform probe_sleep (scripted script)
                               (Probe 0 [])))
     <= Z.to_nat (max_attempts config))%nat.
Proof.
  unfold wrapper.
  destruct (Z.to_nat (max_attempts config)) as [|r] eqn:Hn.
  - exists []. cbn. split; [reflexivity|split; [constructor|split; lia]].
  - destruct (attempts_bounds config uniform script (S r) 1%Z
                (initial_delay config) None 0%nat [])
      as (new & Hsl & Hall & Hlen & Hinv); [lia|].
    exists new. cbn [app Nat.add] in *. auto.
Qed.

(** X4: with [max_attempts <= 0] the loop body never runs: the operation
    is not invoked and the wrapper ends in [raise None], a TypeError. *)
Theorem retry_without_attempts_raises_type_error
  {W A E : Type} (config : RetryConfig) (uniform : Z -> Q)
  (sleep : Q -> W -> W) (func : W -> (A + E) * W) (w : W)
  (Hmax : (max_attempts config <= 0)%Z) :
  wrapper config uniform sleep func w = (RaisedTypeError, w).
Proof.
  unfold wrapper.
  replace (Z.to_nat (max_attempts config)) with 0%nat by lia.
  reflexivity.
Qed.

Lemma retry_without_attempts_raises_type_error_witness :
  wrapper zero_attempts (fun _ => 1) probe_sleep (scripted always_failing)
          (Probe 0 [])
  = (RaisedTypeError, Probe 0 []).
Proof.
  apply (retry_without_attempts_raises_type_error zero_attempts).
  cbn. lia.
Defined.

(** X5: with a negative [initial_delay] and a second attempt allowed, a
    first failure is not retried: [time.sleep] refuses the delay, so the
    wrapper ends after a single invocation in an error of [time.sleep],
    not of the operation: a ValueError, or an OverflowError when the
    delay is beyond what [time.sleep] converts; it is the ValueError
    whenever the delay is not below [- SLEEP_MAX]. *)
Theorem retry_negative_delay_is_refused
  {W A E : Type} (config : RetryConfig) (uniform : Z -> Q)
  (sleep : Q -> W -> W) (func : W -> (A + E) * W) (w w1 : W) (e : E)
  (Hmax : (1 < max_attempts config)%Z)
  (Hjitter : in_jitter_range uniform)
  (Hdelay : initial_delay config < 0)
  (Hfail : func w = (inr e, w1)) :
  exists err,
    wrapper config uniform sleep func w = (err, w1) /\
    (err = RaisedValueError \/ err = RaisedOverflowError) /\
    (- SLEEP_MAX <=
     Qmin (initial_delay config * jitter_factor config uniform 1)
          (max_delay config) ->
     err = RaisedValueError).
Proof.
  unfold wrapper.
  destruct (Z.to_nat (max_attempts config)) as [|r] eqn:Hn; [lia|].
  apply (attempts_sleep_refused config uniform sleep func r 1 _ None w w1 e
           Hfail Hmax).
  eapply Qle_lt_trans; [apply Q.le_min_l|].
  destruct (RetryProps.jitter_factor_range config uniform 1 Hjitter)
    as [Hlo _].
  assert (Hpos : 0 < jitter_factor config uniform 1).
  { eapply Qlt_le_trans; [|exact Hlo]. reflexivity. }
  rewrite <- (Qmult_0_l (jitter_factor config uniform 1)).
  now apply Qmult_lt_compat_r.
Qed.

(** An instance: [RetryConfig(initial_delay=-1)] on an operation that is
    down. *)
Lemma retry_negative_delay_is_refused_witness :
  exists err,
    wrapper negative_delay (fun _ => 1) probe_sleep (scripted always_failing)
            (Probe 0 [])
    = (err, Probe 1 []) /\
    (err = RaisedValueError \/ err = RaisedOverflowError) /\
    (- SLEEP_MAX <=
     Qmin (initial_delay negative_delay *
           jitter_factor negative_delay (fun _ => 1) 1)
          (max_delay negative_delay) ->
     err = RaisedValueError).
Proof.
  apply (retry_negative_delay_is_refused negative_delay (fun _ => 1)
           probe_sleep (scripted always_failing) (Probe 0 []) (Probe 1 [])
           "down").
  - cbn. lia.
  - intros i; split; unfold Qle; cbn; lia.
  - reflexivity.
  - reflexivity.
Defined.

End RetryLoopProps.

(** ** The circuit breaker over sequences of calls *)

Module BreakerRunProps.

Import CircuitBreaker CircuitBreakerClock BreakerRunSpec.

Section Runs.

Context {W A E : Type}.
Variable expected_exception : E -> bool.

Lemma call_consistent (threshold timeout : Z) (cb : breaker)
  (now_check now_fail : Q) (op : W -> (A + E) * W) (w : W) :
  consistent threshold timeout cb ->
  consistent threshold timeout
    (snd (fst (call expected_exception cb now_check now_fail op w))).
Proof.
  intros (Hth & Hto & Hcount & Hopen).
  assert (Hcases :
            state cb = CLOSED \/
            ((threshold <= failure_count cb)%Z /\
             last_failure_time cb <> None)).
  { destruct (state cb); [now left|right; apply Hopen; congruence ..]. }
  unfold call, _on_success, _on_failure.
  destruct cb as [th to count last st]. cbn in *. subst th to.
  destruct st; cbn [is_open];
    try destruct (_should_attempt_reset _ now_check);
    try destruct (op w) as [[r|e] w1];
    try destruct (expected_exception e);
    cbn [failure_threshold recovery_timeout failure_count last_failure_time
         state];
    destruct (Z.leb_spec threshold (count + 1)) as [Hle|Hle];
    cbn; unfold consistent; cbn;
    (split; [reflexivity|split; [reflexivity|split; [lia|]]]);
    intros Hst; try congruence;
    try (destruct Hcases as [Hc|[Hge Hl]]; [congruence|]);
    (split; [lia|congruence]).
Qed.

(** X6: every breaker reached from the constructor by any sequence of
    calls keeps its threshold and timeout, and is OPEN or HALF_OPEN only
    with at least [failure_threshold] counted failures and a recorded
    failure time. *)
Theorem breaker_stays_consistent (threshold timeout : Z)
  (calls : list (@request W A E)) (w : W) :
  consistent threshold timeout
    (fst (drive expected_exception (__init__ threshold timeout) calls w)).
Proof.
  assert (Hinit : consistent threshold timeout (__init__ threshold timeout)).
  { unfold consistent, __init__. cbn.
    repeat split; try lia; congruence. }
  revert Hinit. generalize (__init__ threshold timeout) as cb. revert w.
  induction calls as [|[[now_check now_fail] op] rest IH]; intros w cb Hcb.
  - exact Hcb.
  - cbn [drive].
    pose proof (call_consistent threshold timeout cb now_check now_fail op w
                  Hcb) as Hstep.
    destruct (call expected_exception cb now_check now_fail op w)
      as [[r cb1] w1].
    apply IH. exact Hstep.
Qed.

Lemma drive_failures (threshold timeout : Z)
  (calls : list (@request W A E)) :
  forall (cb : breaker) (w : W),
    Forall (fails expected_exception) calls ->
    failure_threshold cb = threshold ->
    recovery_timeout cb = timeout ->
    state cb = CLOSED ->
    (failure_count cb + Z.of_nat (List.length calls) < threshold)%Z ->
    exists t,
      fst (drive expected_exception cb calls w)
      = Breaker threshold timeout
                (failure_count cb + Z.of_nat (List.length calls)) t CLOSED.
Proof.
  induction calls as [|[[now_check now_fail] op] rest IH];
    intros cb w Hall Hth Hto Hstate Hlt.
  - exists (last_failure_time cb). cbn.
    destruct cb; cbn in *. subst. f_equal. lia.
  - apply Forall_cons_iff in Hall. destruct Hall as [Hrq Hall].
    destruct (Hrq w) as (e & w1 & Hop & Hexp). cbn [snd] in Hop.
    cbn [drive]. unfold call. rewrite Hstate. cbn [is_open].
    rewrite Hop, Hexp. unfold _on_failure.
    cbn [List.length] in Hlt.
    assert (Hle : (failure_threshold cb <=? failure_count cb + 1)%Z = false)
      by (apply Z.leb_gt; lia).
    rewrite Hle, Hstate. cbn [is_open state].
    destruct (IH (Breaker (failure_threshold cb) (recovery_timeout cb)
                          (failure_count cb + 1) (Some now_fail) CLOSED) w1
                 Hall Hth Hto eq_refl) as [t Ht].
    + cbn. lia.
    + exists t. rewrite Ht. cbn. f_equal. cbn [List.length]. lia.
Qed.

Lemma drive_app (cb : breaker) (l1 l2 : list (@request W A E)) (w : W) :
  drive expected_exception cb (l1 ++ l2) w =
  drive expected_exception (fst (drive expected_exception cb l1 w)) l2
        (snd (drive expected_exception cb l1 w)).
Proof.
  revert cb w.
  induction l1 as [|[[now_check now_fail] op] l1 IH]; intros cb w;
    [reflexivity|].
  cbn [app drive].
  destruct (call expected_exception cb now_check now_fail op w)
    as [[r cb1] w1].
  apply IH.
Qed.

(** X7: a breaker opens exactly at the [failure_threshold]-th consecutive
    failure: after fewer failed calls a fresh breaker is still CLOSED with
    that many failures counted, and the failure that reaches the threshold
    leaves it OPEN with the time of that failure recorded. *)
Theorem breaker_opens_at_threshold (threshold timeout : Z)
  (calls : list (@request W A E)) (rq : @request W A E) (w : W)
  (Hcalls : Forall (fails expected_exception) calls)
  (Hrq : fails expected_exception rq)
  (Hlen : (Z.of_nat (List.length calls) + 1 = threshold)%Z) :
  (forall k, (k <= List.length calls)%nat ->
     exists t,
       fst (drive expected_exception (__init__ threshold timeout)
                  (firstn k calls) w)
       = Breaker threshold timeout (Z.of_nat k) t CLOSED) /\
  fst (drive expected_exception (__init__ threshold timeout)
             (calls ++ [rq]) w)
  = Breaker threshold timeout threshold (Some (snd (fst rq))) OPEN.
Proof.
  assert (Hprefix : forall k, (k <= List.length calls)%nat ->
     exists t,
       fst (drive expected_exception (__init__ threshold timeout)
                  (firstn k calls) w)
       = Breaker threshold timeout (Z.of_nat k) t CLOSED).
  { intros k Hk.
    destruct (drive_failures threshold timeout (firstn k calls)
                (__init__ threshold timeout) w) as [t Ht].
    - rewrite <- (firstn_skipn k calls) in Hcalls.
      apply Forall_app in Hcalls. apply Hcalls.
    - reflexivity.
    - reflexivity.
    - reflexivity.
    - rewrite length_firstn. cbn. lia.
    - exists t. rewrite Ht, length_firstn. cbn.
      f_equal. lia. }
  split; [exact Hprefix|].
  rewrite drive_app.
  destruct (Hprefix (List.length calls) (le_n _)) as [t Ht].
  rewrite firstn_all in Ht. rewrite Ht.
  destruct rq as [[now_check now_fail] op].
  destruct (Hrq (snd (drive expected_exception (__init__ threshold timeout)
                            calls w))) as (e & w1 & Hop & Hexp).
  cbn [snd fst] in *.
  cbn [drive]. unfold call. cbn [is_open state].
  rewrite Hop, Hexp. unfold _on_failure.
  cbn [failure_threshold recovery_timeout failure_count state].
  assert (Hle : (threshold <=? Z.of_nat (List.length calls) + 1)%Z = true)
    by (apply Z.leb_le; lia).
  rewrite Hle. cbn. f_equal. exact Hlen.
Qed.

(** X8: a call whose operation returns leaves the breaker CLOSED with no
    failure counted, whatever the breaker was before: only consecutive
    failures add up. *)
Theorem breaker_success_resets (cb : breaker) (now_check now_fail : Q)
  (op : W -> (A + E) * W) (w : W) (r : A)
  (Hok : fst (fst (call expected_exception cb now_check now_fail op w))
         = Ok r) :
  state (snd (fst (call expected_exception cb now_check now_fail op w)))
  = CLOSED /\
  failure_count (snd (fst (call expected_exception cb now_check now_fail op w)))
  = 0%Z.
Proof.
  revert Hok. unfold call, _on_success, _on_failure.
  destruct (state cb) eqn:Hstate; cbn [is_open];
    try destruct (_should_attempt_reset cb now_check);
    try destruct (op w) as [[r0|e] w1];
    try destruct (expected_exception e);
    cbn [failure_threshold recovery_timeout failure_count state];
    try destruct (Z.leb _ _);
    cbn; rewrite ?Hstate; intros Hok; try discriminate Hok; now split.
Qed.

End Runs.

(** An instance: two failures open a breaker of threshold 2. *)
Lemma breaker_opens_at_threshold_witness :
  (forall k, (k <= 1)%nat ->
     exists t,
       fst (drive (fun _ : string => true) (__init__ 2 60)
                  (firstn k [down_at 0]) 0%nat)
       = Breaker 2 60 (Z.of_nat k) t CLOSED) /\
  fst (drive (fun _ : string => true) (__init__ 2 60)
             ([down_at 0] ++ [down_at 1]) 0%nat)
  = Breaker 2 60 2 (Some 1) OPEN.
Proof.
  apply (breaker_opens_at_threshold (fun _ : string => true) 2 60
           [down_at 0] (down_at 1) 0%nat).
  - constructor; [|constructor].
    intros w. exists "down", (S w). split; reflexivity.
  - intros w. exists "down", (S w). split; reflexivity.
  - reflexivity.
Defined.

(** An instance: the trial call of a breaker that was OPEN. *)
Lemma breaker_success_resets_witness :
  state (snd (fst (call (fun _ : string => true)
                        (Breaker 2 60 5 (Some 1) OPEN) 100 100
                        BreakerSpec.counted_success 0%nat)))
  = CLOSED /\
  failure_count (snd (fst (call (fun _ : string => true)
                                (Breaker 2 60 5 (Some 1) OPEN) 100 100
                                BreakerSpec.counted_success 0%nat)))
  = 0%Z.
Proof.
  apply (breaker_success_resets (fun _ : string => true)
           (Breaker 2 60 5 (Some 1) OPEN) 100 100
           BreakerSpec.counted_success 0%nat 0%nat).
  reflexivity.
Defined.

(** X9: for a breaker that has recorded a failure and whose
    [recovery_timeout] is an int that a float holds exactly, the seconds
    [_time_until_retry] reports are never negative, are 0 as soon as
    [_should_attempt_reset] holds, and never exceed
    [max(0, recovery_timeout)] when the clock has not gone back. *)
Theorem time_until_retry_bounds (cb : breaker) (t now : Q)
  (Hlast : last_failure_time cb = Some t)
  (Hexact : PyNum.exact_as_float (recovery_timeout cb)) :
  (0 <= _time_until_retry cb now)%Z /\
  (_should_attempt_reset cb now = true -> _time_until_retry cb now = 0%Z) /\
  (t <= now ->
   (_time_until_retry cb now <= Z.max 0 (recovery_timeout cb))%Z).
Proof.
  unfold _time_until_retry, _should_attempt_reset. rewrite Hlast.
  set (x := inject_Z (recovery_timeout cb) - (now - t)).
  split; [lia|split].
  - intros Hreset. apply Qle_bool_iff in Hreset.
    assert (Hx : x <= 0).
    { unfold x. apply Qle_minus_iff in Hreset.
      apply Qle_minus_iff.
      setoid_replace (0 + - (inject_Z (recovery_timeout cb) - (now - t)))
        with (now - t + - inject_Z (recovery_timeout cb)) by ring.
      exact Hreset. }
    clearbody x. unfold PyNum.py_int.
    assert (Hnum : (Qnum x <= 0)%Z).
    { unfold Qle in Hx. cbn in Hx. lia. }
    pose proof (Z.quot_le_mono (Qnum x) 0 (Z.pos (Qden x)) ltac:(lia) Hnum)
      as Hq.
    rewrite Z.quot_0_l in Hq by lia. lia.
  - intros Hclock.
    assert (Hx : x <= inject_Z (recovery_timeout cb)).
    { unfold x. apply Qle_minus_iff.
      setoid_replace (inject_Z (recovery_timeout cb)
                      + - (inject_Z (recovery_timeout cb) - (now - t)))
        with (now + - t) by ring.
      now apply Qle_minus_iff in Hclock. }
    clearbody x. unfold PyNum.py_int.
    apply Z.max_lub; [lia|].
    unfold Qle in Hx. cbn in Hx.
    destruct (Z_lt_le_dec (Qnum x) 0) as [Hneg|Hpos].
    + pose proof (Z.quot_le_mono (Qnum x) 0 (Z.pos (Qden x)) ltac:(lia)
                    ltac:(lia)) as Hq.
      rewrite Z.quot_0_l in Hq by lia. lia.
    + apply Z.le_trans with (recovery_timeout cb); [|lia].
      apply Z.quot_le_upper_bound; lia.
Qed.

(** An instance: ten seconds after the failure, fifty remain. *)
Lemma time_until_retry_bounds_witness :
  (0 <= _time_until_retry tripped 11%Q)%Z /\
  (_should_attempt_reset tripped 11 = true ->
   _time_until_retry tripped 11 = 0%Z) /\
  (1 <= 11 ->
   (_time_until_retry tripped 11%Q <= Z.max 0 (recovery_timeout tripped))%Z).
Proof.
  apply (time_until_retry_bounds tripped 1 11).
  - reflexivity.
  - unfold PyNum.exact_as_float. cbn. lia.
Defined.

End BreakerRunProps.

(** ** Inserts followed by the query *)

Module StoreInsertProps.

Import DatabaseManager DatabaseManagerLookup AutomationEngine.
Import StoreWriteSpec StoreReadSpec StoreInsertSpec.

(** The join after an insert: the old pairs, then the new row with every
    [vendors] row of its vendor_id. *)
Lemma joined_rows_insert (today : Z) (d : db)
  (vendor_id category model : string) (price : Q)
  (company unit source : string) :
  joined_rows today
    (insert_price today d vendor_id category model price company unit source)
  = joined_rows today d ++
    map (fun v => (PriceRow today vendor_id category model company price unit
                            source, v))
        (filter (fun v => String.eqb vendor_id (v_vendor_id v)) (vendors d)).
Proof.
  unfold joined_rows, insert_price. cbn [vendors daily_prices].
  rewrite filter_app, flat_map_app. f_equal.
  cbn [filter dp_date]. rewrite Z.eqb_refl. cbn [flat_map dp_vendor_id].
  now rewrite app_nil_r.
Qed.

Lemma group_min_app (js new : list (price_row * vendor)) :
  group_min (js ++ new) =
  fold_left (fun groups j => upsert j groups) new (group_min js).
Proof. unfold group_min. apply fold_left_app. Qed.

Lemma upsert_other (j g : price_row * vendor)
  (gs : list (price_row * vendor)) :
  group_key g <> group_key j -> (In g (upsert j gs) <-> In g gs).
Proof.
  intros Hkey.
  induction gs as [|h gs IH]; cbn [upsert].
  - cbn. split; [intros [Heq|[]]; congruence|intros []].
  - destruct (key_eqb (group_key h) (group_key j)) eqn:Hk.
    + apply StoreReadProps.key_eqb_eq in Hk.
      destruct (Qle_bool (price_of h) (price_of j)); [reflexivity|].
      cbn. split; intros [Heq|Hin]; auto; subst; congruence.
    + cbn. rewrite IH. reflexivity.
Qed.

Lemma upsert_keeps (j g : price_row * vendor)
  (gs : list (price_row * vendor)) :
  NoDup (map group_key gs) -> In g gs ->
  group_key j = group_key g -> price_of g <= price_of j ->
  In g (upsert j gs).
Proof.
  intros Hnd Hin Hkey Hle.
  induction gs as [|h gs IH]; [destruct Hin|].
  cbn [map] in Hnd. apply NoDup_cons_iff in Hnd. destruct Hnd as [Hh Hnd].
  cbn [upsert].
  destruct (key_eqb (group_key h) (group_key j)) eqn:Hk.
  - apply StoreReadProps.key_eqb_eq in Hk.
    destruct Hin as [->|Hin].
    + apply Qle_bool_iff in Hle. rewrite Hle. now left.
    + exfalso. apply Hh. rewrite Hk, Hkey. now apply in_map.
  - destruct Hin as [->|Hin]; [now left|right; now apply IH].
Qed.

Lemma fold_upsert_NoDup (new : list (price_row * vendor)) :
  forall gs, NoDup (map group_key gs) ->
             NoDup (map group_key
                        (fold_left (fun groups j => upsert j groups) new gs)).
Proof.
  induction new as [|j new IH]; intros gs Hnd; [exact Hnd|].
  cbn [fold_left]. apply IH. now apply StoreReadProps.upsert_keys_NoDup.
Qed.

Lemma fold_upsert_other (new : list (price_row * vendor))
  (g : price_row * vendor) :
  (forall j, In j new -> group_key g <> group_key j) ->
  forall gs,
    In g (fold_left (fun groups j => upsert j groups) new gs) <-> In g gs.
Proof.
  induction new as [|j new IH]; intros Hkeys gs; [reflexivity|].
  cbn [fold_left]. rewrite IH.
  - apply upsert_other. apply Hkeys. now left.
  - intros j' Hj'. apply Hkeys. now right.
Qed.

Lemma fold_upsert_keeps (new : list (price_row * vendor))
  (g : price_row * vendor) :
  (forall j, In j new ->
             group_key j = group_key g /\ price_of g <= price_of j) ->
  forall gs, NoDup (map group_key gs) -> In g gs ->
             In g (fold_left (fun groups j => upsert j groups) new gs).
Proof.
  induction new as [|j new IH]; intros Hnew gs Hnd Hin; [exact Hin|].
  cbn [fold_left]. apply IH.
  - intros j' Hj'. apply Hnew. now right.
  - now apply StoreReadProps.upsert_keys_NoDup.
  - destruct (Hnew j (or_introl eq_refl)) as [Hkey Hle].
    now apply upsert_keeps.
Qed.

(** X10: after [insert_price] for a vendor of the [vendors] table, the
    query has a quote for the row's (category, model, company) at no more
    than the inserted price; a quote that was at most as cheap stays as it
    was (on equal prices the earlier vendor keeps the quote); when every
    earlier quote of the group was dearer, the group's quote now carries
    the inserted price and vendor; quotes of other groups are untouched. *)
Theorem insert_then_query (today : Z) (d : db)
  (vendor_id category model : string) (price : Q)
  (company unit source : string)
  (Hknown : known_vendor d vendor_id) :
  let d' :=
    insert_price today d vendor_id category model price company unit source in
  let key := (category, model, company) in
  (exists q, In q (result today d') /\ quote_key q = key /\
             min_price q <= price) /\
  (forall q0, In q0 (result today d) -> quote_key q0 = key ->
              min_price q0 <= price -> In q0 (result today d')) /\
  ((forall q0, In q0 (result today d) -> quote_key q0 = key ->
               price < min_price q0) ->
   forall q, In q (result today d') -> quote_key q = key ->
             min_price q = price /\ DatabaseManager.vendor_id q = vendor_id) /\
  (forall q, quote_key q <> key ->
             (In q (result today d') <-> In q (result today d))).
Proof.
  intros d' key.
  set (row := PriceRow today vendor_id category model company price unit
                       source).
  set (new := map (fun v => (row, v))
                  (filter (fun v => String.eqb vendor_id (v_vendor_id v))
                          (vendors d))).
  assert (Hjoin : joined_rows today d' = joined_rows today d ++ new)
    by apply joined_rows_insert.
  assert (Hnew : forall j, In j new ->
                           fst j = row /\ v_vendor_id (snd j) = vendor_id).
  { intros j Hj. apply in_map_iff in Hj. destruct Hj as (v & <- & Hv).
    apply filter_In in Hv. destruct Hv as [_ Hid].
    apply String.eqb_eq in Hid. now split. }
  assert (Hscope : forall j, in_scope today d' j ->
                             in_scope today d j \/ In j new).
  { intros j Hj. apply StoreReadProps.joined_rows_spec in Hj.
    rewrite Hjoin in Hj. apply in_app_or in Hj.
    destruct Hj as [Hj|Hj]; [left; now apply StoreReadProps.joined_rows_spec|
                             now right]. }
  destruct (StoreReadProps.result_spec today d') as (_ & Hkeys' & Hquotes').
  destruct (StoreReadProps.result_spec today d) as (_ & _ & Hquotes).
  destruct Hknown as (v & Hv & Hid).
  assert (Hrow : in_scope today d' (row, v)).
  { apply StoreReadProps.joined_rows_spec. rewrite Hjoin.
    apply in_or_app. right. apply in_map. apply filter_In.
    split; [exact Hv|]. apply String.eqb_eq. now symmetry. }
  split; [|split; [|split]].
  - assert (Hk : In key (map quote_key (result today d'))).
    { apply Hkeys'. exists (row, v). split; [exact Hrow|reflexivity]. }
    apply in_map_iff in Hk. destruct Hk as (q & Hqk & Hq).
    exists q. split; [exact Hq|]. split; [exact Hqk|].
    destruct (Hquotes' q Hq) as [_ Hbest].
    apply (Hbest (row, v) Hrow). now rewrite Hqk.
  - intros q0 Hq0 Hkey0 Hle.
    apply StoreReadProps.result_member in Hq0.
    destruct Hq0 as (g & Hg & ->).
    apply StoreReadProps.result_member. exists g. split; [|reflexivity].
    rewrite Hjoin, group_min_app.
    destruct (StoreReadProps.groups_of_group_min (joined_rows today d))
      as [Hnd _ _].
    apply fold_upsert_keeps; [|exact Hnd|exact Hg].
    intros j Hj. destruct (Hnew j Hj) as [Hfst _].
    rewrite StoreReadProps.quote_key_to_quote in Hkey0.
    rewrite StoreReadProps.min_price_to_quote in Hle.
    split.
    + rewrite Hkey0. unfold group_key. now rewrite Hfst.
    + unfold price_of at 2. now rewrite Hfst.
  - intros Hdearer q Hq Hqk.
    destruct (Hquotes' q Hq) as [(j & Hj & ->) Hbest].
    rewrite StoreReadProps.quote_key_to_quote in Hqk.
    destruct (Hscope j Hj) as [Hold|Hin].
    + exfalso.
      assert (Hk : In (group_key j) (map quote_key (result today d))).
      { destruct (StoreReadProps.result_spec today d) as (_ & Hkeys & _).
        apply Hkeys. now exists j. }
      apply in_map_iff in Hk. destruct Hk as (q0 & Hq0k & Hq0).
      specialize (Hdearer q0 Hq0 ltac:(congruence)).
      destruct (Hquotes q0 Hq0) as [_ Hbest0].
      specialize (Hbest0 j Hold ltac:(congruence)).
      specialize (Hbest (row, v) Hrow).
      rewrite StoreReadProps.quote_key_to_quote,
              StoreReadProps.min_price_to_quote in Hbest.
      specialize (Hbest ltac:(now rewrite Hqk)).
      unfold price_of at 2 in Hbest. cbn in Hbest.
      apply (Qlt_irrefl price).
      eapply Qlt_le_trans; [exact Hdearer|].
      eapply Qle_trans; [exact Hbest0|exact Hbest].
    + destruct (Hnew j Hin) as [Hfst Hvid].
      destruct j as [dp v']. cbn in *. subst dp. now split.
  - intros q Hqk. rewrite !StoreReadProps.result_member.
    split; intros (g & Hg & ->); exists g; (split; [|reflexivity]);
      rewrite StoreReadProps.quote_key_to_quote in Hqk.
    + rewrite Hjoin, group_min_app in Hg.
      apply fold_upsert_other in Hg; [exact Hg|].
      intros j Hj Heq. destruct (Hnew j Hj) as [Hfst _].
      apply Hqk. rewrite Heq. unfold group_key. now rewrite Hfst.
    + rewrite Hjoin, group_min_app.
      apply fold_upsert_other; [|exact Hg].
      intros j Hj Heq. destruct (Hnew j Hj) as [Hfst _].
      apply Hqk. rewrite Heq. unfold group_key. now rewrite Hfst.
Qed.

(** An instance: VND002 undercuts the quote of VND001. *)
Lemma insert_then_query_witness :
  known_vendor two_vendor_db "VND002" /\
  exists q,
    In q (result 20261103
            (insert_price 20261103 two_vendor_db "VND002" "Inverter" "Growatt"
                          150 "" "per piece" "whatsapp_text")) /\
    quote_key q = ("Inverter", "Growatt", "") /\ min_price q <= 150.
Proof.
  assert (Hknown : known_vendor two_vendor_db "VND002").
  { eexists. split; [right; left; reflexivity|reflexivity]. }
  split; [exact Hknown|].
  exact (proj1 (insert_then_query 20261103 two_vendor_db "VND002" "Inverter"
                  "Growatt" 150 "" "per piece" "whatsapp_text" Hknown)).
Defined.

(** *** Lookups by name *)

Lemma prefix_refl (s : string) : String.prefix s s = true.
Proof.
  induction s as [|c s IH]; [reflexivity|].
  cbn. destruct (Ascii.ascii_dec c c); [exact IH|congruence].
Qed.

Lemma contains_refl (s : string) : PyStr.contains s s = true.
Proof.
  destruct s as [|c s]; [reflexivity|].
  cbn [PyStr.contains]. now rewrite prefix_refl.
Qed.

Lemma contains_empty (s : string) : PyStr.contains "" s = true.
Proof. destruct s; reflexivity. Qed.

(** X11: [get_vendor_by_name_fuzzy] only returns an active row of
    [vendors] whose lower-cased name contains the lower-cased query or is
    contained in it; with the empty query it returns the first active
    vendor of the table; and a query that equals the name of an active
    vendor up to letter case always finds a vendor. *)
Theorem fuzzy_lookup_behaviour (d : db) :
  (forall name v,
      get_vendor_by_name_fuzzy d name = Some v ->
      In v (vendors d) /\ v_status v = "active" /\
      (PyStr.contains (PyStr.lower name) (PyStr.lower (v_vendor_name v)) = true
       \/
       PyStr.contains (PyStr.lower (v_vendor_name v)) (PyStr.lower name) = true))
  /\
  get_vendor_by_name_fuzzy d "" = hd_error (active_vendors d) /\
  (forall name v,
      In v (vendors d) -> v_status v = "active" ->
      PyStr.lower name = PyStr.lower (v_vendor_name v) ->
      get_vendor_by_name_fuzzy d name <> None).
Proof.
  split; [|split].
  - intros name v Hfind.
    unfold get_vendor_by_name_fuzzy in Hfind.
    apply find_some in Hfind. destruct Hfind as [Hin Hmatch].
    apply filter_In in Hin. destruct Hin as [Hin Hactive].
    apply String.eqb_eq in Hactive.
    apply orb_true_iff in Hmatch. auto.
  - unfold get_vendor_by_name_fuzzy, active_vendors.
    destruct (filter _ (vendors d)) as [|v vs]; [reflexivity|].
    cbn [find hd_error PyStr.lower]. now rewrite contains_empty.
  - intros name v Hin Hactive Hname Hnone.
    unfold get_vendor_by_name_fuzzy in Hnone.
    assert (Hv : In v (filter (fun row => String.eqb (v_status row) "active")
                              (vendors d))).
    { apply filter_In. split; [exact Hin|]. now apply String.eqb_eq. }
    pose proof (find_none _ _ Hnone v Hv) as Hfalse.
    cbn beta in Hfalse.
    rewrite Hname, contains_refl in Hfalse. discriminate Hfalse.
Qed.

(** *** The message loop *)

Lemma process_file_count (today : Z) (d : db) (stem content : string) :
  List.length (daily_prices (fst (process_file today d stem content))) =
  (List.length (daily_prices d) + snd (process_file today d stem content))%nat.
Proof.
  unfold process_file.
  destruct (nth_error _ 2) as [number|]; [|cbn; lia].
  destruct (get_vendor_by_whatsapp d number) as [v|]; [|cbn; lia].
  cbn [fst snd].
  destruct (StoreWriteProps.insert_items_appends today (v_vendor_id v)
              (PriceExtractor.extract_from_text content) d) as [_ Hp].
  rewrite Hp, length_app, length_map. reflexivity.
Qed.

(** X12: the count [process_whatsapp_messages] returns is exactly the
    number of price rows it appended. *)
Theorem processed_count_is_rows_appended (today : Z) (d : db)
  (files : list (string * string)) :
  List.length (daily_prices (fst (process_whatsapp_messages today d files))) =
  (List.length (daily_prices d) +
   snd (process_whatsapp_messages today d files))%nat.
Proof.
  unfold process_whatsapp_messages.
  assert (Hgen : forall acc : db * nat,
    (List.length (daily_prices (fst
       (fold_left
          (fun acc file =>
             let '(d', processed_count) := acc in
             let '(d'', n) := process_file today d' (fst file) (snd file) in
             (d'', (processed_count + n)%nat)) files acc)))
     + snd acc =
     List.length (daily_prices (fst acc)) +
     snd (fold_left
          (fun acc file =>
             let '(d', processed_count) := acc in
             let '(d'', n) := process_file today d' (fst file) (snd file) in
             (d'', (processed_count + n)%nat)) files acc))%nat).
  { induction files as [|file files IH]; intros [d0 n0]; cbn [fold_left];
      [cbn; lia|].
    pose proof (process_file_count today d0 (fst file) (snd file)) as Hc.
    destruct (process_file today d0 (fst file) (snd file)) as [d1 k].
    cbn [fst snd] in *.
    specialize (IH (d1, (n0 + k)%nat)). cbn [fst snd] in IH. lia. }
  specialize (Hgen (d, 0%nat)). cbn [fst snd] in *. lia.
Qed.

(** X13: a message whose sender number belongs to no active vendor adds
    nothing: the store is unchanged and nothing is counted. *)
Theorem unknown_sender_is_skipped (today : Z) (d : db)
  (stem content number : string)
  (Hnumber : nth_error (PyStr.split_on "_" stem) 2 = Some number)
  (Hnone : forall v, In v (vendors d) ->
                     v_whatsapp_number v = Some number ->
                     v_status v <> "active") :
  process_file today d stem content = (d, 0%nat).
Proof.
  unfold process_file. rewrite Hnumber.
  destruct (get_vendor_by_whatsapp d number) as [v|] eqn:Hfind; [|reflexivity].
  exfalso.
  unfold get_vendor_by_whatsapp in Hfind.
  apply find_some in Hfind. destruct Hfind as [Hin Hp].
  apply andb_true_iff in Hp. destruct Hp as [Hnum Hactive].
  apply String.eqb_eq in Hactive.
  destruct (v_whatsapp_number v) as [n|] eqn:Hw; [|discriminate].
  apply String.eqb_eq in Hnum. subst n.
  exact (Hnone v Hin Hw Hactive).
Qed.

(** An instance: a message from the deactivated vendor of [retired_db]. *)
Lemma unknown_sender_is_skipped_witness :
  process_file 20261103 retired_db "20261103_0800_+923000000000"
               "Inverter Rs 65,000"
  = (retired_db, 0%nat).
Proof.
  apply (unknown_sender_is_skipped 20261103 retired_db
           "20261103_0800_+923000000000" "Inverter Rs 65,000"
           "+923000000000").
  - reflexivity.
  - intros v [<-|[]] _. cbn. discriminate.
Defined.

End StoreInsertProps.

(** ** Extraction: edge cases *)

Module ExtractionEdgeProps.

Import Re PriceExtractor ExtractionSpec ExtractionEdgeSpec TextSpec.

(** *** Texts without a digit *)

Lemma is_digit_lower_char (c : ascii) :
  PyStr.is_digit (PyStr.lower_char c) = PyStr.is_digit c.
Proof. destruct c as [[] [] [] [] [] [] [] []]; reflexivity. Qed.

Lemma no_digits_lower (s : string) :
  no_digits (PyStr.lower s) = no_digits s.
Proof.
  induction s as [|c s IH]; [reflexivity|].
  cbn. now rewrite is_digit_lower_char, IH.
Qed.

(** The matcher calls its continuation on suffixes only; a continuation
    that fails on every digit-free input makes the whole match fail. *)
Lemma run_digit_free (r : regex) :
  forall (st : mstate) (k : mstate -> option mstate),
    no_digits (rest st) = true ->
    (forall st1, no_digits (rest st1) = true -> k st1 = None) ->
    run r st k = None.
Proof.
  induction r as [c|p|r1 IH1 r2 IH2|r1 IH1 r2 IH2|r1 IH1|r1 IH1|n r1 IH1|r1 IH1];
    intros st k Hst Hk; cbn [run].
  - destruct (rest st) as [|x s'] eqn:Hrest; [reflexivity|].
    destruct (Ascii.eqb _ _); [|reflexivity].
    apply Hk. cbn in *. apply andb_true_iff in Hst. apply Hst.
  - destruct (rest st) as [|x s'] eqn:Hrest; [reflexivity|].
    destruct (p x); [|reflexivity].
    apply Hk. cbn in *. apply andb_true_iff in Hst. apply Hst.
  - apply IH1; [exact Hst|]. intros st1 Hst1. now apply IH2.
  - rewrite IH1, IH2 by assumption. reflexivity.
  - rewrite IH1, Hk by assumption. reflexivity.
  - generalize (String.length (rest st)) as fuel. revert st Hst.
    intros st Hst fuel. revert st Hst.
    induction fuel as [|fuel IHf]; intros st Hst; [now apply Hk|].
    rewrite IH1, Hk; [reflexivity|exact Hst|exact Hst|].
    intros st1 Hst1. destruct (_ <? _)%nat; [now apply IHf|reflexivity].
  - revert st Hst.
    induction n as [|n IHn]; intros st Hst; [now apply Hk|].
    apply IH1; [exact Hst|]. intros st1 Hst1. now apply IHn.
  - apply IH1; [exact Hst|]. intros st1 Hst1. now apply Hk.
Qed.

Lemma run_demands_digit (r : regex) :
  demands_digit r ->
  forall (st : mstate) (k : mstate -> option mstate),
    no_digits (rest st) = true -> run r st k = None.
Proof.
  induction 1 as [p Hp|r1 r2 _ IH|r1 r2 _ IH|r1 r2 _ IH1 _ IH2|n r _ IH|r _ IH];
    intros st k Hst; cbn [run].
  - destruct (rest st) as [|x s'] eqn:Hrest; [reflexivity|].
    destruct (p x) eqn:Hpx; [|reflexivity].
    cbn in Hst. rewrite (Hp x Hpx) in Hst. discriminate Hst.
  - now apply IH.
  - apply run_digit_free; [exact Hst|]. intros st1 Hst1. now apply IH.
  - rewrite IH1, IH2 by assumption. reflexivity.
  - now apply IH.
  - now apply IH.
Qed.

Lemma findall_digit_free (r : regex) (fuel : nat) :
  demands_digit r ->
  forall s, no_digits s = true -> findall_from fuel r s = [].
Proof.
  intros Hr.
  induction fuel as [|fuel IH]; intros s Hs; [reflexivity|].
  cbn [findall_from]. unfold match_here.
  rewrite (run_demands_digit r Hr) by exact Hs.
  destruct s as [|c s']; [reflexivity|].
  apply IH. cbn in Hs. apply andb_true_iff in Hs. apply Hs.
Qed.

Lemma digit_demands : demands_digit digit.
Proof. constructor. auto. Qed.

Lemma numeral_demands : demands_digit numeral.
Proof. apply DemandsCatL, DemandsCatL, digit_demands. Qed.

Lemma patterns_demand_digit :
  Forall demands_digit PRICE_PATTERNS.
Proof.
  pose proof numeral_demands as Hn.
  unfold PRICE_PATTERNS.
  apply Forall_cons;
    [apply DemandsCatR, DemandsCatR, DemandsGrp, DemandsCatL, Hn|].
  apply Forall_cons; [apply DemandsCatL, DemandsGrp, DemandsCatL, Hn|].
  apply Forall_cons; [apply DemandsCatR, DemandsCatR, DemandsGrp, Hn|].
  apply Forall_cons; [apply DemandsCatL, DemandsGrp, Hn|].
  apply Forall_nil.
Qed.

(** Without a digit no price pattern matches. *)
Lemma digit_free_text_no_candidate (text : string) :
  no_digits text = true -> extract_from_text text = [].
Proof.
  intros Hnone.
  rewrite ExtractionProps.extract_from_text_unfold.
  assert (Hprices : all_prices text = []).
  { unfold all_prices.
    assert (Hlower : no_digits (PyStr.lower text) = true)
      by now rewrite no_digits_lower.
    pose proof patterns_demand_digit as Hall.
    induction Hall as [|pattern patterns Hp _ IH]; [reflexivity|].
    cbn [flat_map]. rewrite IH. unfold findall.
    now rewrite (findall_digit_free pattern _ Hp _ Hlower). }
  rewrite Hprices.
  destruct (_detect_category _); reflexivity.
Qed.

(** X14: an ASCII text without any digit yields no candidate, whatever
    keywords it holds. *)
Theorem no_numeral_no_candidate (text : string)
  (Hascii : ascii_text text = true)
  (Hnone : no_digits text = true) :
  extract_from_text text = [].
Proof. exact (digit_free_text_no_candidate text Hnone). Qed.

(** An instance: an availability notice. *)
Lemma no_numeral_no_candidate_witness :
  extract_from_text "Inverter Growatt available, price on request (Rs)" = [].
Proof.
  apply (no_numeral_no_candidate
           "Inverter Growatt available, price on request (Rs)").
  - reflexivity.
  - reflexivity.
Defined.

(** *** [_clean_price] on arbitrary strings *)

Lemma filter_kept_idempotent (s : string) :
  PyStr.filter_chars kept (PyStr.filter_chars kept s)
  = PyStr.filter_chars kept s.
Proof.
  induction s as [|c s IH]; [reflexivity|].
  cbn [PyStr.filter_chars].
  destruct (kept c) eqn:Hc; [|exact IH].
  cbn [PyStr.filter_chars]. now rewrite Hc, IH.
Qed.

Lemma count_dots_filter_kept (s : string) :
  count_char "." (PyStr.filter_chars kept s) = count_char "." s.
Proof.
  induction s as [|c s IH]; [reflexivity|].
  cbn [PyStr.filter_chars count_char].
  destruct (kept c) eqn:Hk.
  - cbn [count_char]. now rewrite IH.
  - unfold kept in Hk. apply orb_false_iff in Hk. destruct Hk as [_ Hdot].
    rewrite Hdot. exact IH.
Qed.

Lemma only_dots_kept (s : string) :
  no_digits s = true ->
  String.length (PyStr.filter_chars kept s)
  = count_char "." (PyStr.filter_chars kept s).
Proof.
  induction s as [|c s IH]; intros Hs; [reflexivity|].
  cbn [no_digits] in Hs. apply andb_true_iff in Hs. destruct Hs as [Hc Hs].
  apply negb_true_iff in Hc.
  assert (Hk : kept c = Ascii.eqb c ".") by (unfold kept; now rewrite Hc).
  cbn [PyStr.filter_chars]. rewrite Hk.
  destruct (Ascii.eqb c ".") eqn:Hdot; [|now apply IH].
  cbn [String.length count_char]. rewrite Hdot, (IH Hs). reflexivity.
Qed.

Lemma _clean_price_unfold (s : string) :
  _clean_price s =
  match py_float (PyStr.filter_chars kept s) with
  | Some v => v
  | None => 0
  end.
Proof. reflexivity. Qed.

Lemma _clean_price_facts :
  (forall s, _clean_price (PyStr.filter_chars kept s) = _clean_price s) /\
  (forall s, (2 <= count_char "." s)%nat -> _clean_price s = 0) /\
  (forall s, no_digits s = true -> _clean_price s = 0).
Proof.
  split; [|split].
  - intros s. rewrite !_clean_price_unfold. now rewrite filter_kept_idempotent.
  - intros s Hdots. rewrite _clean_price_unfold. unfold py_float.
    rewrite count_dots_filter_kept.
    destruct (Nat.ltb_spec 1 (count_char "." s)) as [_|Hle]; [reflexivity|lia].
  - intros s Hs. rewrite _clean_price_unfold. unfold py_float.
    destruct (1 <? _)%nat; [reflexivity|].
    rewrite (only_dots_kept s Hs), Nat.leb_refl. reflexivity.
Qed.

(** X15: on an ASCII string [_clean_price] reads only the digits and
    dots (separators, currency marks and spaces change nothing), and it
    returns 0.0 when the string has two or more dots and when it has no
    digit. *)
Theorem clean_price_edge_cases (s : string)
  (Hascii : ascii_text s = true) :
  _clean_price (PyStr.filter_chars kept s) = _clean_price s /\
  ((2 <= count_char "." s)%nat -> _clean_price s = 0) /\
  (no_digits s = true -> _clean_price s = 0).
Proof.
  destruct _clean_price_facts as (Hkept & Hdots & Hnone).
  split; [apply Hkept|]. split; [apply Hdots|apply Hnone].
Qed.

(** An instance: a price with its currency mark and separator. *)
Lemma clean_price_edge_cases_witness :
  _clean_price (PyStr.filter_chars kept "Rs 65,000") = _clean_price "Rs 65,000"
  /\
  ((2 <= count_char "." "Rs 65,000")%nat -> _clean_price "Rs 65,000" = 0) /\
  (no_digits "Rs 65,000" = true -> _clean_price "Rs 65,000" = 0).
Proof.
  apply (clean_price_edge_cases "Rs 65,000"). reflexivity.
Defined.

(** *** What the candidates of one message share *)

Lemma take_length (n : nat) (s : string) :
  (String.length (PyStr.take n s) <= n)%nat.
Proof.
  unfold PyStr.take. revert s.
  induction n as [|n IH]; intros [|c s]; cbn; try lia.
  specialize (IH s). lia.
Qed.

Lemma _detect_category_range (text category : string) :
  _detect_category text = Some category ->
  In category ["Inverter"; "Solar Panel"; "Battery"].
Proof.
  unfold _detect_category, CATEGORIES. cbn [_detect_category_in].
  repeat (destruct (existsb _ _);
          [intros H; injection H as <-; cbn; auto|]).
  discriminate.
Qed.

(** X16: the candidates of one message all carry the same category, one
    of "Inverter", "Solar Panel" and "Battery", the same model, the unit
    "per piece" and the first 200 characters of the message. *)
Theorem candidates_share_category_and_model (text : string) :
  exists category model,
    In category ["Inverter"; "Solar Panel"; "Battery"] /\
    forall c, In c (extract_from_text text) ->
      PriceExtractor.category c = category /\
      PriceExtractor.model c = model /\
      PriceExtractor.unit c = "per piece" /\
      raw_text c = PyStr.take 200 text /\
      (String.length (raw_text c) <= 200)%nat.
Proof.
  rewrite ExtractionProps.extract_from_text_unfold.
  destruct (_detect_category (PyStr.lower text)) as [category|] eqn:Hcat.
  - exists category, (_detect_model (PyStr.lower text) category).
    split; [exact (_detect_category_range _ _ Hcat)|].
    intros c Hc. apply in_map_iff in Hc. destruct Hc as (q & <- & _).
    cbn. repeat split. apply take_length.
  - exists "Inverter", "Generic". split; [now left|intros c []].
Qed.

End ExtractionEdgeProps.

(** ** The daily summary *)

Module ReportProps.

Import DatabaseManager ReportGenerator StoreReadSpec ReportSpec.

Lemma by_category_add_keys (item : quote) (bc : list (string * list quote)) :
  forall cat, In cat (map fst (by_category_add item bc)) <->
              cat = product_category item \/ In cat (map fst bc).
Proof.
  induction bc as [|[c items] bc IH]; intros cat; cbn [by_category_add].
  - cbn. intuition.
  - destruct (String.eqb_spec c (product_category item)) as [->|Hne]; cbn.
    + intuition.
    + rewrite IH. intuition.
Qed.

Lemma by_category_add_NoDup (item : quote)
  (bc : list (string * list quote)) :
  NoDup (map fst bc) -> NoDup (map fst (by_category_add item bc)).
Proof.
  induction bc as [|[c items] bc IH]; intros Hnd; cbn [by_category_add].
  - repeat constructor. intros [].
  - cbn [map fst] in Hnd. apply NoDup_cons_iff in Hnd.
    destruct Hnd as [Hc Hnd].
    destruct (String.eqb_spec c (product_category item)) as [->|Hne]; cbn.
    + now constructor.
    + constructor; [|now apply IH].
      rewrite by_category_add_keys. intros [Heq|Hin]; congruence.
Qed.

Lemma by_category_add_lookup (item : quote)
  (bc : list (string * list quote)) (cat : string) :
  lookup cat (by_category_add item bc) =
  if String.eqb cat (product_category item)
  then lookup cat bc ++ [item] else lookup cat bc.
Proof.
  induction bc as [|[c items] bc IH]; cbn [by_category_add lookup].
  - rewrite (String.eqb_sym (product_category item) cat).
    destruct (String.eqb cat (product_category item)); reflexivity.
  - destruct (String.eqb_spec c (product_category item)) as [->|Hne];
      cbn [lookup].
    + rewrite (String.eqb_sym (product_category item) cat).
      destruct (String.eqb cat (product_category item)); reflexivity.
    + destruct (String.eqb_spec c cat) as [->|Hne'].
      * now rewrite (proj2 (String.eqb_neq _ _) Hne).
      * exact IH.
Qed.

Lemma by_category_add_nonempty (item : quote)
  (bc : list (string * list quote)) :
  Forall (fun entry => snd entry <> []) bc ->
  Forall (fun entry => snd entry <> []) (by_category_add item bc).
Proof.
  induction bc as [|[c items] bc IH]; intros Hall; cbn [by_category_add].
  - repeat constructor. discriminate.
  - apply Forall_cons_iff in Hall. destruct Hall as [Hhd Hall].
    destruct (String.eqb c (product_category item)).
    + constructor; [|exact Hall]. cbn. now destruct items.
    + constructor; [exact Hhd|now apply IH].
Qed.

Lemma lookup_In (cat : string) (items : list quote)
  (bc : list (string * list quote)) :
  NoDup (map fst bc) -> In (cat, items) bc -> lookup cat bc = items.
Proof.
  induction bc as [|[c its] bc IH]; intros Hnd Hin; [destruct Hin|].
  cbn [map fst] in Hnd. apply NoDup_cons_iff in Hnd. destruct Hnd as [Hc Hnd].
  cbn [lookup].
  destruct Hin as [Heq|Hin].
  - injection Heq as -> ->. now rewrite String.eqb_refl.
  - destruct (String.eqb_spec c cat) as [->|Hne]; [|now apply IH].
    exfalso. apply Hc. change cat with (fst (cat, items)). now apply in_map.
Qed.

(** The grouping of a list: one entry per category in order of first
    appearance, each holding the quotes of its category in list order. *)
Lemma group_by_category_spec (l : list quote) :
  NoDup (map fst (group_by_category l)) /\
  (forall cat items, In (cat, items) (group_by_category l) ->
                     items = of_category cat l /\ items <> []) /\
  (forall cat, In cat (map fst (group_by_category l)) <->
               exists q, In q l /\ product_category q = cat).
Proof.
  unfold group_by_category.
  assert (Hgen : forall l bc,
    NoDup (map fst bc) ->
    Forall (fun entry => snd entry <> []) bc ->
    let bc' := fold_left (fun by_category item =>
                            by_category_add item by_category) l bc in
    NoDup (map fst bc') /\
    Forall (fun entry => snd entry <> []) bc' /\
    (forall cat, lookup cat bc' = lookup cat bc ++ of_category cat l) /\
    (forall cat, In cat (map fst bc') <->
                 In cat (map fst bc) \/
                 exists q, In q l /\ product_category q = cat)).
  { clear l. induction l as [|item l IH]; intros bc Hnd Hne; cbn [fold_left].
    - repeat split; try assumption.
      + intros cat. cbn. now rewrite app_nil_r.
      + intros H. now left.
      + intros [H|(q & [] & _)]. exact H.
    - destruct (IH (by_category_add item bc)
                   (by_category_add_NoDup item bc Hnd)
                   (by_category_add_nonempty item bc Hne))
        as (Hnd' & Hne' & Hlook & Hkeys).
      repeat split; try assumption.
      + intros cat. rewrite Hlook, by_category_add_lookup.
        unfold of_category. cbn [filter].
        destruct (String.eqb cat (product_category item));
          [now rewrite <- app_assoc|reflexivity].
      + intros H. apply Hkeys in H.
        destruct H as [H|(q & Hq & Hc)].
        * apply by_category_add_keys in H.
          destruct H as [->|H]; [right; exists item; split; auto; now left|
                                 now left].
        * right. exists q. split; [now right|exact Hc].
      + intros H. apply Hkeys.
        destruct H as [H|(q & [<-|Hq] & Hc)].
        * left. apply by_category_add_keys. now right.
        * left. apply by_category_add_keys. now left.
        * right. now exists q. }
  destruct (Hgen l [] (NoDup_nil _) (Forall_nil _))
    as (Hnd & Hne & Hlook & Hkeys).
  split; [exact Hnd|split].
  - intros cat items Hin.
    split.
    + rewrite <- (lookup_In cat items _ Hnd Hin). apply Hlook.
    + rewrite Forall_forall in Hne. exact (Hne (cat, items) Hin).
  - intros cat. rewrite Hkeys. cbn. intuition.
Qed.

Lemma string_compare_refl (s : string) : String.compare s s = Eq.
Proof.
  induction s as [|c s IH]; [reflexivity|].
  cbn. now rewrite StoreReadProps.ascii_compare_refl.
Qed.

(** In a list ordered by category and price, the first quote of a
    category is its cheapest. *)
Lemma first_of_category_is_cheapest (l : list quote) (cat : string)
  (item : quote) (rest : list quote) :
  StronglySorted quote_le l ->
  of_category cat l = item :: rest ->
  In item l /\ product_category item = cat /\
  forall q, In q l -> product_category q = cat ->
            min_price item <= min_price q.
Proof.
  intros Hsorted.
  induction Hsorted as [|x l Hs IH Hx]; intros Hf; [discriminate Hf|].
  unfold of_category in Hf. cbn [filter] in Hf.
  destruct (String.eqb_spec cat (product_category x)) as [Hcat|Hne].
  - injection Hf as -> _.
    split; [now left|]. split; [now symmetry|].
    intros q [<-|Hq] Hqc; [apply Qle_refl|].
    rewrite Forall_forall in Hx. specialize (Hx q Hq).
    unfold quote_le in Hx.
    rewrite Hqc, <- Hcat, string_compare_refl in Hx. exact Hx.
  - destruct (IH Hf) as (Hin & Hc & Hmin).
    split; [now right|]. split; [exact Hc|].
    intros q [<-|Hq] Hqc; [congruence|now apply Hmin].
Qed.

Lemma shown_spec (l : list quote) (cat : string) (item : quote) :
  In (cat, item) (shown l) <->
  exists rest, In (cat, item :: rest) (group_by_category l).
Proof.
  unfold shown. rewrite in_flat_map. split.
  - intros ([c [|it rest]] & Hin & Hshow); cbn in Hshow; [destruct Hshow|].
    destruct Hshow as [Heq|[]]. injection Heq as -> ->. now exists rest.
  - intros (rest & Hin). exists (cat, item :: rest).
    split; [exact Hin|now left].
Qed.

Lemma shown_keys (l : list quote) :
  map fst (shown l) = map fst (group_by_category l).
Proof.
  destruct (group_by_category_spec l) as (_ & Hitems & _).
  unfold shown.
  induction (group_by_category l) as [|[c items] bc IH]; [reflexivity|].
  cbn [flat_map map fst snd].
  destruct (Hitems c items (or_introl eq_refl)) as [_ Hne].
  destruct items as [|item rest]; [congruence|].
  cbn. f_equal. apply IH.
  intros cat its Hin. apply Hitems. now right.
Qed.

Lemma string_app_assoc (a b c : string) :
  ((a ++ b) ++ c = a ++ b ++ c)%string.
Proof. induction a as [|x a IH]; [reflexivity|]. cbn. now rewrite IH. Qed.

Lemma string_app_nil_r (a : string) : (a ++ "" = a)%string.
Proof. induction a as [|x a IH]; [reflexivity|]. cbn. now rewrite IH. Qed.

Lemma concat_cons (x : string) (xs : list string) :
  String.concat EmptyString (x :: xs)
  = (x ++ String.concat EmptyString xs)%string.
Proof.
  destruct xs as [|y ys]; [cbn; now rewrite string_app_nil_r|reflexivity].
Qed.

(** An infinite price stops the summary. *)
Lemma category_block_overflow (summary cat : string) (item : quote)
  (rest : list quote) :
  PyNum.is_inf (min_price item) = true ->
  category_block summary (cat, item :: rest) = inr OverflowError.
Proof.
  intros Hinf. unfold category_block, PyNum.int_of_float. cbn [snd].
  now rewrite Hinf.
Qed.

Lemma overflowing_summary :
  generate_whatsapp_summary "03 Nov 2026" (result 20261103 overflowing_db)
  = inr OverflowError.
Proof. vm_compute. reflexivity. Qed.

(** With finite prices the loop adds the block of every shown item. *)
Lemma category_blocks_finite (l : list quote) (summary : string) :
  (forall cat item, In (cat, item) (shown l) ->
                    PyNum.is_inf (min_price item) = false) ->
  category_blocks summary (group_by_category l)
  = inl (summary ++ String.concat EmptyString (map block_text (shown l)))%string.
Proof.
  destruct (group_by_category_spec l) as (_ & Hitems & _).
  unfold shown.
  revert summary.
  induction (group_by_category l) as [|[c items] bc IH];
    intros summary Hfinite.
  - cbn. now rewrite string_app_nil_r.
  - destruct (Hitems c items (or_introl eq_refl)) as [_ Hne].
    destruct items as [|item rest]; [congruence|].
    cbn [flat_map map fst snd app category_blocks category_block].
    unfold PyNum.int_of_float.
    rewrite (Hfinite c item) by (cbn; now left).
    assert (Hitems' : forall cat its, In (cat, its) bc ->
                        its = of_category cat l /\ its <> []).
    { intros cat its Hin. apply Hitems. now right. }
    assert (Hfinite' : forall cat it,
              In (cat, it)
                 (flat_map (fun entry =>
                              match snd entry with
                              | [] => []
                              | item0 :: _ => [(fst entry, item0)]
                              end) bc) ->
              PyNum.is_inf (min_price it) = false).
    { intros cat it Hin. apply (Hfinite cat). cbn [flat_map snd fst].
      apply in_or_app. now right. }
    rewrite (IH Hitems' _ Hfinite').
    rewrite concat_cons, string_app_assoc. reflexivity.
Qed.

(** The summary of the result of the query. *)
Lemma summary_spec (today : Z) (d : db)
  (date : string) :
  finite_prices d = true ->
  let min_prices := result today d in
  NoDup (map fst (shown min_prices)) /\
  (forall cat item, In (cat, item) (shown min_prices) ->
     In item min_prices /\ product_category item = cat /\
     forall j, in_scope today d j -> dp_product_category (fst j) = cat ->
               min_price item <= price_of j) /\
  (forall j, in_scope today d j ->
             In (dp_product_category (fst j)) (map fst (shown min_prices))) /\
  ((exists j, in_scope today d j) ->
   generate_whatsapp_summary date min_prices
   = inl (summary_text date min_prices)) /\
  ((forall j, ~ in_scope today d j) ->
   generate_whatsapp_summary date min_prices = inl (no_data date)).
Proof.
  intros Hfinite min_prices.
  destruct (StoreReadProps.result_spec today d) as (_ & Hkeys & Hquotes).
  destruct (group_by_category_spec min_prices) as (Hnd & Hitems & Hcats).
  assert (Hsorted : StronglySorted quote_le min_prices).
  { unfold min_prices, result, get_minimum_prices_today. cbn [fst].
    apply StoreReadProps.sorted_quotes, StoreReadProps.order_by_sorted. }
  assert (Hquote_of : forall j, in_scope today d j ->
            exists q, In q min_prices /\ quote_key q = group_key j /\
                      min_price q <= price_of j).
  { intros j Hj.
    assert (Hk : In (group_key j) (map quote_key min_prices)).
    { apply Hkeys. now exists j. }
    apply in_map_iff in Hk. destruct Hk as (q & Hqk & Hq).
    exists q. split; [exact Hq|]. split; [exact Hqk|].
    destruct (Hquotes q Hq) as [_ Hbest]. apply Hbest; [exact Hj|].
    now symmetry. }
  assert (Hshown : forall cat item, In (cat, item) (shown min_prices) ->
     In item min_prices /\ product_category item = cat /\
     forall j, in_scope today d j -> dp_product_category (fst j) = cat ->
               min_price item <= price_of j).
  { intros cat item Hshown.
    apply shown_spec in Hshown. destruct Hshown as (rest & Hin).
    destruct (Hitems cat _ Hin) as [Hfilter _].
    destruct (first_of_category_is_cheapest min_prices cat item rest Hsorted
                (eq_sym Hfilter)) as (Hitem & Hcat & Hmin).
    split; [exact Hitem|]. split; [exact Hcat|].
    intros j Hj Hjc.
    destruct (Hquote_of j Hj) as (q & Hq & Hqk & Hle).
    apply Qle_trans with (min_price q); [|exact Hle].
    apply Hmin; [exact Hq|].
    unfold quote_key, group_key in Hqk. congruence. }
  assert (Hfin : forall cat item, In (cat, item) (shown min_prices) ->
                                  PyNum.is_inf (min_price item) = false).
  { intros cat item Hin.
    destruct (Hshown cat item Hin) as (Hitem & _ & _).
    destruct (Hquotes item Hitem) as [(j & Hj & ->) _].
    destruct Hj as (Hrow & _).
    unfold finite_prices in Hfinite. rewrite forallb_forall in Hfinite.
    specialize (Hfinite (fst j) Hrow). apply negb_true_iff in Hfinite.
    destruct j as [dp v]. exact Hfinite. }
  split; [now rewrite shown_keys|].
  split; [exact Hshown|split; [|split]].
  - intros j Hj. rewrite shown_keys. apply Hcats.
    destruct (Hquote_of j Hj) as (q & Hq & Hqk & _).
    exists q. split; [exact Hq|].
    unfold quote_key, group_key in Hqk. congruence.
  - intros (j & Hj).
    destruct (Hquote_of j Hj) as (q & Hq & _).
    pose proof (category_blocks_finite min_prices (header date) Hfin)
      as Hblocks.
    unfold generate_whatsapp_summary, summary_text.
    destruct min_prices as [|q0 qs] eqn:Hmp; [destruct Hq|].
    rewrite <- Hmp in *. rewrite Hblocks.
    now rewrite string_app_assoc.
  - intros Hempty.
    unfold generate_whatsapp_summary, no_data.
    destruct min_prices as [|q qs] eqn:Hmp; [reflexivity|].
    exfalso.
    destruct (Hquotes q) as [(j & Hj & _) _].
    + fold min_prices. rewrite Hmp. now left.
    + exact (Hempty j Hj).
Qed.

(** X17: fed with the result of the query on a store whose prices are
    finite floats, the summary has one block per category that has a
    joined price row of the day; the item of the block is a quote of that
    category and no joined row of the category is cheaper ("Lowest in
    category"); the text is the header, these blocks and the closing
    line, and it is the no-data message when the join is empty.  (An
    infinite price makes [int()] raise OverflowError instead.) *)
Theorem summary_shows_cheapest_per_category (today : Z) (d : db)
  (date : string)
  (Hfinite : finite_prices d = true) :
  let min_prices := result today d in
  NoDup (map fst (shown min_prices)) /\
  (forall cat item, In (cat, item) (shown min_prices) ->
     In item min_prices /\ product_category item = cat /\
     forall j, in_scope today d j -> dp_product_category (fst j) = cat ->
               min_price item <= price_of j) /\
  (forall j, in_scope today d j ->
             In (dp_product_category (fst j)) (map fst (shown min_prices))) /\
  ((exists j, in_scope today d j) ->
   generate_whatsapp_summary date min_prices
   = inl (summary_text date min_prices)) /\
  ((forall j, ~ in_scope today d j) ->
   generate_whatsapp_summary date min_prices = inl (no_data date)).
Proof. exact (summary_spec today d date Hfinite). Qed.

(** An instance: the store with one quote of 200. *)
Lemma summary_shows_cheapest_per_category_witness :
  let min_prices := result 20261103 StoreInsertSpec.two_vendor_db in
  NoDup (map fst (shown min_prices)) /\
  (forall cat item, In (cat, item) (shown min_prices) ->
     In item min_prices /\ product_category item = cat /\
     forall j, in_scope 20261103 StoreInsertSpec.two_vendor_db j ->
               dp_product_category (fst j) = cat ->
               min_price item <= price_of j) /\
  (forall j, in_scope 20261103 StoreInsertSpec.two_vendor_db j ->
             In (dp_product_category (fst j)) (map fst (shown min_prices))) /\
  ((exists j, in_scope 20261103 StoreInsertSpec.two_vendor_db j) ->
   generate_whatsapp_summary "03 Nov 2026" min_prices
   = inl (summary_text "03 Nov 2026" min_prices)) /\
  ((forall j, ~ in_scope 20261103 StoreInsertSpec.two_vendor_db j) ->
   generate_whatsapp_summary "03 Nov 2026" min_prices
   = inl (no_data "03 Nov 2026")).
Proof.
  apply (summary_shows_cheapest_per_category 20261103
           StoreInsertSpec.two_vendor_db "03 Nov 2026").
  reflexivity.
Defined.

(** X18: every price extracted from the message file of an active
    vendor reaches the report of the day when the prices of the store
    and of the message are finite floats: after the file is processed,
    the query has a quote for the detected category and model at no more
    than that price, and the summary is written and shows the category
    with a quote at no more than that price. *)
Theorem extracted_price_reaches_the_summary (today : Z) (d : db)
  (stem content number date : string) (v : vendor)
  (item : PriceExtractor.candidate)
  (Hnumber : nth_error (PyStr.split_on "_" stem) 2 = Some number)
  (Hvendor : get_vendor_by_whatsapp d number = Some v)
  (Hitem : In item (PriceExtractor.extract_from_text content))
  (Hstore : finite_prices d = true)
  (Hmessage : finite_candidates content = true) :
  let d' := fst (AutomationEngine.process_file today d stem content) in
  (exists q, In q (result today d') /\
             quote_key q = (PriceExtractor.category item,
                            PriceExtractor.model item, "") /\
             min_price q <= PriceExtractor.price item) /\
  (exists q, In (PriceExtractor.category item, q) (shown (result today d')) /\
             min_price q <= PriceExtractor.price item) /\
  generate_whatsapp_summary date (result today d')
  = inl (summary_text date (result today d')).
Proof.
  intros d'.
  set (r := PriceRow today (v_vendor_id v) (PriceExtractor.category item)
                     (PriceExtractor.model item) ""
                     (PriceExtractor.price item) (PriceExtractor.unit item)
                     "whatsapp_text").
  destruct (StoreWriteProps.insert_items_appends today (v_vendor_id v)
              (PriceExtractor.extract_from_text content) d) as [Hvs Hps].
  assert (Hd' : d' = fold_left
                       (fun d0 item0 =>
                          insert_price today d0 (v_vendor_id v)
                            (PriceExtractor.category item0)
                            (PriceExtractor.model item0)
                            (PriceExtractor.price item0) ""
                            (PriceExtractor.unit item0) "whatsapp_text")
                       (PriceExtractor.extract_from_text content) d).
  { unfold d', AutomationEngine.process_file. now rewrite Hnumber, Hvendor. }
  cbv zeta in Hvs, Hps. rewrite <- Hd' in Hvs, Hps.
  assert (Hscope : in_scope today d' (r, v)).
  { unfold in_scope. cbn [fst snd]. rewrite Hvs, Hps.
    split; [|split; [reflexivity|split; [|reflexivity]]].
    - apply in_or_app. right.
      apply (in_map (fun item0 =>
                       PriceRow today (v_vendor_id v)
                         (PriceExtractor.category item0)
                         (PriceExtractor.model item0) ""
                         (PriceExtractor.price item0)
                         (PriceExtractor.unit item0) "whatsapp_text")).
      exact Hitem.
    - unfold get_vendor_by_whatsapp in Hvendor.
      now apply find_some in Hvendor. }
  assert (Hfinite : finite_prices d' = true).
  { unfold finite_prices. rewrite Hps, forallb_app.
    unfold finite_prices in Hstore. rewrite Hstore. cbn [andb].
    rewrite forallb_forall. intros row Hrow.
    apply in_map_iff in Hrow. destruct Hrow as (c & <- & Hc).
    cbn [dp_price].
    unfold finite_candidates in Hmessage.
    rewrite forallb_forall in Hmessage. exact (Hmessage c Hc). }
  destruct (StoreReadProps.result_spec today d') as (_ & Hkeys & Hquotes).
  destruct (summary_spec today d' date Hfinite)
    as (_ & Hshown & Hcover & Htext & _).
  split; [|split].
  - assert (Hk : In (group_key (r, v)) (map quote_key (result today d'))).
    { apply Hkeys. now exists (r, v). }
    apply in_map_iff in Hk. destruct Hk as (q & Hqk & Hq).
    exists q. split; [exact Hq|]. split; [exact Hqk|].
    destruct (Hquotes q Hq) as [_ Hbest].
    apply (Hbest (r, v) Hscope). now symmetry.
  - specialize (Hcover (r, v) Hscope). cbn [fst dp_product_category r] in Hcover.
    apply in_map_iff in Hcover. destruct Hcover as ([cat q] & Hc & Hin).
    cbn [fst] in Hc. subst cat.
    exists q. split; [exact Hin|].
    destruct (Hshown _ q Hin) as (_ & _ & Hmin).
    apply (Hmin (r, v) Hscope). reflexivity.
  - apply Htext. now exists (r, v).
Qed.

(** An instance: the file and the message that [main --test] writes,
    from the vendor of the sample store. *)
Lemma extracted_price_reaches_the_summary_witness :
  let d' := fst (AutomationEngine.process_file 20261103
                   StoreWriteSpec.sample_db "20261103_0900_+923001234567"
                   ExtractionSpec.growatt_message) in
  (exists q, In q (result 20261103 d') /\
             quote_key q = ("Inverter", "Growatt", "") /\
             min_price q <= 65000) /\
  (exists q, In ("Inverter", q) (shown (result 20261103 d')) /\
             min_price q <= 65000) /\
  generate_whatsapp_summary "03 Nov 2026" (result 20261103 d')
  = inl (summary_text "03 Nov 2026" (result 20261103 d')).
Proof.
  apply (extracted_price_reaches_the_summary 20261103 StoreWriteSpec.sample_db
           "20261103_0900_+923001234567" ExtractionSpec.growatt_message
           "+923001234567" "03 Nov 2026"
           (Vendor "VND001" "ABC Solar Traders" "0300-1234567"
                   (Some "+923001234567") "Importer" "active")
           ExtractionSpec.growatt_candidate).
  - reflexivity.
  - reflexivity.
  - vm_compute. now left.
  - reflexivity.
  - vm_compute. reflexivity.
Defined.

End ReportProps.

(** ** The validator *)

Module ValidatorProps.

Import DataValidator ValidatorSpec TextSpec.

Lemma all_chars_filter (p : ascii -> bool) (s : string) :
  all_chars p (PyStr.filter_chars p s) = true.
Proof.
  induction s as [|c s IH]; [reflexivity|].
  cbn [PyStr.filter_chars]. destruct (p c) eqn:Hp; [|exact IH].
  cbn [all_chars]. now rewrite Hp.
Qed.

Lemma filter_all_chars (p : ascii -> bool) (s : string) :
  all_chars p s = true -> PyStr.filter_chars p s = s.
Proof.
  induction s as [|c s IH]; [reflexivity|].
  cbn [all_chars PyStr.filter_chars]. intros H.
  apply andb_true_iff in H. destruct H as [Hc Hs].
  rewrite Hc. f_equal. now apply IH.
Qed.

Lemma all_chars_tail (p : ascii -> bool) (s : string) :
  all_chars p s = true -> all_chars p (tail s) = true.
Proof.
  destruct s as [|c s]; [reflexivity|]. cbn [all_chars tail].
  intros H. now apply andb_true_iff in H.
Qed.

Lemma digit_is_no_separator (c : ascii) :
  phone_char c = true ->
  Ascii.eqb c "-" || PyStr.is_space c = false.
Proof.
  destruct c as [[] [] [] [] [] [] [] []]; vm_compute; congruence.
Qed.

Lemma phone_char_is_no_line_feed (c : ascii) :
  phone_char c = true -> Ascii.eqb c (ascii_of_nat 10) = false.
Proof.
  destruct c as [[] [] [] [] [] [] [] []]; vm_compute; congruence.
Qed.

Lemma lit_plain (c x : ascii) :
  PyStr.is_alpha c = false ->
  Ascii.eqb (PyStr.lower_char x) (PyStr.lower_char c) = Ascii.eqb x c.
Proof.
  intros Hc.
  assert (Hlc : PyStr.lower_char c = c).
  { unfold PyStr.lower_char. unfold PyStr.is_alpha in Hc.
    apply orb_false_iff in Hc. now rewrite (proj1 Hc). }
  rewrite Hlc.
  unfold PyStr.lower_char.
  destruct (PyStr.is_upper x) eqn:Hx; [|reflexivity].
  destruct (Ascii.eqb_spec x c) as [->|Hne].
  - unfold PyStr.is_alpha in Hc. rewrite Hx in Hc. discriminate.
  - apply Ascii.eqb_neq. intros Heq. subst c.
    revert Hc Hx. clear.
    destruct x as [[] [] [] [] [] [] [] []]; vm_compute; congruence.
Qed.

Lemma is_digit_phone_char (c : ascii) :
  PyStr.is_digit c = true -> phone_char c = true.
Proof. unfold phone_char. now intros ->. Qed.

Lemma all_digits_phone (s : string) :
  all_chars PyStr.is_digit s = true -> all_chars phone_char s = true.
Proof.
  induction s as [|c s IH]; [reflexivity|]. cbn [all_chars].
  intros H. apply andb_true_iff in H. destruct H as [Hc Hs].
  now rewrite (is_digit_phone_char c Hc), IH.
Qed.

Lemma all_chars_app (p : ascii -> bool) (a b : string) :
  all_chars p (a ++ b) = all_chars p a && all_chars p b.
Proof.
  induction a as [|c a IH]; [reflexivity|].
  cbn [append all_chars]. now rewrite IH, andb_assoc.
Qed.

Lemma string_length_app (a b : string) :
  String.length (a ++ b) = (String.length a + String.length b)%nat.
Proof. induction a as [|c a IH]; [reflexivity|]. cbn. now rewrite IH. Qed.

(** *** How the pieces of the phone pattern match *)

Lemma run_cat (r1 r2 : Re.regex) (st : Re.mstate)
  (k : Re.mstate -> option Re.mstate) :
  Re.run (Re.Cat r1 r2) st k = Re.run r1 st (fun st1 => Re.run r2 st1 k).
Proof. reflexivity. Qed.

Lemma run_lit (c : ascii) (s : string) (g : option string)
  (k : Re.mstate -> option Re.mstate) :
  PyStr.is_alpha c = false ->
  Re.run (Re.Lit c) (Re.MState s g) k =
  match s with
  | String x s' => if Ascii.eqb x c then k (Re.MState s' g) else None
  | EmptyString => None
  end.
Proof.
  intros Hc. cbn [Re.run Re.rest Re.grp1].
  destruct s as [|x s']; [reflexivity|].
  now rewrite (lit_plain c x Hc).
Qed.

Lemma run_opt_separator (s : string) (g : option string)
  (k : Re.mstate -> option Re.mstate) :
  all_chars phone_char s = true ->
  Re.run (Re.Opt separator) (Re.MState s g) k = k (Re.MState s g).
Proof.
  intros Hs. unfold separator. cbn [Re.run Re.rest Re.grp1].
  destruct s as [|x s']; [reflexivity|].
  cbn [all_chars] in Hs. apply andb_true_iff in Hs.
  now rewrite (digit_is_no_separator x (proj1 Hs)).
Qed.

(** [\d{n}] reads [n] digits or fails. *)
Lemma run_digits (n : nat) (k : Re.mstate -> option Re.mstate)
  (g : option string) :
  forall s,
    Re.run (Re.Rep n Re.digit) (Re.MState s g) k =
    if (n <=? String.length s)%nat &&
       all_chars PyStr.is_digit (PyStr.take n s)
    then k (Re.MState (String.substring n (String.length s - n) s) g)
    else None.
Proof.
  cbn [Re.run].
  induction n as [|n IH]; intros s.
  - cbn [Nat.leb andb PyStr.take all_chars]. unfold PyStr.take.
    rewrite Nat.sub_0_r.
    assert (Hsub : forall t, String.substring 0 (String.length t) t = t).
    { induction t as [|c t IHt]; [reflexivity|]. cbn. now rewrite IHt. }
    rewrite Hsub.
    destruct s; reflexivity.
  - destruct s as [|x s'].
    + reflexivity.
    + unfold Re.digit at 1. cbn [Re.run Re.rest Re.grp1].
      unfold PyStr.take. cbn [String.substring String.length all_chars].
      destruct (PyStr.is_digit x) eqn:Hx.
      * rewrite IH. unfold PyStr.take.
        cbn [Nat.leb Nat.sub andb]. reflexivity.
      * cbn [andb]. now rewrite andb_false_r.
Qed.

Lemma substring_all (t : string) :
  String.substring 0 (String.length t) t = t.
Proof. induction t as [|c t IHt]; [reflexivity|]. cbn. now rewrite IHt. Qed.

Lemma take_drop (n : nat) :
  forall s, (n <= String.length s)%nat ->
    s = (PyStr.take n s ++
         String.substring n (String.length s - n) s)%string /\
    String.length (PyStr.take n s) = n /\
    String.length (String.substring n (String.length s - n) s)
    = (String.length s - n)%nat.
Proof.
  unfold PyStr.take.
  induction n as [|n IH]; intros s Hn.
  - rewrite Nat.sub_0_r, substring_all.
    destruct s; cbn; auto.
  - destruct s as [|x s']; [cbn in Hn; lia|].
    cbn [String.length] in Hn.
    destruct (IH s' ltac:(lia)) as (Heq & Hl1 & Hl2).
    cbn [String.substring String.length Nat.sub append].
    split; [now rewrite <- Heq|]. split; [now rewrite Hl1|exact Hl2].
Qed.

Lemma at_end_phone (s : string) (g : option string) :
  all_chars phone_char s = true ->
  at_end (Re.MState s g) =
  if String.eqb s EmptyString then Some (Re.MState s g) else None.
Proof.
  intros Hs. unfold at_end. cbn [Re.rest].
  destruct s as [|x [|y s']]; try reflexivity.
  cbn [all_chars] in Hs. apply andb_true_iff in Hs.
  now rewrite (phone_char_is_no_line_feed x (proj1 Hs)).
Qed.

Lemma national_spec (s : string) (g : option string) :
  all_chars phone_char s = true ->
  (exists r, Re.run national (Re.MState s g) at_end = Some r) <->
  exists d, subscriber d /\ s = ("923" ++ d)%string.
Proof.
  intros Hs. unfold national.
  rewrite run_cat, (run_lit "9") by reflexivity.
  destruct s as [|c1 s]; [split; [intros [r Hr]; discriminate|
                                  intros (d & _ & Hd); discriminate]|].
  cbn [all_chars] in Hs. apply andb_true_iff in Hs. destruct Hs as [_ Hs].
  destruct (Ascii.eqb_spec c1 "9") as [->|Hc1];
    [|split; [intros [r Hr]; discriminate|
              intros (d & _ & Hd); cbn in Hd; congruence]].
  cbn beta. rewrite run_cat, (run_lit "2") by reflexivity.
  destruct s as [|c2 s]; [split; [intros [r Hr]; discriminate|
                                  intros (d & _ & Hd); discriminate]|].
  cbn [all_chars] in Hs. apply andb_true_iff in Hs. destruct Hs as [_ Hs].
  destruct (Ascii.eqb_spec c2 "2") as [->|Hc2];
    [|split; [intros [r Hr]; discriminate|
              intros (d & _ & Hd); cbn in Hd; congruence]].
  cbn beta. rewrite run_cat, (run_opt_separator s g _ Hs).
  cbn beta. rewrite run_cat, (run_lit "3") by reflexivity.
  destruct s as [|c3 s]; [split; [intros [r Hr]; discriminate|
                                  intros (d & _ & Hd); discriminate]|].
  cbn [all_chars] in Hs. apply andb_true_iff in Hs. destruct Hs as [_ Hs].
  destruct (Ascii.eqb_spec c3 "3") as [->|Hc3];
    [|split; [intros [r Hr]; discriminate|
              intros (d & _ & Hd); cbn in Hd; congruence]].
  cbn beta. rewrite run_cat, run_digits.
  destruct (Nat.leb_spec 2 (String.length s)) as [Hlen|Hlen].
  2:{ cbn [andb]. split; [intros [r Hr]; discriminate|].
      intros (d & [Hd _] & Heq). injection Heq as ->. lia. }
  destruct (take_drop 2 s Hlen) as (Hsplit & Hl1 & Hl2).
  set (a := PyStr.take 2 s) in *.
  set (b := String.substring 2 (String.length s - 2) s) in *.
  clearbody a b. clear Hl2 Hlen. subst s.
  rewrite all_chars_app in Hs. apply andb_true_iff in Hs.
  destruct Hs as [Ha Hb].
  cbn [andb].
  destruct (all_chars PyStr.is_digit a) eqn:Hda.
  2:{ split; [intros [r Hr]; discriminate|].
      intros (d & [Hd Hdig] & Heq). injection Heq as Heq.
      exfalso. rewrite <- Heq, all_chars_app in Hdig.
      apply andb_true_iff in Hdig. destruct Hdig as [Hdig _]. congruence. }
  cbn beta. rewrite run_cat, (run_opt_separator b g _ Hb).
  cbn beta. rewrite run_digits.
  destruct (Nat.leb_spec 7 (String.length b)) as [Hlen7|Hlen7].
  2:{ cbn [andb]. split; [intros [r Hr]; discriminate|].
      intros (d & [Hd _] & Heq). injection Heq as Heq.
      rewrite <- Heq, string_length_app in Hd. lia. }
  destruct (take_drop 7 b Hlen7) as (Hsplit7 & Hl3 & Hl4).
  set (c := PyStr.take 7 b) in *.
  set (e := String.substring 7 (String.length b - 7) b) in *.
  clearbody c e. clear Hl4 Hlen7. subst b.
  rewrite all_chars_app in Hb. apply andb_true_iff in Hb.
  destruct Hb as [Hc He].
  cbn [andb].
  destruct (all_chars PyStr.is_digit c) eqn:Hdc.
  2:{ split; [intros [r Hr]; discriminate|].
      intros (d & [Hd Hdig] & Heq). injection Heq as Heq.
      exfalso. rewrite <- Heq, !all_chars_app in Hdig.
      apply andb_true_iff in Hdig. destruct Hdig as [_ Hdig].
      apply andb_true_iff in Hdig. destruct Hdig as [Hdig _]. congruence. }
  cbn beta. rewrite (at_end_phone e g He).
  destruct (String.eqb_spec e EmptyString) as [Hee|Hee].
  - split; [intros _|intros _; eauto].
    subst e.
    exists (a ++ c ++ "")%string. split; [|reflexivity]. split.
    + rewrite !string_length_app, Hl1, Hl3. reflexivity.
    + now rewrite !all_chars_app, Hda, Hdc.
  - split; [intros [r Hr]; discriminate|].
    intros (d & [Hd _] & Heq). injection Heq as Heq.
    exfalso. apply Hee.
    rewrite <- Heq, !string_length_app, Hl1, Hl3 in Hd.
    destruct e; [reflexivity|cbn in Hd; lia].
Qed.

Lemma clean_phone_chars (phone : string) :
  all_chars phone_char (clean phone) = true.
Proof. apply all_chars_filter. Qed.

Lemma clean_clean (s : string) :
  all_chars phone_char s = true -> clean s = s.
Proof. apply filter_all_chars. Qed.

(** What [re.match(PHONE_PATTERN, s)] accepts among strings of digits
    and plus signs. *)
Lemma phone_pattern_spec (s : string) :
  all_chars phone_char s = true ->
  re_match_to_end PHONE_PATTERN s = true <->
  exists d, subscriber d /\ (s = ("923" ++ d)%string \/
                             s = ("+923" ++ d)%string).
Proof.
  intros Hs. unfold re_match_to_end.
  change PHONE_PATTERN with (Re.Cat (Re.Opt (Re.Lit "+")) national).
  rewrite run_cat.
  change (Re.run (Re.Opt (Re.Lit "+")) (Re.MState s None)
            (fun st1 => Re.run national st1 at_end))
    with (Re.orelse
            (Re.run (Re.Lit "+") (Re.MState s None)
               (fun st1 => Re.run national st1 at_end))
            (Re.run national (Re.MState s None) at_end)).
  rewrite (run_lit "+") by reflexivity.
  pose proof (national_spec s None Hs) as Hwhole.
  destruct s as [|x s'].
  - cbn [Re.orelse].
    destruct (Re.run national (Re.MState "" None) at_end) as [r|].
    + destruct (proj1 Hwhole (ex_intro _ r eq_refl)) as (d & _ & Hd).
      discriminate.
    + split; [discriminate|]. intros (d & _ & [Hd|Hd]); discriminate.
  - destruct (Ascii.eqb_spec x "+") as [->|Hx].
    + cbn [all_chars] in Hs. apply andb_true_iff in Hs.
      destruct Hs as [_ Hs'].
      pose proof (national_spec s' None Hs') as Htail.
      cbn beta.
      destruct (Re.run national (Re.MState s' None) at_end) as [r|].
      * cbn [Re.orelse]. split; [intros _|reflexivity].
        destruct (proj1 Htail (ex_intro _ r eq_refl)) as (d & Hd & ->).
        exists d. split; [exact Hd|now right].
      * cbn [Re.orelse].
        destruct (Re.run national (Re.MState (String "+" s') None) at_end)
          as [r|].
        -- destruct (proj1 Hwhole (ex_intro _ r eq_refl)) as (d & _ & Hd).
           discriminate.
        -- split; [discriminate|].
           intros (d & Hd & [Heq|Heq]); [discriminate|].
           injection Heq as ->.
           destruct (proj2 Htail (ex_intro _ d (conj Hd eq_refl))) as [r Hr].
           discriminate.
    + cbn [Re.orelse].
      destruct (Re.run national (Re.MState (String x s') None) at_end)
        as [r|].
      * split; [intros _|reflexivity].
        destruct (proj1 Hwhole (ex_intro _ r eq_refl)) as (d & Hd & Heq).
        exists d. split; [exact Hd|now left].
      * split; [discriminate|].
        intros (d & Hd & [Heq|Heq]).
        -- destruct (proj2 Hwhole (ex_intro _ d (conj Hd Heq))) as [r Hr].
           discriminate.
        -- injection Heq as Hx' _. congruence.
Qed.

(** A phone number is valid exactly when its cleaned form reads 923 and
    nine more digits, with or without a leading plus. *)
Lemma valid_phone_shape (phone : string) :
  validate_phone_number phone = true <->
  exists d, subscriber d /\ (clean phone = ("923" ++ d)%string \/
                             clean phone = ("+923" ++ d)%string).
Proof.
  unfold validate_phone_number.
  destruct (String.eqb_spec phone EmptyString) as [->|Hne].
  - split; [discriminate|]. intros (d & _ & [Hd|Hd]); discriminate.
  - apply phone_pattern_spec, clean_phone_chars.
Qed.

Lemma prefix_cons (c x : ascii) (s t : string) :
  String.prefix (String c s) (String x t)
  = Ascii.eqb c x && String.prefix s t.
Proof.
  cbn. destruct (ascii_dec c x) as [->|Hne].
  - now rewrite Ascii.eqb_refl.
  - now rewrite (proj2 (Ascii.eqb_neq c x) Hne).
Qed.

Lemma prefix_one (c x : ascii) (s : string) :
  String.prefix (String c EmptyString) (String x s) = Ascii.eqb c x.
Proof.
  cbn. destruct (ascii_dec c x) as [->|Hne].
  - rewrite Ascii.eqb_refl. now destruct s.
  - symmetry. now apply Ascii.eqb_neq.
Qed.

Lemma normalize_cases (phone : string) :
  phone <> EmptyString ->
  exists r, normalize_phone_number phone = Some r /\
    ((String.prefix "+" (clean phone) = true /\ r = clean phone) \/
     (exists t, clean phone = String "0" t /\ r = ("+92" ++ t)%string) \/
     (exists t, clean phone = ("92" ++ t)%string /\
                r = ("+92" ++ t)%string) \/
     (String.prefix "+" (clean phone) = false /\
      String.prefix "0" (clean phone) = false /\
      String.prefix "92" (clean phone) = false /\
      r = ("+92" ++ clean phone)%string)).
Proof.
  intros Hne. unfold normalize_phone_number.
  rewrite (proj2 (String.eqb_neq _ _) Hne).
  eexists. split; [reflexivity|].
  destruct (String.prefix "+" (clean phone)) eqn:Hplus; [now left|right].
  destruct (String.prefix "0" (clean phone)) eqn:Hzero.
  - left. destruct (clean phone) as [|x t]; [discriminate|].
    rewrite prefix_one in Hzero. apply Ascii.eqb_eq in Hzero. subst x.
    now exists t.
  - right.
    destruct (String.prefix "92" (clean phone)) eqn:Hcc; [left|now right].
    apply String.prefix_correct in Hcc. cbn [String.length] in Hcc.
    destruct (clean phone) as [|x [|y t]]; try discriminate.
    cbn in Hcc. injection Hcc as <- <-. now exists t.
Qed.

(** X19: an ASCII phone number is valid exactly when, once everything
    but digits and plus signs is removed, it reads 923 and nine more
    digits, with or without a leading plus. *)
Theorem valid_phone_numbers (phone : string)
  (Hascii : ascii_text phone = true) :
  validate_phone_number phone = true <->
  exists d, subscriber d /\ (clean phone = ("923" ++ d)%string \/
                             clean phone = ("+923" ++ d)%string).
Proof. apply valid_phone_shape. Qed.

(** An instance: a number written with spaces. *)
Lemma valid_phone_numbers_witness :
  validate_phone_number "+92 300 1234567" = true <->
  exists d, subscriber d /\
            (clean "+92 300 1234567" = ("923" ++ d)%string \/
             clean "+92 300 1234567" = ("+923" ++ d)%string).
Proof.
  apply (valid_phone_numbers "+92 300 1234567"). reflexivity.
Defined.

(** The normal form, whatever the characters. *)
Lemma normalize_phone_number_facts (phone : string) :
  phone <> EmptyString ->
  (exists r, normalize_phone_number phone = Some r /\
             String.prefix "+" r = true /\
             all_chars phone_char r = true /\
             normalize_phone_number r = Some r) /\
  normalize_phone_number ("0" ++ phone) = Some ("+92" ++ clean phone)%string /\
  normalize_phone_number ("92" ++ phone) = Some ("+92" ++ clean phone)%string /\
  normalize_phone_number ("+92" ++ phone)
  = Some ("+92" ++ clean phone)%string.
Proof.
  intros Hne.
  split.
  2:{ unfold normalize_phone_number.
      change (clean ("0" ++ phone)) with (String "0" (clean phone)).
      change (clean ("92" ++ phone))
        with (String "9" (String "2" (clean phone))).
      change (clean ("+92" ++ phone))
        with (String "+" (String "9" (String "2" (clean phone)))).
      rewrite !prefix_cons.
      assert (Hnil : String.prefix "" (clean phone) = true)
        by now destruct (clean phone).
      rewrite Hnil. cbn. repeat split. }
  destruct (normalize_cases phone Hne) as (r & Hr & Hcases).
  exists r. split; [exact Hr|].
  pose proof (clean_phone_chars phone) as Hc.
  assert (Hplus : String.prefix "+" r = true /\
                  all_chars phone_char r = true).
  { destruct Hcases as [[Hp ->]|[(t & Ht & ->)|[(t & Ht & ->)|(_ & _ & _ & ->)]]].
    - now split.
    - split; [reflexivity|]. rewrite Ht in Hc. exact Hc.
    - split; [reflexivity|]. rewrite Ht in Hc. exact Hc.
    - split; [reflexivity|]. exact Hc. }
  destruct Hplus as [Hp Hall].
  split; [exact Hp|]. split; [exact Hall|].
  unfold normalize_phone_number.
  destruct r as [|x r']; [discriminate|].
  cbn [String.eqb]. rewrite (clean_clean _ Hall). now rewrite Hp.
Qed.

(** X20: the normal form of an ASCII phone number that is not empty
    starts with a plus sign, holds only digits and plus signs, and
    normalizing it again changes nothing; a leading 0, a leading 92 and a
    leading +92 spell the same number. *)
Theorem normal_form_of_phone_numbers (phone : string)
  (Hascii : ascii_text phone = true)
  (Hne : phone <> EmptyString) :
  (exists r, normalize_phone_number phone = Some r /\
             String.prefix "+" r = true /\
             all_chars phone_char r = true /\
             normalize_phone_number r = Some r) /\
  normalize_phone_number ("0" ++ phone) = Some ("+92" ++ clean phone)%string /\
  normalize_phone_number ("92" ++ phone) = Some ("+92" ++ clean phone)%string /\
  normalize_phone_number ("+92" ++ phone)
  = Some ("+92" ++ clean phone)%string.
Proof. exact (normalize_phone_number_facts phone Hne). Qed.

(** An instance: a local number written with a dash. *)
Lemma normal_form_of_phone_numbers_witness :
  (exists r, normalize_phone_number "0300-1234567" = Some r /\
             String.prefix "+" r = true /\
             all_chars phone_char r = true /\
             normalize_phone_number r = Some r) /\
  normalize_phone_number ("0" ++ "0300-1234567")
  = Some ("+92" ++ clean "0300-1234567")%string /\
  normalize_phone_number ("92" ++ "0300-1234567")
  = Some ("+92" ++ clean "0300-1234567")%string /\
  normalize_phone_number ("+92" ++ "0300-1234567")
  = Some ("+92" ++ clean "0300-1234567")%string.
Proof.
  apply (normal_form_of_phone_numbers "0300-1234567").
  - reflexivity.
  - discriminate.
Defined.

(** The numbers whose normal form is valid, whatever the characters. *)
Lemma valid_normal_form_shape (phone : string) :
  (exists r, normalize_phone_number phone = Some r /\
             validate_phone_number r = true) <->
  exists d, subscriber d /\
    (clean phone = ("+923" ++ d)%string \/ clean phone = ("923" ++ d)%string \/
     clean phone = ("03" ++ d)%string \/ clean phone = ("3" ++ d)%string).
Proof.
  destruct (String.eqb_spec phone EmptyString) as [->|Hne].
  { split.
    - intros (r & Hr & _). discriminate.
    - intros (d & _ & [H|[H|[H|H]]]); discriminate. }
  destruct (normalize_cases phone Hne) as (r & Hr & Hcases).
  pose proof (clean_phone_chars phone) as Hc.
  assert (Hall : all_chars phone_char r = true).
  { destruct Hcases as [[Hp ->]|[(t & Ht & ->)|[(t & Ht & ->)|(_ & _ & _ & ->)]]].
    - exact Hc.
    - rewrite Ht in Hc. exact Hc.
    - rewrite Ht in Hc. exact Hc.
    - exact Hc. }
  assert (Hvalid : validate_phone_number r = true <->
                   exists d, subscriber d /\
                             (r = ("923" ++ d)%string \/
                              r = ("+923" ++ d)%string)).
  { rewrite valid_phone_shape. now rewrite (clean_clean r Hall). }
  split.
  - intros (r' & Hr' & Hv).
    assert (r' = r) by congruence. subst r'.
    apply Hvalid in Hv. destruct Hv as (d & Hd & Hshape).
    exists d. split; [exact Hd|].
    destruct Hcases as [[Hp ->]|[(t & Ht & ->)|[(t & Ht & ->)|(_ & _ & _ & ->)]]].
    + destruct Hshape as [H|H]; [|now left].
      rewrite H in Hp. discriminate.
    + destruct Hshape as [H|H]; [discriminate|].
      injection H as ->. right; right; left. exact Ht.
    + destruct Hshape as [H|H]; [discriminate|].
      injection H as ->. right; left. exact Ht.
    + destruct Hshape as [H|H]; [discriminate|].
      injection H as H. right; right; right. exact H.
  - intros (d & Hd & Hshape).
    exists r. split; [exact Hr|]. apply Hvalid.
    exists d. split; [exact Hd|]. right.
    destruct Hcases as [[Hp ->]|[(t & Ht & ->)|[(t & Ht & ->)|(Hp & Hz & Hcc & ->)]]].
    + destruct Hshape as [H|[H|[H|H]]]; [exact H| | |];
        rewrite H in Hp; discriminate.
    + rewrite Ht in Hshape.
      destruct Hshape as [H|[H|[H|H]]]; try discriminate.
      injection H as ->. reflexivity.
    + rewrite Ht in Hshape.
      destruct Hshape as [H|[H|[H|H]]]; try discriminate.
      injection H as ->. reflexivity.
    + destruct Hshape as [H|[H|[H|H]]].
      * rewrite H in Hp. discriminate.
      * rewrite H in Hcc. discriminate.
      * rewrite H in Hz. discriminate.
      * now rewrite H.
Qed.

(** X21: the normal form of an ASCII phone number is valid exactly when
    the number, once everything but digits and plus signs is removed,
    reads +923, 923, 03 or 3 followed by nine digits. *)
Theorem valid_after_normalizing (phone : string)
  (Hascii : ascii_text phone = true) :
  (exists r, normalize_phone_number phone = Some r /\
             validate_phone_number r = true) <->
  exists d, subscriber d /\
    (clean phone = ("+923" ++ d)%string \/ clean phone = ("923" ++ d)%string \/
     clean phone = ("03" ++ d)%string \/ clean phone = ("3" ++ d)%string).
Proof. exact (valid_normal_form_shape phone). Qed.

(** An instance: a local number written with a dash. *)
Lemma valid_after_normalizing_witness :
  (exists r, normalize_phone_number "0300-1234567" = Some r /\
             validate_phone_number r = true) <->
  exists d, subscriber d /\
    (clean "0300-1234567" = ("+923" ++ d)%string \/
     clean "0300-1234567" = ("923" ++ d)%string \/
     clean "0300-1234567" = ("03" ++ d)%string \/
     clean "0300-1234567" = ("3" ++ d)%string).
Proof.
  apply (valid_after_normalizing "0300-1234567"). reflexivity.
Defined.

(** *** Sanitized text *)

Lemma take_length_le (n : nat) :
  forall s, (String.length (PyStr.take n s) <= n)%nat.
Proof.
  unfold PyStr.take.
  induction n as [|n IH]; intros [|c s]; cbn; try lia.
  specialize (IH s). lia.
Qed.

Lemma take_short (n : nat) :
  forall s, (String.length s <= n)%nat -> PyStr.take n s = s.
Proof.
  unfold PyStr.take.
  induction n as [|n IH]; intros [|c s] Hl; cbn in *; try reflexivity;
    try lia.
  f_equal. apply IH. lia.
Qed.

Lemma take_all_chars (p : ascii -> bool) (n : nat) :
  forall s, all_chars p s = true -> all_chars p (PyStr.take n s) = true.
Proof.
  unfold PyStr.take.
  induction n as [|n IH]; intros [|c s] Hs; cbn in *; try reflexivity.
  apply andb_true_iff in Hs. destruct Hs as [Hc Hs].
  now rewrite Hc, IH.
Qed.

Lemma slice_to_all_chars (p : ascii -> bool) (n : Z) (s : string) :
  all_chars p s = true -> all_chars p (slice_to n s) = true.
Proof.
  intros Hs. unfold slice_to.
  destruct (0 <=? n)%Z; now apply take_all_chars.
Qed.

Lemma lstrip_all_chars (p : ascii -> bool) (s : string) :
  all_chars p s = true -> all_chars p (lstrip s) = true.
Proof.
  induction s as [|c s IH]; [reflexivity|]. intros Hs.
  cbn [lstrip]. destruct (PyStr.is_space c); [|exact Hs].
  cbn [all_chars] in Hs. apply andb_true_iff in Hs. now apply IH.
Qed.

Lemma lstrip_length (s : string) :
  (String.length (lstrip s) <= String.length s)%nat.
Proof.
  induction s as [|c s IH]; [reflexivity|].
  cbn [lstrip]. destruct (PyStr.is_space c); cbn [String.length]; lia.
Qed.

Lemma lstrip_first (s : string) : not_space (first_char (lstrip s)).
Proof.
  induction s as [|c s IH]; [exact I|].
  cbn [lstrip]. destruct (PyStr.is_space c) eqn:Hc; [exact IH|exact Hc].
Qed.

Lemma lstrip_fixed (s : string) :
  not_space (first_char s) -> lstrip s = s.
Proof.
  destruct s as [|c s]; [reflexivity|]. cbn. now intros ->.
Qed.

Lemma rstrip_all_chars (p : ascii -> bool) (s : string) :
  all_chars p s = true -> all_chars p (rstrip s) = true.
Proof.
  induction s as [|c s IH]; [reflexivity|]. intros Hs.
  cbn [all_chars] in Hs. apply andb_true_iff in Hs. destruct Hs as [Hc Hs].
  specialize (IH Hs). cbn [rstrip].
  destruct (rstrip s) as [|y t].
  - destruct (PyStr.is_space c); [reflexivity|].
    cbn [all_chars]. now rewrite Hc.
  - cbn [all_chars] in *. now rewrite Hc, IH.
Qed.

Lemma rstrip_length (s : string) :
  (String.length (rstrip s) <= String.length s)%nat.
Proof.
  induction s as [|c s IH]; [reflexivity|].
  cbn [rstrip]. destruct (rstrip s) as [|y t].
  - destruct (PyStr.is_space c); cbn [String.length]; lia.
  - cbn [String.length] in *. lia.
Qed.

Lemma rstrip_last (s : string) : not_space (last_char (rstrip s)).
Proof.
  induction s as [|c s IH]; [exact I|].
  cbn [rstrip]. destruct (rstrip s) as [|y t].
  - destruct (PyStr.is_space c) eqn:Hc; [exact I|exact Hc].
  - exact IH.
Qed.

Lemma rstrip_first (s : string) :
  not_space (first_char s) -> not_space (first_char (rstrip s)).
Proof.
  destruct s as [|c s]; [intros _; exact I|].
  cbn [first_char not_space rstrip]. intros Hc.
  destruct (rstrip s); [rewrite Hc|]; exact Hc.
Qed.

Lemma rstrip_fixed (s : string) :
  not_space (last_char s) -> rstrip s = s.
Proof.
  induction s as [|c s IH]; [reflexivity|].
  destruct s as [|y t].
  - cbn. now intros ->.
  - intros Hl. change (last_char (String c (String y t)))
      with (last_char (String y t)) in Hl.
    specialize (IH Hl). cbn [rstrip] in *. now rewrite IH.
Qed.

(** X22: the sanitized text holds no NUL character and neither starts
    nor ends with white space; when [max_length] is not negative it is
    at most [max_length] long, and sanitizing it again changes
    nothing. *)
Theorem sanitized_text (text : string) (max_length : Z)
  (Hmax : (0 <= max_length)%Z) :
  let clean_text := sanitize_text text max_length in
  all_chars (fun c => negb (Ascii.eqb c NUL)) clean_text = true /\
  not_space (first_char clean_text) /\
  not_space (last_char clean_text) /\
  (Z.of_nat (String.length clean_text) <= max_length)%Z /\
  sanitize_text clean_text max_length = clean_text.
Proof.
  intros clean_text.
  assert (Hfacts :
    all_chars (fun c => negb (Ascii.eqb c NUL)) clean_text = true /\
    not_space (first_char clean_text) /\
    not_space (last_char clean_text) /\
    (String.length clean_text <= Z.to_nat max_length)%nat).
  { unfold clean_text, sanitize_text.
    destruct (String.eqb text EmptyString).
    { repeat split; cbn; lia. }
    cbv zeta. unfold strip.
    split; [|split; [|split]].
    - apply rstrip_all_chars, lstrip_all_chars, slice_to_all_chars.
      apply (all_chars_filter (fun c => negb (Ascii.eqb c (ascii_of_nat 0)))).
    - apply rstrip_first, lstrip_first.
    - apply rstrip_last.
    - eapply Nat.le_trans; [apply rstrip_length|].
      eapply Nat.le_trans; [apply lstrip_length|].
      unfold slice_to. rewrite (proj2 (Z.leb_le 0 max_length) Hmax).
      apply take_length_le. }
  destruct Hfacts as (Hnul & Hfirst & Hlast & Hlen).
  split; [exact Hnul|]. split; [exact Hfirst|]. split; [exact Hlast|].
  split; [lia|].
  unfold sanitize_text at 1.
  destruct (String.eqb_spec clean_text EmptyString) as [Hempty|_];
    [now rewrite Hempty|].
  cbv zeta.
  unfold NUL in Hnul. rewrite (filter_all_chars _ clean_text Hnul).
  unfold slice_to. rewrite (proj2 (Z.leb_le 0 max_length) Hmax).
  rewrite (take_short _ _ Hlen).
  unfold strip. rewrite (lstrip_fixed _ Hfirst). now apply rstrip_fixed.
Qed.

(** An instance: a padded text cut to eight characters. *)
Lemma sanitized_text_witness :
  (0 <= 8)%Z /\
  let clean_text := sanitize_text "  hello world  " 8 in
  all_chars (fun c => negb (Ascii.eqb c NUL)) clean_text = true /\
  not_space (first_char clean_text) /\
  not_space (last_char clean_text) /\
  (Z.of_nat (String.length clean_text) <= 8)%Z /\
  sanitize_text clean_text 8 = clean_text.
Proof.
  split; [lia|]. apply (sanitized_text "  hello world  " 8). lia.
Defined.

End ValidatorProps.

(** ** The health checks *)

Module HealthProps.

Import HealthCheck HealthSpec.

Lemma dict_set_keys {V : Type} (key : string) (value : V)
  (d : list (string * V)) :
  forall k, In k (map fst (dict_set key value d)) <->
            k = key \/ In k (map fst d).
Proof.
  induction d as [|[k0 v0] d IH]; intros k; cbn [dict_set].
  - cbn. intuition.
  - destruct (String.eqb_spec k0 key) as [->|Hne]; cbn.
    + intuition.
    + rewrite IH. intuition.
Qed.

Lemma dict_set_NoDup {V : Type} (key : string) (value : V)
  (d : list (string * V)) :
  NoDup (map fst d) -> NoDup (map fst (dict_set key value d)).
Proof.
  induction d as [|[k0 v0] d IH]; intros Hnd; cbn [dict_set].
  - repeat constructor. intros [].
  - cbn [map fst] in Hnd. apply NoDup_cons_iff in Hnd.
    destruct Hnd as [Hk Hnd].
    destruct (String.eqb_spec k0 key) as [->|Hne]; cbn.
    + now constructor.
    + constructor; [|now apply IH].
      rewrite dict_set_keys. intros [Heq|Hin]; congruence.
Qed.

Lemma dict_set_In {V : Type} (key : string) (value : V)
  (d : list (string * V)) :
  NoDup (map fst d) ->
  forall k v, In (k, v) (dict_set key value d) <->
              (k = key /\ v = value) \/ (k <> key /\ In (k, v) d).
Proof.
  induction d as [|[k0 v0] d IH]; intros Hnd k v; cbn [dict_set].
  - cbn. split.
    + intros [Heq|[]]. left. split; congruence.
    + intros [[-> ->]|[_ []]]. now left.
  - cbn [map fst] in Hnd. apply NoDup_cons_iff in Hnd.
    destruct Hnd as [Hk Hnd].
    destruct (String.eqb_spec k0 key) as [->|Hne]; cbn [In].
    + split.
      * intros [Heq|Hin].
        -- left. split; congruence.
        -- right. split; [|now right].
           intros ->. apply Hk. change key with (fst (key, v)).
           now apply in_map.
      * intros [[-> ->]|[Hkk [Heq|Hin]]]; [now left| |now right].
        congruence.
    + rewrite (IH Hnd). split.
      * intros [Heq|[H|[Hkk Hin]]].
        -- right. split; [congruence|now left].
        -- now left.
        -- right. split; [exact Hkk|now right].
      * intros [H|[Hkk [Heq|Hin]]].
        -- right. now left.
        -- now left.
        -- right. right. now split.
Qed.

(** A new key goes to the end of the dict. *)
Lemma dict_set_new {V : Type} (key : string) (value : V)
  (d : list (string * V)) :
  ~ In key (map fst d) -> dict_set key value d = d ++ [(key, value)].
Proof.
  induction d as [|[k0 v0] d IH]; intros Hnew; [reflexivity|].
  cbn [dict_set]. cbn [map fst In] in Hnew.
  destruct (String.eqb_spec k0 key) as [->|Hne]; [tauto|].
  cbn [app]. f_equal. apply IH. tauto.
Qed.

(** The checks of the monitor after a list of registrations. *)
Lemma registered_spec (regs : list registration) :
  NoDup (map fst (checks (registered regs))) /\
  forall name check_func is_critical,
    In (name, CheckData check_func is_critical) (checks (registered regs))
    <-> in_force regs (name, check_func, is_critical).
Proof.
  induction regs as [|r regs IH] using rev_ind.
  - split; [constructor|]. intros name f c. split; [intros []|].
    intros (before & after & Heq & _). now destruct before.
  - assert (Hr : registered (regs ++ [r])
                 = register_check (fst (fst r)) (snd (fst r)) (snd r)
                                  (registered regs))
      by (unfold registered; now rewrite fold_left_app).
    rewrite Hr. clear Hr.
    destruct IH as [Hnd IH].
    generalize dependent (registered regs). intros self Hnd IH.
    destruct r as [[rn rf] rc]. cbn [fst snd register_check checks].
    split; [now apply dict_set_NoDup|].
    intros name f c. rewrite (dict_set_In _ _ _ Hnd). split.
    + intros [[-> Heq]|[Hne Hin]].
      * injection Heq as -> ->.
        exists regs, []. split; [reflexivity|]. intros [].
      * apply IH in Hin. destruct Hin as (before & after & -> & Hlast).
        exists before, (after ++ [(rn, rf, rc)]).
        split; [now rewrite <- app_assoc|].
        rewrite map_app, in_app_iff. cbn. unfold name_of in *. cbn in *.
        intuition.
    + intros (before & after & Heq & Hlast).
      destruct after as [|a after] using rev_ind.
      * apply app_inj_tail in Heq. destruct Heq as [_ Heq].
        injection Heq as -> -> ->. now left.
      * clear IHafter. rewrite app_comm_cons, app_assoc in Heq.
        apply app_inj_tail in Heq. destruct Heq as [-> <-].
        rewrite map_app, in_app_iff in Hlast. cbn in Hlast.
        unfold name_of in Hlast. cbn in Hlast.
        right. split; [intuition congruence|].
        apply IH. exists before, after. split; [reflexivity|].
        unfold name_of. cbn. tauto.
Qed.

(** Assigning to a key keeps the order of the keys; a new key comes
    last. *)
Lemma dict_set_order {V : Type} (key : string) (value : V)
  (d : list (string * V)) :
  map fst (dict_set key value d)
  = if existsb (String.eqb key) (map fst d) then map fst d
    else map fst d ++ [key].
Proof.
  induction d as [|[k v] d IH]; [reflexivity|].
  cbn [dict_set map fst existsb].
  rewrite (String.eqb_sym key k).
  destruct (String.eqb k key); [reflexivity|].
  cbn [map fst orb]. rewrite IH.
  now destruct (existsb _ _).
Qed.

(** The checks are kept in the order of their first registration. *)
Lemma registered_order (regs : list registration) :
  forall self0,
    map fst (checks (fold_left
                       (fun self r =>
                          register_check (fst (fst r)) (snd (fst r)) (snd r)
                                         self)
                       regs self0))
    = map fst (checks self0)
      ++ first_names (map fst (checks self0)) (map name_of regs).
Proof.
  induction regs as [|[[n f] c] regs IH]; intros self0; cbn [fold_left map].
  - cbn. now rewrite app_nil_r.
  - rewrite IH. cbn [fst snd register_check checks name_of first_names].
    unfold name_of at 1. cbn [fst].
    rewrite dict_set_order.
    destruct (existsb (String.eqb n) (map fst (checks self0)));
      [reflexivity|].
    now rewrite <- app_assoc.
Qed.

(** The loop of [run_all_checks] over checks with distinct names. *)
Lemma run_checks_spec (cs : list (string * check_data)) :
  forall res,
    NoDup (map fst (results_checks res) ++ map fst cs) ->
    let res' := fold_left run_check cs res in
    timestamp res' = timestamp res /\
    results_checks res' =
      results_checks res ++ map (fun item => (fst item, reported (snd item))) cs /\
    (overall_status res' = "CRITICAL" <->
     overall_status res = "CRITICAL" \/
     exists name data, In (name, data) cs /\ critical data = true /\
                       passes (func data) = false).
Proof.
  induction cs as [|[name data] cs IH]; intros res Hnd; cbn [fold_left].
  - cbv zeta. rewrite app_nil_r. split; [reflexivity|].
    split; [reflexivity|]. split; [now left|].
    intros [H|(n & d & [] & _)]. exact H.
  - assert (Hnew : ~ In name (map fst (results_checks res))).
    { cbn [map fst] in Hnd. apply NoDup_remove_2 in Hnd.
      intros Hin. apply Hnd. apply in_or_app. now left. }
    assert (Hstep : timestamp (run_check res (name, data)) = timestamp res /\
                    results_checks (run_check res (name, data))
                    = results_checks res ++ [(name, reported data)] /\
                    (overall_status (run_check res (name, data)) = "CRITICAL"
                     <-> overall_status res = "CRITICAL" \/
                         (critical data = true /\
                          passes (func data) = false))).
    { unfold run_check, reported.
      destruct (func data); cbn [timestamp results_checks overall_status passes];
        rewrite (dict_set_new _ _ _ Hnew);
        (split; [reflexivity|split; [reflexivity|]]).
      - split; [now left|]. intros [H|[_ H]]; [exact H|discriminate].
      - destruct (critical data); split; auto.
        intros [H|[H _]]; [exact H|discriminate].
      - destruct (critical data); split; auto.
        intros [H|[H _]]; [exact H|discriminate]. }
    destruct Hstep as (Hts & Hrc & Hos).
    destruct (IH (run_check res (name, data))) as (Hts' & Hrc' & Hos').
    { rewrite Hrc, map_app, <- app_assoc. exact Hnd. }
    cbv zeta. split; [congruence|]. split.
    + rewrite Hrc', Hrc, <- app_assoc. reflexivity.
    + rewrite Hos', Hos. split.
      * intros [[H|[Hc Hp]]|(n & d & Hin & Hc & Hp)].
        -- now left.
        -- right. exists name, data. split; [now left|now split].
        -- right. exists n, d. split; [now right|now split].
      * intros [H|(n & d & [Heq|Hin] & Hc & Hp)].
        -- left. now left.
        -- injection Heq as <- <-. left. right. now split.
        -- right. exists n, d. now split.
Qed.

(** X23: the monitor keeps its checks in the order in which their names
    were first registered, and a check registered again under the same
    name replaces the earlier one in place: the check in force is the
    last one registered under the name.  A run reports every check in
    force once, in that order, also after a check that raises; and the
    monitor is unhealthy exactly when a critical check in force returns a
    false value or raises. *)
Theorem unhealthy_iff_critical_check_fails (regs : list registration)
  (now : Q) :
  let self := registered regs in
  let res := fst (run_all_checks now self) in
  map fst (checks self) = registration_order regs /\
  NoDup (map fst (checks self)) /\
  (forall name check_func is_critical,
     In (name, CheckData check_func is_critical) (checks self) <->
     in_force regs (name, check_func, is_critical)) /\
  results_checks res
  = map (fun item => (fst item, reported (snd item))) (checks self) /\
  map fst (results_checks res) = registration_order regs /\
  (fst (is_healthy now self) = false <->
   exists name check_func,
     in_force regs (name, check_func, true) /\ passes check_func = false).
Proof.
  intros self res.
  destruct (registered_spec regs) as [Hnd Hforce]. fold self in Hnd, Hforce.
  destruct (run_checks_spec (checks self) (Results now [] "HEALTHY"))
    as (_ & Hrc & Hos); [exact Hnd|].
  assert (Horder : map fst (checks self) = registration_order regs).
  { exact (registered_order regs __init__). }
  split; [exact Horder|].
  split; [exact Hnd|]. split; [exact Hforce|]. split; [exact Hrc|].
  split.
  { unfold res, run_all_checks. cbn [fst].
    cbv zeta in Hrc. cbn [results_checks app] in Hrc. rewrite Hrc.
    rewrite map_map. cbn [fst]. exact Horder. }
  unfold is_healthy, run_all_checks. cbn [fst].
  rewrite negb_false_iff, String.eqb_eq, Hos. split.
  - intros [H|(name & [f c] & Hin & Hc & Hp)]; [discriminate|].
    cbn [critical func] in Hc, Hp. subst c.
    exists name, f. split; [now apply Hforce|exact Hp].
  - intros (name & f & Hin & Hp). right.
    exists name, (CheckData f true). split; [now apply Hforce|now split].
Qed.

End HealthProps.

(** ** The pipeline as a whole *)

Module PipelineProps.

Import Retry Orchestrator OrchestratorSpec PipelineSpec.

(** The retry loop around a stage body that logs one invocation of
    stage [s] and does not sleep: the stage runs at most once per
    attempt, and the loop sleeps less often than it has attempts. *)
Lemma attempts_trace {A : Type} (config : RetryConfig) (uniform : Z -> Q)
  (func : world -> (A + exn) * world) (s : stage)
  (Hfunc : forall w, invoked (snd (func w)) = invoked w ++ [s] /\
                     slept (snd (func w)) = slept w) (remaining : nat) :
  forall (i : Z) (delay : Q) (last : option exn) (w : world),
    (i + Z.of_nat remaining = max_attempts config + 1)%Z ->
    exists m new,
      invoked (snd (attempts config uniform sleep func remaining i delay
                             last w)) = invoked w ++ repeat s m /\
      (m <= remaining)%nat /\
      slept (snd (attempts config uniform sleep func remaining i delay
                           last w)) = slept w ++ new /\
      (List.length new <= pred remaining)%nat /\
      Forall (fun d => 0 <= d /\ d <= max_delay config) new.
Proof.
  induction remaining as [|r IH]; intros i delay last w Hi.
  - exists 0%nat, []. cbn. rewrite !app_nil_r.
    destruct last; cbn; repeat split; auto.
  - destruct (Hfunc w) as [Hinv Hsl].
    destruct (func w) as [[a|e] w1] eqn:Hf; cbn [snd] in Hinv, Hsl.
    + rewrite (RetryProps.attempts_return config uniform sleep func r i delay
                 last w w1 a Hf).
      exists 1%nat, []. cbn [snd repeat List.length]. rewrite app_nil_r.
      repeat split; auto; lia.
    + destruct (Z_lt_le_dec i (max_attempts config)) as [Hlt|Hge].
      * rewrite (RetryLoopProps.attempts_sleep_raises config uniform sleep
                   func r i delay last w w1 e Hf Hlt).
        destruct (time_sleep _) eqn:Hsleep.
        2,3: exists 1%nat, []; cbn [snd repeat List.length];
             rewrite app_nil_r; repeat split; auto; lia.
        destruct (RetryProps.time_sleep_slept _ Hsleep) as [Hpos _].
        -- destruct (IH (i + 1)%Z (delay * backoff_multiplier config)
                        (Some e)
                        (sleep (Qmin (delay *
                                      RetrySpec.jitter_factor config uniform i)
                                     (max_delay config)) w1))
             as (m & new & Hm & Hle & Hnew & Hlen & Hall); [lia|].
           exists (S m), (Qmin (delay * RetrySpec.jitter_factor config uniform i)
                               (max_delay config) :: new).
           cbn [sleep invoked slept] in Hm, Hnew.
           split; [|split; [lia|split; [|split]]].
           ++ rewrite Hm, Hinv, <- app_assoc. reflexivity.
           ++ rewrite Hnew, Hsl, <- app_assoc. reflexivity.
           ++ cbn [List.length]. lia.
           ++ constructor; [|exact Hall].
              split; [exact Hpos|apply Q.le_min_r].
      * rewrite (RetryProps.attempts_give_up config uniform sleep func r i
                   delay last w w1 e Hf Hge).
        destruct (IH (i + 1)%Z delay (Some e) w1)
          as (m & new & Hm & Hle & Hnew & Hlen & Hall); [lia|].
        exists (S m), new.
        split; [|split; [lia|split; [|split]]].
        -- rewrite Hm, Hinv, <- app_assoc. reflexivity.
        -- now rewrite Hnew, Hsl.
        -- lia.
        -- exact Hall.
Qed.

(** A decorated stage: its body runs at most [max_attempts] times and
    every sleep is at most [max_delay] long. *)
Lemma stage_trace {A : Type} (config : RetryConfig) (uniform : Z -> Q)
  (func : world -> (A + exn) * world) (s : stage)
  (Hfunc : forall w, invoked (snd (func w)) = invoked w ++ [s] /\
                     slept (snd (func w)) = slept w)
  (Hmax : (0 <= max_attempts config)%Z) (w : world) :
  exists m new,
    invoked (snd (retry_with_backoff config uniform sleep func w))
    = invoked w ++ repeat s m /\
    (m <= Z.to_nat (max_attempts config))%nat /\
    slept (snd (retry_with_backoff config uniform sleep func w))
    = slept w ++ new /\
    (List.length new <= pred (Z.to_nat (max_attempts config)))%nat /\
    Forall (fun d => 0 <= d /\ d <= max_delay config) new.
Proof.
  unfold retry_with_backoff, wrapper.
  apply attempts_trace; [exact Hfunc|lia].
Qed.

Lemma step1_body_trace (env : environment) (w : world) :
  invoked (snd (step1_body env w)) = invoked w ++ [Collect] /\
  slept (snd (step1_body env w)) = slept w.
Proof. unfold step1_body. now destruct (collect env _). Qed.

Lemma step2_body_trace (env : environment) (w : world) :
  invoked (snd (step2_body env w)) = invoked w ++ [Extract] /\
  slept (snd (step2_body env w)) = slept w.
Proof. unfold step2_body. now destruct (extract env _). Qed.

Lemma step3_body_trace (env : environment) (w : world) :
  invoked (snd (step3_body env w)) = invoked w ++ [Report] /\
  slept (snd (step3_body env w)) = slept w.
Proof. unfold step3_body. now destruct (report env _). Qed.

Lemma step4_body_trace (env : environment) (s d : file) (w : world) :
  invoked (snd (step4_body env s d w)) = invoked w ++ [Deliver] /\
  slept (snd (step4_body env s d w)) = slept w.
Proof.
  unfold step4_body.
  destruct (negb _); [now split|].
  destruct (negb _); [now split|].
  now destruct (deliver env _).
Qed.

(** The [try] block of [run] from a world in which nothing ran. *)
Lemma workflow_trace (env : environment) (files : list file) :
  exists collects extracts reports deliveries sleeps,
    invoked (snd (workflow env (initial_world files)))
    = trace collects extracts reports deliveries /\
    (collects <= 3)%nat /\ (extracts <= 2)%nat /\ (reports <= 1)%nat /\
    (deliveries <= 3)%nat /\
    slept (snd (workflow env (initial_world files))) = sleeps /\
    (List.length sleeps <= 5)%nat /\ Forall short_sleep sleeps.
Proof.
  unfold workflow, get_vendor_numbers.
  set (w0 := enter GetVendors (initial_world files)).
  destruct (vendors_load env).
  2:{ exists 0%nat, 0%nat, 0%nat, 0%nat, []. cbn.
      repeat split; auto; lia. }
  destruct (stage_trace retry_3_5 (uniform env) (step1_body env) Collect
              (step1_body_trace env) ltac:(cbn; lia) w0)
    as (b & new1 & Hi1 & Hb & Hs1 & Hl1 & Hall1).
  fold (step1_collect_messages env) in Hi1, Hs1.
  set (w1 := snd (step1_collect_messages env w0)) in *.
  destruct (stage_trace retry_2_3 (uniform env) (step2_body env) Extract
              (step2_body_trace env) ltac:(cbn; lia) w1)
    as (c & new2 & Hi2 & Hc & Hs2 & Hl2 & Hall2).
  fold (step2_process_data env) in Hi2, Hs2.
  cbn in Hb, Hl1, Hc, Hl2.
  cbn [retry_3_5 retry_2_3 max_delay] in Hall1, Hall2.
  assert (Hstop : exists sleeps,
            invoked (snd (step2_process_data env w1)) = trace b c 0 0 /\
            slept (snd (step2_process_data env w1)) = sleeps /\
            (List.length sleeps <= 3)%nat /\ Forall short_sleep sleeps).
  { exists (new1 ++ new2). split; [|split; [|split]].
    - rewrite Hi2, Hi1. unfold trace, w0. cbn. now rewrite !app_nil_r.
    - rewrite Hs2, Hs1. reflexivity.
    - rewrite length_app. lia.
    - apply Forall_app. split; assumption. }
  destruct Hstop as (sleeps2 & Hinv2 & Hsl2 & Hlen2 & Hshort2).
  destruct (step2_process_data env w1) as [[ps| | | |] w2] eqn:H2;
    cbn [snd] in *;
    try (exists b, c, 0%nat, 0%nat, sleeps2; repeat split; auto; lia).
  destruct (OrchestratorProps.step3_single_attempt env w2) as (r & Hbody & H3).
  rewrite H3. destruct r as [[rs sp] dp].
  destruct (step3_body_trace env w2) as [Hi3 Hs3].
  set (w3 := snd (step3_body env w2)) in *.
  assert (Hinv3 : invoked w3 = trace b c 1 0).
  { rewrite Hi3, Hinv2. unfold trace. cbn [repeat].
    rewrite !app_nil_r, <- !app_assoc. reflexivity. }
  destruct sp as [sp|], dp as [dp|]; cbn [snd];
    try (exists b, c, 1%nat, 0%nat, sleeps2;
         repeat split; auto; try lia; congruence).
  destruct (stage_trace retry_3_5 (uniform env) (step4_body env sp dp) Deliver
              (step4_body_trace env sp dp) ltac:(cbn; lia) w3)
    as (e & new4 & Hi4 & He & Hs4 & Hl4 & Hall4).
  fold (step4_send_to_ceo env sp dp) in Hi4, Hs4.
  cbn in He, Hl4. cbn [retry_3_5 max_delay] in Hall4.
  exists b, c, 1%nat, e, (sleeps2 ++ new4).
  split; [|repeat split; auto; try lia].
  - rewrite Hi4, Hinv3. unfold trace. cbn [repeat].
    rewrite !app_nil_r, <- !app_assoc. reflexivity.
  - rewrite Hs4, Hs3, Hsl2. reflexivity.
  - rewrite length_app. lia.
  - apply Forall_app. split; assumption.
Qed.

(** X24: in a run of the pipeline the stage bodies run in the order
    vendors, collection, extraction, report, delivery; collection and
    delivery run at most three times, extraction at most twice, the
    report at most once; the retry wrappers sleep at most five times in
    all, each time between 0 and 60 seconds (the sleeps inside the stage
    bodies are those of the collaborators and are not counted). *)
Theorem stages_run_in_order_within_budget (env : environment)
  (files : list file) :
  exists collects extracts reports deliveries,
    invoked (snd (run env (initial_world files)))
    = trace collects extracts reports deliveries /\
    (collects <= 3)%nat /\ (extracts <= 2)%nat /\ (reports <= 1)%nat /\
    (deliveries <= 3)%nat /\
    (List.length (slept (snd (run env (initial_world files)))) <= 5)%nat /\
    Forall short_sleep (slept (snd (run env (initial_world files)))).
Proof.
  destruct (workflow_trace env files)
    as (b & c & d & e & sleeps & Hinv & Hb & Hc & Hd & He & Hsl & Hlen & Hall).
  exists b, c, d, e. unfold run.
  destruct (workflow env (initial_world files)) as [ok w1].
  cbn [snd _generate_final_report invoked slept] in *.
  subst sleeps. repeat split; assumption.
Qed.

Lemma step4_same_outcome (env : environment) (s d : file) (w : world) :
  same_outcome w (snd (step4_send_to_ceo env s d w)).
Proof.
  unfold step4_send_to_ceo, retry_with_backoff, wrapper.
  apply RetryProps.attempts_preserves.
  - intros w0. now split.
  - intros w1 w2 w3 [H1 H2] [H3 H4]. split; congruence.
  - intros w0. unfold step4_body.
    destruct (negb _); [now split|].
    destruct (negb _); [now split|].
    now destruct (deliver env _).
  - intros d0 w0. now split.
Qed.

(** X25: what the report sender does (deliver, fail or raise, at any
    attempt) changes neither the result of the run, nor the report files,
    nor the final status, nor the exit code. *)
Theorem delivery_never_changes_the_outcome (env : environment)
  (sender : nat -> bool) (w : world) :
  fst (run (with_deliver env sender) w) = fst (run env w) /\
  output_dir (snd (run (with_deliver env sender) w))
  = output_dir (snd (run env w)) /\
  status (snd (run (with_deliver env sender) w)) = status (snd (run env w)) /\
  fst (main (with_deliver env sender) w) = fst (main env w).
Proof.
  assert (Hwf : fst (workflow (with_deliver env sender) w)
                = fst (workflow env w) /\
                output_dir (snd (workflow (with_deliver env sender) w))
                = output_dir (snd (workflow env w))).
  { unfold workflow.
    change (get_vendor_numbers (with_deliver env sender))
      with (get_vendor_numbers env).
    change (step1_collect_messages (with_deliver env sender))
      with (step1_collect_messages env).
    change (step2_process_data (with_deliver env sender))
      with (step2_process_data env).
    change (step3_generate_reports (with_deliver env sender))
      with (step3_generate_reports env).
    destruct (get_vendor_numbers env w) as [[u|e] w0]; [|now split].
    destruct (step2_process_data env _) as [[ps| | | |] w2]; try now split.
    destruct (step3_generate_reports env w2) as [[[[rs sp] dp]| | | |] w3];
      try now split.
    cbn [fst snd]. split; [reflexivity|].
    destruct sp as [sp|], dp as [dp|]; try reflexivity.
    destruct (step4_same_outcome (with_deliver env sender) sp dp w3) as [-> _].
    destruct (step4_same_outcome env sp dp w3) as [-> _].
    reflexivity. }
  destruct Hwf as [Hok Hdir].
  assert (Hrun : fst (run (with_deliver env sender) w) = fst (run env w) /\
                 output_dir (snd (run (with_deliver env sender) w))
                 = output_dir (snd (run env w)) /\
                 status (snd (run (with_deliver env sender) w))
                 = status (snd (run env w))).
  { unfold run.
    destruct (workflow (with_deliver env sender) w) as [ok' w'].
    destruct (workflow env w) as [ok w1].
    cbn [fst snd _generate_final_report output_dir status] in *.
    subst ok'. auto. }
  destruct Hrun as (Hr1 & Hr2 & Hr3).
  split; [exact Hr1|]. split; [exact Hr2|]. split; [exact Hr3|].
  unfold main.
  change (constructs (with_deliver env sender)) with (constructs env).
  destruct (constructs env); [|reflexivity].
  destruct (run (with_deliver env sender) w) as [ok' w'].
  destruct (run env w) as [ok w1].
  cbn [fst snd] in *. subst ok'. now rewrite Hr2.
Qed.

End PipelineProps.
